(** * PostgreSQL actor store: a shallow embedding and its verified properties

    The development follows [actorstore/postgresql]: the metadata parser
    ([actorstore_metadata.go]) and the store itself (the [PostgreSQL] struct
    with [Init], [Ping], [Close], [AddActorHost], [UpdateActorHost],
    [RemoveActorHost], [LookupActor], [RemoveActor] and the helper
    [executeInTransaction]), with the reminder operations the package keeps
    in other files modelled from their specification.

    Go values are embedded as follows.
    - [error] is an inductive type; a nil error is [None : option error];
      [fmt.Errorf("msg: %w", err)] is the constructor [Errorf msg err], so
      that [errors.Is] and [errors.As] walk the wrap chain as in Go.
    - a function returning [(T, error)] returns a pair [T * option error].
    - a nil-able slice or pointer is an [option]; [Some []] is the empty,
      non-nil slice.
    - [time.Duration] is [Z] (nanoseconds).
    - the database server, the caller's context and the logger are an
      explicit [World] threaded through a state monad [M]. *)

From Stdlib Require Import ZArith List Bool Lia.
From stdpp Require Import base strings gmap pretty.
Import ListNotations.

Local Open Scope string_scope.
Local Open Scope Z_scope.

(** ** Errors *)

Inductive error : Type :=
| ErrInvalidRequestMissingParameters   (* actorstore.ErrInvalidRequestMissingParameters *)
| ErrActorHostConflict                 (* actorstore.ErrActorHostConflict *)
| ErrActorHostNotFound                 (* actorstore.ErrActorHostNotFound *)
| ErrActorNotFound                     (* actorstore.ErrActorNotFound *)
| ErrNoActorHost                       (* actorstore.ErrNoActorHost *)
| ErrReminderNotFound                  (* actorstore.ErrReminderNotFound *)
| ErrNoRows                            (* pgx.ErrNoRows *)
| ErrTxClosed                          (* pgx.ErrTxClosed *)
| PgError (code : string)              (* *pgconn.PgError with its SQLSTATE *)
| CtxCanceled                          (* context.Canceled *)
| CtxDeadlineExceeded                  (* context.DeadlineExceeded *)
| ErrorsNew (msg : string)             (* errors.New(msg) *)
| Errorf (msg : string) (wrapped : error). (* fmt.Errorf(msg + ": %w", wrapped) *)

(** [errors.Is(err, pgx.ErrNoRows)]: some error of the wrap chain is the
    sentinel. *)
Fixpoint errors_Is_ErrNoRows (err : error) : bool :=
  match err with
  | ErrNoRows => true
  | Errorf _ wrapped => errors_Is_ErrNoRows wrapped
  | _ => false
  end.

(** [errors.As(err, &pgErr)]: the first [*pgconn.PgError] of the wrap chain,
    given by its code. *)
Fixpoint errors_As_PgError (err : error) : option string :=
  match err with
  | PgError code => Some code
  | Errorf _ wrapped => errors_As_PgError wrapped
  | _ => None
  end.

(** [pgerrcode.UniqueViolation] *)
Definition UniqueViolation : string := "23505".
(** [pgerrcode.ForeignKeyViolation] *)
Definition ForeignKeyViolation : string := "23503".
(** [pgerrcode.UndefinedTable] *)
Definition UndefinedTable : string := "42P01".

Definition isUniqueViolationError (err : option error) : bool :=
  match err with
  | None => false
  | Some e =>
      match errors_As_PgError e with
      | Some code => String.eqb code UniqueViolation
      | None => false
      end
  end.

(** ** Metadata ([actorstore_metadata.go]) *)

Definition pgTable := string.
Definition pgTableHosts : pgTable := "hosts".
Definition pgTableHostsActorTypes : pgTable := "hosts_actor_types".
Definition pgTableActors : pgTable := "actors".
(** Declared next to the reminder queries, in another file of the package; the
    conformance-test helpers use it. *)
Definition pgTableReminders : pgTable := "reminders".

(** [time.Second], in nanoseconds. *)
Definition Second : Z := 1000000000.
Definition Millisecond : Z := 1000000.

Section Metadata.

(** The embedded [pgauth.PostgresAuthMetadata] and its two methods belong
    to another package: they are parameters of the parser. *)
Variable PostgresAuthMetadata : Type.
Variable auth_Reset : PostgresAuthMetadata -> PostgresAuthMetadata.
Variable auth_InitWithMetadata :
  gmap string string -> PostgresAuthMetadata -> option error * PostgresAuthMetadata.
(** How the decoder reads a duration out of a property value. *)
Variable parseDuration : string -> option Z.
(** How the decoder finds, among the keys of the property map, the value of
    the field with a given [mapstructure] name: the matching of keys belongs to
    the decoder (it does not depend on the case of the letters), so it is a
    parameter. *)
Variable lookupKey : gmap string string -> string -> option string.

Record pgMetadata : Type := mkMetadata {
  Auth : PostgresAuthMetadata;
  TablePrefix : string;
  MetadataTableName : string;
  Timeout : Z
}.

(** Modelled from the spec: [metadata.DecodeMetadata] (package [metadata],
    not among the sources). It reads the fields [tablePrefix],
    [metadataTableName] and [timeout] out of the property map, each under
    the key that [lookupKey] finds for its name, and leaves a field for
    which no key is found as it is; a [timeout] that does not parse is an
    error. *)
Definition DecodeMetadata (props : gmap string string) (m : pgMetadata)
  : option error * pgMetadata :=
  let prefix := default (TablePrefix m) (lookupKey props "tablePrefix") in
  let mtable := default (MetadataTableName m) (lookupKey props "metadataTableName") in
  match lookupKey props "timeout" with
  | None => (None, mkMetadata (Auth m) prefix mtable (Timeout m))
  | Some v =>
      match parseDuration v with
      | Some d => (None, mkMetadata (Auth m) prefix mtable d)
      | None =>
          (Some (ErrorsNew "cannot decode 'timeout'"),
           mkMetadata (Auth m) prefix mtable (Timeout m))
      end
  end.

(** [(m *pgMetadata) InitWithMetadata]: the receiver is updated in place,
    so the function returns the error and the new value of [*m]. *)
Definition InitWithMetadata (props : gmap string string) (m : pgMetadata)
  : option error * pgMetadata :=
  (* Reset the object *)
  let m := mkMetadata (auth_Reset (Auth m)) "" "dapr_metadata" (20 * Second) in
  (* Decode the metadata *)
  let '(err, m) := DecodeMetadata props m in
  match err with
  | Some e => (Some e, m)
  | None =>
      (* Validate and sanitize input *)
      let '(err, a) := auth_InitWithMetadata props (Auth m) in
      let m := mkMetadata a (TablePrefix m) (MetadataTableName m) (Timeout m) in
      match err with
      | Some e => (Some e, m)
      | None =>
          (* Timeout *)
          if Timeout m <? 1 * Second
          then (Some (ErrorsNew "invalid value for 'timeout': must be greater than 0"), m)
          else (None, m)
      end
  end.

Definition TableName (m : pgMetadata) (table : pgTable) : string :=
  TablePrefix m +:+ table.

End Metadata.

Arguments mkMetadata {PostgresAuthMetadata}.
Arguments Auth {PostgresAuthMetadata}.
Arguments TablePrefix {PostgresAuthMetadata}.
Arguments MetadataTableName {PostgresAuthMetadata}.
Arguments Timeout {PostgresAuthMetadata}.
Arguments DecodeMetadata {PostgresAuthMetadata}.
Arguments InitWithMetadata {PostgresAuthMetadata}.
Arguments TableName {PostgresAuthMetadata}.

(** ** The database

    The tables are those of the persisted schema; the queries that create
    them ([migration1Query]) and the lookup query ([lookupActorQuery]) are
    string constants declared in another file of the package, so the meaning of
    each statement below is modelled from the description of the schema. *)

Record HostRow : Type := mkHostRow {
  host_id : string;
  host_address : string;
  host_app_id : string;
  host_actors_api_level : Z;
  host_last_healthcheck : Z
}.

Record HostActorTypeRow : Type := mkHostActorTypeRow {
  hat_host_id : string;
  hat_actor_type : string;
  hat_actor_idle_timeout : Z
}.

Record ActorRow : Type := mkActorRow {
  act_actor_type : string;
  act_actor_id : string;
  act_host_id : string;
  act_actor_idle_timeout : Z
}.

Record ReminderRow : Type := mkReminderRow {
  rem_actor_type : string;
  rem_actor_id : string;
  rem_name : string;
  rem_execution_time : Z
}.

Record DB : Type := mkDB {
  db_prefix : string;                       (* the prefix the tables were created with *)
  db_hosts : list HostRow;
  db_hosts_actor_types : list HostActorTypeRow;
  db_actors : list ActorRow;
  db_reminders : list ReminderRow;
  db_clock : Z;                             (* CURRENT_TIMESTAMP *)
  db_next_id : nat                          (* supply of generated host ids *)
}.

(** [actorstore.LookupActorResponse] *)
Record LookupActorResponse : Type := mkLookupActorResponse {
  res_AppID : string;
  res_Address : string;
  res_IdleTimeout : Z
}.

Definition zeroLookupActorResponse : LookupActorResponse :=
  mkLookupActorResponse "" "" 0.

(** The statements the store sends, each with the table names it was
    formatted with and its arguments. *)
Inductive stmt : Type :=
| SqlInsertHost (table address appID : string) (apiLevel : Z)
| SqlUpdateHostHealthcheck (table hostID : string) (lastHealthCheck : Z)
| SqlDeleteHost (table hostID : string)
| SqlDeleteHostActorTypes (table hostID : string)
| SqlCopyHostActorTypes (table : string) (rows : list HostActorTypeRow)
| SqlLookupActor (hostsTable hostsActorTypesTable actorsTable actorType actorID : string)
| SqlDeleteActor (table actorType actorID : string)
| SqlDeleteReminder (table actorType actorID name : string).

(** What a statement that did not fail gives back. *)
Inductive reply : Type :=
| Tag (rowsAffected : Z)                 (* command tag of Exec, row count of CopyFrom *)
| RowHostID (hostID : string)            (* the RETURNING host_id row *)
| RowLookup (r : LookupActorResponse)    (* the row of the lookup query *)
| NoRow.                                 (* a query that selected nothing *)

Definition is_table (d : DB) (table : string) (logical : pgTable) : bool :=
  String.eqb table (db_prefix d +:+ logical).

Definition is_Some_b {A} (o : option A) : bool :=
  match o with Some _ => true | None => false end.

Definition len {A} (l : list A) : Z := Z.of_nat (length l).

Definition host_exists (d : DB) (hostID : string) : bool :=
  existsb (fun h => String.eqb (host_id h) hostID) (db_hosts d).

Definition hat_same_key (a b : HostActorTypeRow) : bool :=
  String.eqb (hat_host_id a) (hat_host_id b) && String.eqb (hat_actor_type a) (hat_actor_type b).

(** The rows of a bulk insert must not repeat a key, among themselves or
    against the table. *)
Fixpoint hat_keys_fresh (existing rows : list HostActorTypeRow) : bool :=
  match rows with
  | [] => true
  | r :: rows' =>
      negb (existsb (hat_same_key r) existing) && hat_keys_fresh (r :: existing) rows'
  end.

Definition undefined_table (d : DB) : (error + reply) * DB :=
  (inl (PgError UndefinedTable), d).

(** Modelled from the spec: the meaning of the statements over the persisted
    schema (the migration and lookup queries are not among the sources).
    Hosts are unique per (address, application id); actor-type rows are keyed
    by (host id, actor type) and reference an existing host; deleting a host
    cascades to its actor-type rows and actor assignments; the lookup returns
    the host of an existing assignment, or else assigns the actor to a host
    that declared the actor type. A failing statement changes nothing. *)
Definition sem (s : stmt) (d : DB) : (error + reply) * DB :=
  match s with
  | SqlInsertHost table address appID apiLevel =>
      if negb (is_table d table pgTableHosts) then undefined_table d
      else if existsb (fun h => String.eqb (host_address h) address
                                && String.eqb (host_app_id h) appID) (db_hosts d)
      then (inl (PgError UniqueViolation), d)
      else
        let id := "host-" +:+ pretty (db_next_id d) in
        (inr (RowHostID id),
         mkDB (db_prefix d)
              (db_hosts d ++ [mkHostRow id address appID apiLevel (db_clock d)])
              (db_hosts_actor_types d) (db_actors d) (db_reminders d)
              (db_clock d) (S (db_next_id d)))
  | SqlUpdateHostHealthcheck table hostID ts =>
      if negb (is_table d table pgTableHosts) then undefined_table d
      else
        let hit h := String.eqb (host_id h) hostID in
        (inr (Tag (len (List.filter hit (db_hosts d)))),
         mkDB (db_prefix d)
              (map (fun h => if hit h
                             then mkHostRow (host_id h) (host_address h) (host_app_id h)
                                            (host_actors_api_level h) ts
                             else h) (db_hosts d))
              (db_hosts_actor_types d) (db_actors d) (db_reminders d)
              (db_clock d) (db_next_id d))
  | SqlDeleteHost table hostID =>
      if negb (is_table d table pgTableHosts) then undefined_table d
      else
        let hit h := String.eqb (host_id h) hostID in
        (inr (Tag (len (List.filter hit (db_hosts d)))),
         mkDB (db_prefix d)
              (List.filter (fun h => negb (hit h)) (db_hosts d))
              (List.filter (fun r => negb (String.eqb (hat_host_id r) hostID))
                           (db_hosts_actor_types d))
              (List.filter (fun a => negb (String.eqb (act_host_id a) hostID)) (db_actors d))
              (db_reminders d) (db_clock d) (db_next_id d))
  | SqlDeleteHostActorTypes table hostID =>
      if negb (is_table d table pgTableHostsActorTypes) then undefined_table d
      else
        let hit r := String.eqb (hat_host_id r) hostID in
        (inr (Tag (len (List.filter hit (db_hosts_actor_types d)))),
         mkDB (db_prefix d) (db_hosts d)
              (List.filter (fun r => negb (hit r)) (db_hosts_actor_types d))
              (db_actors d) (db_reminders d) (db_clock d) (db_next_id d))
  | SqlCopyHostActorTypes table rows =>
      if negb (is_table d table pgTableHostsActorTypes) then undefined_table d
      else if negb (forallb (fun r => host_exists d (hat_host_id r)) rows)
      then (inl (PgError ForeignKeyViolation), d)
      else if negb (hat_keys_fresh (db_hosts_actor_types d) rows)
      then (inl (PgError UniqueViolation), d)
      else
        (inr (Tag (len rows)),
         mkDB (db_prefix d) (db_hosts d) (db_hosts_actor_types d ++ rows)
              (db_actors d) (db_reminders d) (db_clock d) (db_next_id d))
  | SqlLookupActor hostsTable hostsActorTypesTable actorsTable actorType actorID =>
      if negb (is_table d hostsTable pgTableHosts
               && is_table d hostsActorTypesTable pgTableHostsActorTypes
               && is_table d actorsTable pgTableActors) then undefined_table d
      else
        let host_of id := List.find (fun h => String.eqb (host_id h) id) (db_hosts d) in
        let assigned :=
          List.find (fun a => String.eqb (act_actor_type a) actorType
                              && String.eqb (act_actor_id a) actorID) (db_actors d) in
        match assigned with
        | Some a =>
            match host_of (act_host_id a) with
            | Some h =>
                (inr (RowLookup (mkLookupActorResponse (host_app_id h) (host_address h)
                                                       (act_actor_idle_timeout a))), d)
            | None => (inr NoRow, d)
            end
        | None =>
            let declared :=
              List.find (fun r => String.eqb (hat_actor_type r) actorType
                                  && host_exists d (hat_host_id r))
                        (db_hosts_actor_types d) in
            match declared with
            | Some r =>
                match host_of (hat_host_id r) with
                | Some h =>
                    (inr (RowLookup (mkLookupActorResponse (host_app_id h) (host_address h)
                                                           (hat_actor_idle_timeout r))),
                     mkDB (db_prefix d) (db_hosts d) (db_hosts_actor_types d)
                          (db_actors d ++ [mkActorRow actorType actorID (host_id h)
                                                      (hat_actor_idle_timeout r)])
                          (db_reminders d) (db_clock d) (db_next_id d))
                | None => (inr NoRow, d)
                end
            | None => (inr NoRow, d)
            end
        end
  | SqlDeleteActor table actorType actorID =>
      if negb (is_table d table pgTableActors) then undefined_table d
      else
        let hit a := String.eqb (act_actor_type a) actorType
                     && String.eqb (act_actor_id a) actorID in
        (inr (Tag (len (List.filter hit (db_actors d)))),
         mkDB (db_prefix d) (db_hosts d) (db_hosts_actor_types d)
              (List.filter (fun a => negb (hit a)) (db_actors d))
              (db_reminders d) (db_clock d) (db_next_id d))
  | SqlDeleteReminder table actorType actorID name =>
      if negb (is_table d table pgTableReminders) then undefined_table d
      else
        let hit r := String.eqb (rem_actor_type r) actorType
                     && String.eqb (rem_actor_id r) actorID
                     && String.eqb (rem_name r) name in
        (inr (Tag (len (List.filter hit (db_reminders d)))),
         mkDB (db_prefix d) (db_hosts d) (db_hosts_actor_types d) (db_actors d)
              (List.filter (fun r => negb (hit r)) (db_reminders d))
              (db_clock d) (db_next_id d))
  end.

(** ** The world outside the store

    [committed] is what every connection sees. An open transaction is the
    list of statements it has run so far: the transaction sees the committed
    state with its own statements applied, [Commit] applies them for
    everybody and [Rollback] forgets them. A statement sent on the pool
    itself runs on another connection and is committed at once.

    [faults] scripts the failures of the round trips to the server, one entry
    per round trip ([Some e]: the call fails with [e] and has no effect; an
    exhausted script means no failure). [ctxdone] scripts the caller's
    context at each backoff wait ([Some e]: the context is done first and
    [ctx.Err()] is [e]). [trace] records what the store did, oldest first. *)

(** A connected [*pgxpool.Pool]; the server behind it is the [World]. *)
Inductive pgxpool_Pool : Type := ConnectedPool.

Inductive conn : Type :=
| Pool   (* p.db, a *pgxpool.Pool *)
| Tx.    (* the pgx.Tx of the open transaction *)

Inductive event : Type :=
| EvBegin (err : option error)
| EvCommit (err : option error)
| EvRollback (err : option error)
| EvPing (err : option error)
| EvConnect (err : option error)              (* pgxpool.NewWithConfig *)
| EvMigrate (metadataTable hostsTable hostsActorTypesTable actorsTable : string)
            (err : option error)              (* the migration runner *)
| EvStmt (c : conn) (s : stmt) (err : option error)
| EvBackoff (d : Z) (ctxErr : option error)   (* select on time.After(d) and ctx.Done() *)
| EvLog (msg : string) (err : error).         (* log.Errorf *)

Record World : Type := mkWorld {
  committed : DB;
  txlog : option (list stmt);
  faults : list (option error);
  ctxdone : list (option error);
  trace : list event
}.

Definition M (A : Type) : Type := World -> A * World.

Definition ret {A} (a : A) : M A := fun w => (a, w).

Definition bind {A B} (m : M A) (k : A -> M B) : M B :=
  fun w => let '(a, w') := m w in k a w'.

Notation "'let*' x ':=' m 'in' k" := (bind m (fun x => k))
  (at level 10, x name, m at level 100, k at level 200).
Notation "'let*' ( x , y ) ':=' m 'in' k" := (bind m (fun '(x, y) => k))
  (at level 10, x name, y name, m at level 100, k at level 200).

Definition emit (ev : event) : M unit :=
  fun w => (tt, mkWorld (committed w) (txlog w) (faults w) (ctxdone w) (trace w ++ [ev])%list).

(** The next entry of the failure script. *)
Definition next_fault : M (option error) :=
  fun w =>
    match faults w with
    | [] => (None, w)
    | f :: rest => (f, mkWorld (committed w) (txlog w) rest (ctxdone w) (trace w))
    end.

Definition next_ctxdone : M (option error) :=
  fun w =>
    match ctxdone w with
    | [] => (None, w)
    | c :: rest => (c, mkWorld (committed w) (txlog w) (faults w) rest (trace w))
    end.

Definition get_txlog : M (option (list stmt)) := fun w => (txlog w, w).

Definition put_txlog (t : option (list stmt)) : M unit :=
  fun w => (tt, mkWorld (committed w) t (faults w) (ctxdone w) (trace w)).

Definition get_committed : M DB := fun w => (committed w, w).

Definition put_committed (d : DB) : M unit :=
  fun w => (tt, mkWorld d (txlog w) (faults w) (ctxdone w) (trace w)).

Definition replay (log : list stmt) (d : DB) : DB :=
  fold_left (fun d s => snd (sem s d)) log d.

(** The state a connection reads. *)
Definition view (c : conn) (w : World) : option DB :=
  match c with
  | Pool => Some (committed w)
  | Tx => option_map (fun log => replay log (committed w)) (txlog w)
  end.

(** Runs a statement on a connection, without the trace. *)
Definition run_stmt (c : conn) (s : stmt) : M (error + reply) :=
  fun w =>
    match c, txlog w with
    | Pool, _ =>
        let '(r, d) := sem s (committed w) in
        (r, mkWorld d (txlog w) (faults w) (ctxdone w) (trace w))
    | Tx, None => (inl ErrTxClosed, w)
    | Tx, Some log =>
        match fst (sem s (replay log (committed w))) with
        | inl e => (inl e, w)
        | inr r =>
            (inr r, mkWorld (committed w) (Some (log ++ [s])%list) (faults w) (ctxdone w) (trace w))
        end
    end.

Definition reply_err (r : error + reply) : option error :=
  match r with
  | inl e => Some e
  | inr _ => None
  end.

(** One round trip carrying a statement: the failure script decides whether
    the statement reaches the server. *)
Definition send (c : conn) (s : stmt) : M (error + reply) :=
  let* f := next_fault in
  match f with
  | Some e => ret (inl e)
  | None => run_stmt c s
  end.

(** The event of a call records the error the call hands to the store. *)
Definition traced {T : Type} (c : conn) (s : stmt) (res : T * option error)
  : M (T * option error) :=
  let* _ := emit (EvStmt c s (snd res)) in
  ret res.

(** [db.Exec(ctx, sql, args...)]: the rows affected and the error. *)
Definition Exec (c : conn) (s : stmt) : M (Z * option error) :=
  let* r := send c s in
  traced c s
    match r with
    | inl e => (0, Some e)
    | inr (Tag n) => (n, None)
    | inr _ => (0, None)
    end.

(** [tx.CopyFrom(ctx, table, columns, rows)]: the rows copied and the error. *)
Definition CopyFrom (c : conn) (table : string) (rows : list HostActorTypeRow)
  : M (Z * option error) :=
  Exec c (SqlCopyHostActorTypes table rows).

(** [QueryRow(...).Scan(&hostID)]: a query that selects nothing makes [Scan]
    fail with [pgx.ErrNoRows]. *)
Definition QueryRow_Scan_hostID (c : conn) (s : stmt) : M (string * option error) :=
  let* r := send c s in
  traced c s
    match r with
    | inl e => ("", Some e)
    | inr (RowHostID id) => (id, None)
    | inr _ => ("", Some ErrNoRows)
    end.

(** [QueryRow(...).Scan(&res.AppID, &res.Address, &res.IdleTimeout)]: on an
    error the destination [res] keeps its value. *)
Definition QueryRow_Scan_lookup (c : conn) (s : stmt) (res : LookupActorResponse)
  : M (LookupActorResponse * option error) :=
  let* r := send c s in
  traced c s
    match r with
    | inl e => (res, Some e)
    | inr (RowLookup row) => (row, None)
    | inr _ => (res, Some ErrNoRows)
    end.

(** [db.Begin(ctx)] *)
Definition Begin : M (option error) :=
  let* f := next_fault in
  let* _ := match f with
            | Some _ => ret tt
            | None => put_txlog (Some [])
            end in
  let* _ := emit (EvBegin f) in
  ret f.

(** [tx.Commit(ctx)]: the transaction is closed afterwards, also when the
    commit failed. *)
Definition Commit : M (option error) :=
  let* f := next_fault in
  let* t := get_txlog in
  let* d := get_committed in
  let* _ := put_txlog None in
  let* err := match t, f with
              | None, _ => ret (Some ErrTxClosed)
              | Some _, Some e => ret (Some e)
              | Some log, None => let* _ := put_committed (replay log d) in ret None
              end in
  let* _ := emit (EvCommit err) in
  ret err.

(** [tx.Rollback(ctx)] *)
Definition Rollback : M (option error) :=
  let* f := next_fault in
  let* t := get_txlog in
  let* _ := put_txlog None in
  let err := match t with
             | None => Some ErrTxClosed
             | Some _ => f
             end in
  let* _ := emit (EvRollback err) in
  ret err.

(** [p.db.Ping(ctx)] *)
Definition PoolPing : M (option error) :=
  let* f := next_fault in
  let* _ := emit (EvPing f) in
  ret f.

(** [pgxpool.NewWithConfig(ctx, config)]: the pool, or nil and an error. *)
Definition NewWithConfig : M (option pgxpool_Pool * option error) :=
  let* f := next_fault in
  let* _ := emit (EvConnect f) in
  match f with
  | Some e => ret (None, Some e)
  | None => ret (Some ConnectedPool, None)
  end.

(** [pgmigrations.Migrations.Perform]: the migration runner belongs to
    another package; it is one more exchange with the server that may fail.
    The [DB] of the model already holds the tables of its prefix. *)
Definition Migrations_Perform (metadataTable hostsTable hostsActorTypesTable actorsTable : string)
  : M (option error) :=
  let* f := next_fault in
  let* _ := emit (EvMigrate metadataTable hostsTable hostsActorTypesTable actorsTable f) in
  ret f.

(** [select { case <-time.After(d): case <-ctx.Done(): return ctx.Err() }] *)
Definition backoff (d : Z) : M (option error) :=
  let* c := next_ctxdone in
  let* _ := emit (EvBackoff d c) in
  ret c.

(** [log.Errorf(msg, err)] *)
Definition log_Errorf (msg : string) (err : error) : M unit :=
  emit (EvLog msg err).

(** [log.Error(err)] *)
Definition log_Error (err : error) : M unit :=
  emit (EvLog "" err).

(** ** The store ([PostgreSQL])

    Every [context.WithTimeout] of the source bounds one round trip; a
    deadline that expires, like any other failure of the round trip, is an
    entry of the failure script, so the [ctx] and [timeout] arguments do not
    appear. The operations on hosts, actors and reminders are those of a
    store whose pool is connected ([p.db] set by [Init]): the pool is the
    [World]. [Ping] and [Close], which [Init] and its callers reach in every
    state of the store, test the flag and the pool as the source does. *)

(** [actorstore.ActorHostType] *)
Record ActorHostType : Type := mkActorHostType {
  ActorType : string;
  IdleTimeout : Z
}.

(** [actorstore.AddActorHostRequest] *)
Record AddActorHostRequest : Type := mkAddActorHostRequest {
  add_AppID : string;
  add_Address : string;
  add_ApiLevel : Z;
  add_ActorTypes : list ActorHostType
}.

(** [actorstore.UpdateActorHostRequest]: [LastHealthCheck] is a pointer and
    [ActorTypes] a slice that may be nil. *)
Record UpdateActorHostRequest : Type := mkUpdateActorHostRequest {
  upd_LastHealthCheck : option Z;
  upd_ActorTypes : option (list ActorHostType)
}.

(** [actorstore.ActorRef] *)
Record ActorRef : Type := mkActorRef {
  ref_ActorType : string;
  ref_ActorID : string
}.

(** [actorstore.ReminderRef] *)
Record ReminderRef : Type := mkReminderRef {
  rref_ActorType : string;
  rref_ActorID : string;
  rref_Name : string
}.

(** What a call does when it comes back at all. *)
Inductive outcome (A : Type) : Type :=
| Returns (a : A)
| Panics (reason : string).
Arguments Returns {A}.
Arguments Panics {A}.

Section Store.

Context {PostgresAuthMetadata : Type}.

Record PostgreSQL : Type := mkPostgreSQL {
  metadata : pgMetadata PostgresAuthMetadata;
  db : option pgxpool_Pool;
  running : bool           (* atomic.Bool *)
}.

(** [executeInTransaction]: [zero] is the zero value of [T], the deferred
    function is the rollback that runs on every exit but the successful
    one. *)
Definition rollback_deferred : M unit :=
  let* rollbackErr := Rollback in
  match rollbackErr with
  | Some e =>
      (* Log errors only *)
      log_Errorf "Error while attempting to roll back transaction" e
  | None => ret tt
  end.

Definition executeInTransaction {T : Type} (zero : T) (fn : M (T * option error))
  : M (T * option error) :=
  (* Start the transaction *)
  let* err := Begin in
  match err with
  | Some e => ret (zero, Some (Errorf "failed to begin transaction" e))
  | None =>
      (* Execute the callback *)
      let* (res, err) := fn in
      match err with
      | Some e =>
          let* _ := rollback_deferred in
          ret (res, Some e)
      | None =>
          (* Commit the transaction *)
          let* err := Commit in
          match err with
          | Some e =>
              let* _ := rollback_deferred in
              ret (res, Some (Errorf "failed to commit transaction" e))
          | None => ret (res, None)
          end
      end
  end.

(** Inserts the list of supported actor types for a host. *)
Definition insertHostActorTypes (tx : conn) (actorHostID : string)
    (actorTypes : list ActorHostType) (hostsActorTypesTable : string) : M (option error) :=
  if len actorTypes =? 0 then
    (* Nothing to do here *)
    ret None
  else
    let rows := map (fun t => mkHostActorTypeRow actorHostID (ActorType t) (IdleTimeout t))
                    actorTypes in
    let* (n, err) := CopyFrom tx hostsActorTypesTable rows in
    match err with
    | Some e =>
        ret (Some (Errorf "failed to insert supported actor types in hosts actor types table" e))
    | None =>
        if negb (n =? len actorTypes)
        then ret (Some (ErrorsNew "failed to insert supported actor types in hosts actor types table: inserted rows differ from expected"))
        else ret None
    end.

Definition AddActorHost (p : PostgreSQL) (properties : AddActorHostRequest)
  : M (string * option error) :=
  if String.eqb (add_AppID properties) "" || String.eqb (add_Address properties) ""
     || (add_ApiLevel properties <=? 0)
  then ret ("", Some ErrInvalidRequestMissingParameters)
  else
    (* Because we need to update 2 tables, we need a transaction *)
    executeInTransaction ""
      (let hostsTable := TableName (metadata p) pgTableHosts in
       let hostsActorTypesTable := TableName (metadata p) pgTableHostsActorTypes in
       (* First, add the actor host *)
       let* (hostID, err) :=
         QueryRow_Scan_hostID Tx
           (SqlInsertHost hostsTable (add_Address properties) (add_AppID properties)
                          (add_ApiLevel properties)) in
       match err with
       | Some e =>
           if isUniqueViolationError (Some e)
           then ret ("", Some ErrActorHostConflict)
           else ret ("", Some (Errorf "failed to insert actor host in hosts table" e))
       | None =>
           (* Register each supported actor type *)
           let* err := insertHostActorTypes Tx hostID (add_ActorTypes properties)
                                            hostsActorTypesTable in
           match err with
           | Some e => ret ("", Some e)
           | None => ret (hostID, None)
           end
       end).

(** Updates the hosts table with the given properties; [db] is the
    [pginterfaces.DBQuerier] the statement is sent on. *)
Definition updateHostsTable (db : conn) (actorHostID : string)
    (properties : UpdateActorHostRequest) (hostsTable : string) : M (option error) :=
  match upd_LastHealthCheck properties with
  | None => ret None
  | Some lastHealthCheck =>
      let* (rowsAffected, err) :=
        Exec db (SqlUpdateHostHealthcheck hostsTable actorHostID lastHealthCheck) in
      match err with
      | Some e => ret (Some (Errorf "failed to update actor host" e))
      | None =>
          if rowsAffected =? 0 then ret (Some ErrActorHostNotFound) else ret None
      end
  end.

Definition UpdateActorHost (p : PostgreSQL) (actorHostID : string)
    (properties : UpdateActorHostRequest) : M (option error) :=
  (* We need at least _something_ to update *)
  if String.eqb actorHostID ""
     || (negb (is_Some_b (upd_LastHealthCheck properties))
         && negb (is_Some_b (upd_ActorTypes properties)))
  then ret (Some ErrInvalidRequestMissingParameters)
  else
    let hostsTable := TableName (metadata p) pgTableHosts in
    let hostsActorTypesTable := TableName (metadata p) pgTableHostsActorTypes in
    let* err :=
      match upd_ActorTypes properties with
      | None =>
          updateHostsTable Pool actorHostID properties hostsTable
      | Some actorTypes =>
          (* Because we need to update 2 tables, we need a transaction *)
          let* (_, err) :=
            executeInTransaction tt
              ((* Update all hosts properties, besides the list of supported actor types *)
               let* zErr := updateHostsTable Tx actorHostID properties hostsTable in
               match zErr with
               | Some e => ret (tt, Some e)
               | None =>
                   (* Next, delete all existing actor; the source sends this
                      statement with p.db.Exec *)
                   let* (_, zErr) :=
                     Exec Pool (SqlDeleteHostActorTypes hostsActorTypesTable actorHostID) in
                   match zErr with
                   | Some e => ret (tt, Some (Errorf "failed to delete old host actor types" e))
                   | None =>
                       (* Register the new supported actor types (if any) *)
                       let* zErr := insertHostActorTypes Tx actorHostID actorTypes
                                                         hostsActorTypesTable in
                       match zErr with
                       | Some e => ret (tt, Some e)
                       | None => ret (tt, None)
                       end
                   end
               end) in
          ret err
      end in
    match err with
    | Some e => ret (Some e)
    | None => ret None
    end.

Definition RemoveActorHost (p : PostgreSQL) (actorHostID : string) : M (option error) :=
  if String.eqb actorHostID "" then ret (Some ErrInvalidRequestMissingParameters)
  else
    let q := SqlDeleteHost (TableName (metadata p) pgTableHosts) actorHostID in
    let* (rowsAffected, err) := Exec Pool q in
    match err with
    | Some e => ret (Some (Errorf "failed to remove actor host" e))
    | None =>
        if rowsAffected =? 0 then ret (Some ErrActorHostNotFound) else ret None
    end.

(** The body of [for i := 0; i < 3; i++], by the number of iterations that
    remain; leaving the loop at its condition reaches [return res, nil]. *)
Fixpoint LookupActor_loop (remaining : nat) (q : stmt) (res : LookupActorResponse)
  : M (LookupActorResponse * option error) :=
  match remaining with
  | O => ret (res, None)
  | S remaining' =>
      let* (res, err) := QueryRow_Scan_lookup Pool q res in
      match err with
      | None => (* break *) ret (res, None)
      | Some e =>
          (* If we got no rows, it means that we don't have a host that
             supports actors of the given type *)
          if errors_Is_ErrNoRows e then ret (res, Some ErrNoActorHost)
          (* Retry if the error is the violation of a unique constraint *)
          else if isUniqueViolationError (Some e) then
            let* done := backoff (50 * Millisecond) in
            match done with
            | Some ctxErr => ret (res, Some ctxErr)
            | None => (* continue *) LookupActor_loop remaining' q res
            end
          (* Return in case of other errors *)
          else ret (res, Some (Errorf "database error" e))
      end
  end.

Definition LookupActor (p : PostgreSQL) (ref : ActorRef)
  : M (LookupActorResponse * option error) :=
  let res := zeroLookupActorResponse in
  if String.eqb (ref_ActorType ref) "" || String.eqb (ref_ActorID ref) ""
  then ret (res, Some ErrInvalidRequestMissingParameters)
  else
    let hostsTable := TableName (metadata p) pgTableHosts in
    let hostsActorTypesTable := TableName (metadata p) pgTableHostsActorTypes in
    let actorsTable := TableName (metadata p) pgTableActors in
    LookupActor_loop 3
      (SqlLookupActor hostsTable hostsActorTypesTable actorsTable
                      (ref_ActorType ref) (ref_ActorID ref))
      res.

Definition RemoveActor (p : PostgreSQL) (ref : ActorRef) : M (option error) :=
  if String.eqb (ref_ActorType ref) "" || String.eqb (ref_ActorID ref) ""
  then ret (Some ErrInvalidRequestMissingParameters)
  else
    let q := SqlDeleteActor (TableName (metadata p) pgTableActors)
                            (ref_ActorType ref) (ref_ActorID ref) in
    let* (rowsAffected, err) := Exec Pool q in
    match err with
    | Some e => ret (Some (Errorf "failed to remove actor" e))
    | None =>
        if rowsAffected =? 0 then ret (Some ErrActorNotFound) else ret None
    end.

(** Modelled from the spec: [DeleteReminder], whose source is in another
    file of the package. It deletes the reminder row of the given actor
    type, actor id and name, and fails with [ErrReminderNotFound] if the
    reminder is absent, that is if the delete affected no row; a reference
    with a missing field is an invalid request, as for the operations on
    actors. *)
Definition DeleteReminder (p : PostgreSQL) (ref : ReminderRef) : M (option error) :=
  if String.eqb (rref_ActorType ref) "" || String.eqb (rref_ActorID ref) ""
     || String.eqb (rref_Name ref) ""
  then ret (Some ErrInvalidRequestMissingParameters)
  else
    let q := SqlDeleteReminder (TableName (metadata p) pgTableReminders)
                               (rref_ActorType ref) (rref_ActorID ref) (rref_Name ref) in
    let* (rowsAffected, err) := Exec Pool q in
    match err with
    | Some e => ret (Some (Errorf "failed to remove reminder" e))
    | None =>
        if rowsAffected =? 0 then ret (Some ErrReminderNotFound) else ret None
    end.

(** [p.running.CompareAndSwap(old, new)]: one atomic step on the flag. *)
Definition CompareAndSwap (old new : bool) (p : PostgreSQL) : bool * PostgreSQL :=
  if Bool.eqb (running p) old
  then (true, mkPostgreSQL (metadata p) (db p) new)
  else (false, p).

(** [Ping]: calling a method of a nil pool is a nil pointer dereference. *)
Definition Ping (p : PostgreSQL) : M (outcome (option error)) :=
  if negb (running p) then ret (Returns (Some (ErrorsNew "not running")))
  else
    match db p with
    | None => ret (Panics "nil pointer dereference")
    | Some _ =>
        let* err := PoolPing in
        ret (Returns err)
    end.

Definition performMigrations (p : PostgreSQL) : M (option error) :=
  let hostsTable := TableName (metadata p) pgTableHosts in
  let hostsActorTypesTable := TableName (metadata p) pgTableHostsActorTypes in
  let actorsTable := TableName (metadata p) pgTableActors in
  Migrations_Perform (MetadataTableName (metadata p))
                     hostsTable hostsActorTypesTable actorsTable.

(** [Close]: the named result [err] starts as nil. The call in the body is
    to [p.Close] itself, so the definition recurses on [fuel]; [None] means
    that the call has not returned within [fuel] nested calls. *)
Fixpoint Close (fuel : nat) (p : PostgreSQL) : option (option error) :=
  match fuel with
  | O => None
  | S fuel' =>
      if negb (running p) then Some None
      else
        match db p with
        | Some _ =>
            match Close fuel' p with
            | Some err => Some err
            | None => None
            end
        | None => Some None
        end
  end.

Section Lifecycle.

(** Collaborators of other packages. *)
Variable auth_Reset : PostgresAuthMetadata -> PostgresAuthMetadata.
Variable auth_InitWithMetadata :
  gmap string string -> PostgresAuthMetadata -> option error * PostgresAuthMetadata.
Variable parseDuration : string -> option Z.
Variable lookupKey : gmap string string -> string -> option string.
(** [p.metadata.GetPgxPoolConfig()]: only its error matters here. *)
Variable GetPgxPoolConfig : pgMetadata PostgresAuthMetadata -> option error.

(** [Init]: the receiver is updated in place, so the function returns
    its new value with the result; [md] is [md.Properties]. *)
Definition Init (md : gmap string string) (p : PostgreSQL)
  : M (outcome (option error) * PostgreSQL) :=
  let '(swapped, p) := CompareAndSwap false true p in
  if negb swapped then ret (Returns (Some (ErrorsNew "already running")), p)
  else
    (* Parse metadata *)
    let '(err, m) :=
      InitWithMetadata auth_Reset auth_InitWithMetadata parseDuration lookupKey md (metadata p) in
    let p := mkPostgreSQL m (db p) (running p) in
    match err with
    | Some e =>
        let* _ := log_Errorf "Failed to parse metadata" e in
        ret (Returns (Some e), p)
    | None =>
        (* Connect to the database *)
        match GetPgxPoolConfig (metadata p) with
        | Some e =>
            let* _ := log_Error e in
            ret (Returns (Some e), p)
        | None =>
            let* (pool, err) := NewWithConfig in
            let p := mkPostgreSQL (metadata p) pool (running p) in
            match err with
            | Some e =>
                let err := Errorf "failed to connect to the database" e in
                let* _ := log_Error err in
                ret (Returns (Some err), p)
            | None =>
                let* pinged := Ping p in
                match pinged with
                | Panics reason => ret (Panics reason, p)
                | Returns (Some e) =>
                    let err := Errorf "failed to ping the database" e in
                    let* _ := log_Error err in
                    ret (Returns (Some err), p)
                | Returns None =>
                    (* Migrate schema *)
                    let* err := performMigrations p in
                    match err with
                    | Some e =>
                        let* _ := log_Error e in
                        ret (Returns (Some e), p)
                    | None => ret (Returns None, p)
                    end
                end
            end
        end
    end.

End Lifecycle.

End Store.

Arguments PostgreSQL : clear implicits.

(** ** Concrete collaborators and inputs used by the examples *)

(** A decoder of durations that knows a few spellings. *)
Definition parseDuration_example (v : string) : option Z :=
  if String.eqb v "20s" then Some (20 * Second)
  else if String.eqb v "1s" then Some (1 * Second)
  else if String.eqb v "999ms" then Some (999 * Millisecond)
  else if String.eqb v "0" then Some 0
  else None.

(** The lower-case form of an ASCII letter. *)
Definition toLower (c : Ascii.ascii) : Ascii.ascii :=
  let n := Ascii.nat_of_ascii c in
  if ((65 <=? n) && (n <=? 90))%nat then Ascii.ascii_of_nat (n + 32) else c.

(** Equality of two keys up to the case of their ASCII letters. *)
Fixpoint EqualFold (s t : string) : bool :=
  match s, t with
  | EmptyString, EmptyString => true
  | String a s', String b t' => Ascii.eqb (toLower a) (toLower b) && EqualFold s' t'
  | _, _ => false
  end.

(** A lookup that does not depend on the case of the keys: the key spelled
    exactly like the field if there is one, else a key equal to it up to
    case. *)
Definition lookupKey_example (props : gmap string string) (field : string)
  : option string :=
  match props !! field with
  | Some v => Some v
  | None =>
      option_map snd (List.find (fun kv => EqualFold (fst kv) field) (map_to_list props))
  end.

(** An authentication parser that accepts everything. *)
Definition auth_accept (props : gmap string string) (a : unit) : option error * unit :=
  (None, a).

Definition InitWithMetadata_example : gmap string string -> pgMetadata unit ->
                                      option error * pgMetadata unit :=
  InitWithMetadata (fun a => a) auth_accept parseDuration_example lookupKey_example.

Definition metadata_zero : pgMetadata unit := mkMetadata tt "" "" 0.

Definition store_example : PostgreSQL unit :=
  mkPostgreSQL (mkMetadata tt "" "dapr_metadata" (20 * Second)) (Some ConnectedPool) true.

Definition store_new : PostgreSQL unit :=
  mkPostgreSQL metadata_zero None false.

(** Host [host-0] (application [a1] at [addr1]) declares the actor type
    [cat]; one reminder is stored. *)
Definition db_example : DB :=
  mkDB ""
       [mkHostRow "host-0" "addr1" "a1" 1 100]
       [mkHostActorTypeRow "host-0" "cat" 30]
       []
       [mkReminderRow "cat" "id1" "wake" 500]
       100 1.

Definition world_of (d : DB) (faults : list (option error)) (ctxdone : list (option error))
  : World :=
  mkWorld d None faults ctxdone [].

Definition unique_violation : error := PgError UniqueViolation.

(** ** The retry policy of the lookup, in the words of the specification

    [retry_policy q n evs err]: with [n] attempts allowed, the lookup leaves
    the events [evs] and returns the error [err]. Every attempt sends the
    query [q] on the pool. A successful attempt ends the lookup; an empty
    result ends it with [ErrNoActorHost]; any other failure that is not a
    uniqueness violation ends it with that failure, wrapped; a uniqueness
    violation is followed by a wait of 50ms, which ends the lookup with the
    context's error if the context is done first and is followed by the next
    attempt otherwise. The specification does not say what the lookup returns
    when its last allowed attempt has failed with a uniqueness violation and
    the wait that follows has passed: the loop of the code is then left at
    its condition and the error returned is nil ([rp_exhausted]). *)
Inductive retry_policy (q : stmt) : nat -> list event -> option error -> Prop :=
| rp_found (n : nat) :
    retry_policy q (S n) [EvStmt Pool q None] None
| rp_no_host (n : nat) (e : error) :
    errors_Is_ErrNoRows e = true ->
    retry_policy q (S n) [EvStmt Pool q (Some e)] (Some ErrNoActorHost)
| rp_other_error (n : nat) (e : error) :
    errors_Is_ErrNoRows e = false ->
    isUniqueViolationError (Some e) = false ->
    retry_policy q (S n) [EvStmt Pool q (Some e)] (Some (Errorf "database error" e))
| rp_cancelled (n : nat) (e ctxErr : error) :
    isUniqueViolationError (Some e) = true ->
    retry_policy q (S n)
                 [EvStmt Pool q (Some e); EvBackoff (50 * Millisecond) (Some ctxErr)]
                 (Some ctxErr)
| rp_retry (n : nat) (e : error) (evs : list event) (err : option error) :
    isUniqueViolationError (Some e) = true ->
    retry_policy q (S n) evs err ->
    retry_policy q (S (S n))
                 (EvStmt Pool q (Some e) :: EvBackoff (50 * Millisecond) None :: evs) err
| rp_exhausted (e : error) :
    isUniqueViolationError (Some e) = true ->
    retry_policy q 1 [EvStmt Pool q (Some e); EvBackoff (50 * Millisecond) None] None.

Definition is_attempt (ev : event) : bool :=
  match ev with
  | EvStmt _ (SqlLookupActor _ _ _ _ _) _ => true
  | _ => false
  end.

Definition attempts (evs : list event) : nat :=
  length (List.filter is_attempt evs).




(** Whether an event is a statement that names the actor-types table. *)
Definition touches_actor_types (ev : event) : bool :=
  match ev with
  | EvStmt _ (SqlDeleteHostActorTypes _ _) _ => true
  | EvStmt _ (SqlCopyHostActorTypes _ _) _ => true
  | EvStmt _ (SqlLookupActor _ _ _ _ _) _ => true
  | _ => false
  end.

(** The events recorded between two worlds all satisfy [ok]. *)
Definition trace_grows (ok : event -> bool) (w w' : World) : Prop :=
  exists evs, trace w' = (trace w ++ evs)%list /\ forallb ok evs = true.




Definition rows_of_host (hostID : string) (rows : list HostActorTypeRow)
  : list HostActorTypeRow :=
  List.filter (fun r => String.eqb (hat_host_id r) hostID) rows.

Definition rows_of_other_hosts (hostID : string) (rows : list HostActorTypeRow)
  : list HostActorTypeRow :=
  List.filter (fun r => negb (String.eqb (hat_host_id r) hostID)) rows.

(** ** The lifetime of a store: a sequence of lifecycle calls *)

Inductive call : Type :=
| CallInit (md : gmap string string)
| CallPing
| CallClose (fuel : nat).

Section Lifetime.

Context {PostgresAuthMetadata : Type}.
Variable auth_Reset : PostgresAuthMetadata -> PostgresAuthMetadata.
Variable auth_InitWithMetadata :
  gmap string string -> PostgresAuthMetadata -> option error * PostgresAuthMetadata.
Variable parseDuration : string -> option Z.
Variable lookupKey : gmap string string -> string -> option string.
Variable GetPgxPoolConfig : pgMetadata PostgresAuthMetadata -> option error.

(** Whether [Init], called on [p], gets past its guard. *)
Definition passes_guard (p : PostgreSQL PostgresAuthMetadata) : bool :=
  fst (CompareAndSwap false true p).

(** The number of [Init] calls of the sequence that get past the guard. *)
Fixpoint inits_past_guard (calls : list call) (p : PostgreSQL PostgresAuthMetadata)
    (w : World) : nat :=
  match calls with
  | [] => O
  | CallInit md :: rest =>
      let r := Init auth_Reset auth_InitWithMetadata parseDuration lookupKey GetPgxPoolConfig md p w in
      ((if passes_guard p then 1 else 0) + inits_past_guard rest (snd (fst r)) (snd r))%nat
  | CallPing :: rest => inits_past_guard rest p (snd (Ping p w))
  | CallClose _ :: rest => inits_past_guard rest p w
  end.

End Lifetime.

Definition Init_example : gmap string string -> PostgreSQL unit ->
                          M (outcome (option error) * PostgreSQL unit) :=
  Init (fun a => a) auth_accept parseDuration_example lookupKey_example (fun _ => None).

(** ** Reminders: the fetch-and-lease step *)

Record Lease : Type := mkLease {
  lease_id : string;
  lease_time : Z;
  lease_pid : string
}.

Record Reminder : Type := mkReminder {
  reminder_id : string;
  reminder_actor_type : string;
  reminder_actor_id : string;
  reminder_name : string;
  reminder_execution_time : Z;
  reminder_lease : option Lease
}.

(** One call of a fetcher: who calls, the fresh lease id it brings, how many
    reminders it takes at most, after how long it holds a lease to be stale,
    and the hosts and actor types it is restricted to. *)
Record FetchCall : Type := mkFetchCall {
  call_pid : string;
  call_lease_id : string;
  call_limit : nat;
  call_stale_after : Z;
  call_scope : Reminder -> bool
}.

Definition lease_is_stale (now staleAfter : Z) (l : Lease) : bool :=
  lease_time l + staleAfter <? now.

Definition eligible (now : Z) (c : FetchCall) (r : Reminder) : bool :=
  (reminder_execution_time r <=? now)
  && call_scope c r
  && match reminder_lease r with
     | None => true
     | Some l => lease_is_stale now (call_stale_after c) l
     end.

Definition lease_of (now : Z) (c : FetchCall) : Lease :=
  mkLease (call_lease_id c) now (call_pid c).

Definition with_lease (r : Reminder) (l : Lease) : Reminder :=
  mkReminder (reminder_id r) (reminder_actor_type r) (reminder_actor_id r)
             (reminder_name r) (reminder_execution_time r) (Some l).

(** Modelled from the spec: the fetch-and-lease operation, a stored routine
    of the database whose source is in another file of the package. As one
    indivisible step on the reminders table, at server time [now], it selects
    at most [budget] reminders that are due (execution time at most [now]),
    in the scope of the call and not leased, or leased for longer than the
    staleness threshold, marks them leased (the fresh lease id, [now], the
    caller's process id) and returns their ids. *)
Fixpoint fetch_and_lease_rows (now : Z) (c : FetchCall) (budget : nat)
    (table : list Reminder) : list string * list Reminder :=
  match table with
  | [] => ([], [])
  | r :: rest =>
      match budget with
      | O => ([], table)
      | S budget' =>
          if eligible now c r then
            let '(ids, rest') := fetch_and_lease_rows now c budget' rest in
            (reminder_id r :: ids, with_lease r (lease_of now c) :: rest')
          else
            let '(ids, rest') := fetch_and_lease_rows now c budget rest in
            (ids, r :: rest')
      end
  end.

Definition fetch_and_lease (now : Z) (c : FetchCall) (table : list Reminder)
  : list string * list Reminder :=
  fetch_and_lease_rows now c (call_limit c) table.

(** The lease a reminder id carries in a table. *)
Definition lease_in (table : list Reminder) (id : string) : option Lease :=
  match List.find (fun r => String.eqb (reminder_id r) id) table with
  | Some r => reminder_lease r
  | None => None
  end.

(** Two fetchers whose steps the server runs one after the other, the step
    of [c1] at time [now1] and then the step of [c2] at time [now2]: the ids
    each receives and the table after each step. *)
Definition two_fetchers (now1 now2 : Z) (c1 c2 : FetchCall) (table : list Reminder)
  : (list string * list Reminder) * (list string * list Reminder) :=
  let step1 := fetch_and_lease now1 c1 table in
  let step2 := fetch_and_lease now2 c2 (snd step1) in
  (step1, step2).

(** ** Shapes of events *)

(** Whether an event belongs to a transaction: its begin, its end, or a
    statement sent on it. *)
Definition is_tx_event (ev : event) : bool :=
  match ev with
  | EvBegin _ | EvCommit _ | EvRollback _ => true
  | EvStmt Tx _ _ => true
  | _ => false
  end.

Definition no_tx (ev : event) : bool := negb (is_tx_event ev).

(** Whether an event is a statement sent on the pool, outside a
    transaction. *)
Definition is_pool_stmt (ev : event) : bool :=
  match ev with
  | EvStmt Pool _ _ => true
  | _ => false
  end.

Definition no_pool_stmt (ev : event) : bool := negb (is_pool_stmt ev).

(** The time an event spends waiting. *)
Definition backoff_time (ev : event) : Z :=
  match ev with
  | EvBackoff d _ => d
  | _ => 0
  end.

Definition total_backoff (evs : list event) : Z :=
  fold_right (fun ev acc => backoff_time ev + acc) 0 evs.

(** The statements of a successful [AddActorHost] that got the id [hostID]
    for its host, in the order they are sent. *)
Definition AddActorHost_statements {A} (p : PostgreSQL A) (properties : AddActorHostRequest)
    (hostID : string) : list stmt :=
  SqlInsertHost (TableName (metadata p) pgTableHosts)
                (add_Address properties) (add_AppID properties) (add_ApiLevel properties)
  :: match add_ActorTypes properties with
     | [] => []
     | _ :: _ =>
         [SqlCopyHostActorTypes
            (TableName (metadata p) pgTableHostsActorTypes)
            (map (fun t => mkHostActorTypeRow hostID (ActorType t) (IdleTimeout t))
                 (add_ActorTypes properties))]
     end.

(** ** The conformance-test helpers ([actorstore_postgres_conftests.go])

    The helpers send statements the store itself never sends; their world
    records the text of every statement with its outcome, and what is
    logged. [test_faults] scripts the failures of the round trips as
    [faults] does. *)

Inductive test_event : Type :=
| TestExec (sql : string) (err : option error)    (* p.db.Exec(ctx, sql) *)
| TestInfof (msg arg : string)                    (* p.logger.Infof(msg, arg) *)
| TestErrorf (msg arg : string) (err : error).    (* p.logger.Errorf(msg, arg, err) *)

Record TestWorld : Type := mkTestWorld {
  test_faults : list (option error);
  test_trace : list test_event
}.

Definition test_emit (ev : test_event) (w : TestWorld) : TestWorld :=
  mkTestWorld (test_faults w) (test_trace w ++ [ev])%list.

(** [p.db.Exec(context.Background(), sql)]: only the error is used. *)
Definition test_Exec (sql : string) (w : TestWorld) : option error * TestWorld :=
  match test_faults w with
  | [] => (None, test_emit (TestExec sql None) w)
  | f :: rest => (f, test_emit (TestExec sql f) (mkTestWorld rest (test_trace w)))
  end.

(** [errors.Join(errs...)] of errors that are all non-nil: nil for no error,
    otherwise one error that wraps them all, given by their list. *)
Definition errors_Join (errs : list error) : option (list error) :=
  match errs with
  | [] => None
  | _ :: _ => Some errs
  end.

(** The texts of the statements sent so far. *)
Definition test_sent (tr : list test_event) : list string :=
  flat_map (fun ev => match ev with TestExec sql _ => [sql] | _ => [] end) tr.

(** The errors among the outcomes of round trips. *)
Definition failures (outcomes : list (option error)) : list error :=
  flat_map (fun f => match f with Some e => [e] | None => [] end) outcomes.

Section Conftests.

Context {PostgresAuthMetadata : Type}.
(** [pgMetadata.FunctionName] and the constant [pgFunctionFetchReminders]
    are declared in another file of the package. *)
Variable FunctionName : pgMetadata PostgresAuthMetadata -> string -> string.
Variable pgFunctionFetchReminders : string.

(** The tables [Cleanup] ranges over, in its order. *)
Definition Cleanup_tables : list pgTable :=
  [pgTableReminders; pgTableActors; pgTableHostsActorTypes; pgTableHosts; "metadata"].

(** The body of the [for ... range] loop of [Cleanup], over the tables that
    remain, with the errors appended so far. *)
Fixpoint Cleanup_loop (p : PostgreSQL PostgresAuthMetadata) (tables : list pgTable)
    (errs : list error) (w : TestWorld) : list error * TestWorld :=
  match tables with
  | [] => (errs, w)
  | table :: rest =>
      let w := test_emit (TestInfof "Removing table %s" (TableName (metadata p) table)) w in
      let '(err, w) :=
        test_Exec ("DROP TABLE IF EXISTS " +:+ TableName (metadata p) table) w in
      match err with
      | Some e =>
          let w := test_emit (TestErrorf "Failed to remove table %s: %v" table e) w in
          Cleanup_loop p rest (errs ++ [e])%list w
      | None => Cleanup_loop p rest errs w
      end
  end.

(** [Cleanup] performs a cleanup of test resources. *)
Definition Cleanup (p : PostgreSQL PostgresAuthMetadata) (w : TestWorld)
  : option (list error) * TestWorld :=
  let errs := [] in
  (* Tables *)
  let '(errs, w) := Cleanup_loop p Cleanup_tables errs w in
  (* Functions and other resources *)
  let fn := FunctionName (metadata p) pgFunctionFetchReminders in
  let w := test_emit (TestInfof "Removing function %s" fn) w in
  let '(err, w) :=
    test_Exec ("DROP FUNCTION IF EXISTS " +:+ fn
               +:+ "(interval,interval,uuid[],text[],interval,integer);") w in
  match err with
  | Some e =>
      let w := test_emit (TestErrorf "Failed to remove function fetch_reminders: %v" "" e) w in
      (errors_Join (errs ++ [e])%list, w)
  | None => (errors_Join errs, w)
  end.

(** The texts [Cleanup] sends, in order. *)
Definition Cleanup_statements (p : PostgreSQL PostgresAuthMetadata) : list string :=
  (map (fun table => "DROP TABLE IF EXISTS " +:+ TableName (metadata p) table) Cleanup_tables
   ++ ["DROP FUNCTION IF EXISTS " +:+ FunctionName (metadata p) pgFunctionFetchReminders
       +:+ "(interval,interval,uuid[],text[],interval,integer);"])%list.

End Conftests.

(** ** The Kubernetes secrets crypto provider: key references *)

(** [strings.Split(s, sep)] for a separator of one byte: the pieces of [s]
    between the separators; the empty string gives one empty piece. *)
Fixpoint strings_Split (s : string) (sep : Ascii.ascii) : list string :=
  match s with
  | EmptyString => [""]
  | String c rest =>
      if Ascii.eqb c sep then "" :: strings_Split rest sep
      else match strings_Split rest sep with
           | [] => [String c ""]
           | piece :: pieces => String c piece :: pieces
           end
  end.

(** The byte of ["/"]. *)
Definition slash : Ascii.ascii := Ascii.ascii_of_nat 47.

(** [(k *kubeSecretsCrypto) parseKeyString]: the results are named and start
    as zero values; the source splits the result [key], not the parameter
    [param]. *)
Definition parseKeyString (defaultNamespace : string) (param : string)
  : string * string * string * option error :=
  let namespace := "" in
  let secret := "" in
  let key := "" in
  let err : option error := None in
  let parts := strings_Split key slash in
  let '(namespace, secret, key, err) :=
    match parts with
    | [p0; p1; p2] => (p0, p1, p2, err)
    | [p0; p1] => (defaultNamespace, p0, p1, err)
    | _ =>
        (namespace, secret, key,
         Some (ErrorsNew "key is not in a valid format: required namespace/secretName/key or secretName/key"))
    end in
  let err :=
    if String.eqb namespace ""
    then Some (ErrorsNew "key doesn't have a namespace and the default namespace isn't set")
    else err in
  (namespace, secret, key, err).

(** ** The SQLite name resolver: metadata ([nameresolution/sqlite/sqlite_metadata.go]) *)

(** [time.Hour], in nanoseconds. *)
Definition Hour : Z := 3600 * Second.

(** The value of an [int64] expression after wrap-around. *)
Definition wrap64 (z : Z) : Z := (z + 2 ^ 63) mod 2 ^ 64 - 2 ^ 63.

(** [d.Truncate(m)] of [time.Duration]: [d] rounded toward zero to a multiple
    of [m]; [d] itself when [m] is not positive. Go's [%] is the remainder of
    the division that truncates. *)
Definition Duration_Truncate (d m : Z) : Z :=
  if m <=? 0 then d else d - Z.rem d m.

Module Sqlite.

Section Metadata.

(** The embedded [authSqlite.SqliteAuthMetadata], with its methods and its
    field [Timeout], and [authSqlite.ValidIdentifier] belong to another
    package; so does the decoder of the configuration. *)
Variable SqliteAuthMetadata : Type.
Variable auth_Reset : SqliteAuthMetadata -> SqliteAuthMetadata.
Variable auth_Validate : SqliteAuthMetadata -> option error * SqliteAuthMetadata.
Variable auth_IsMemory : SqliteAuthMetadata -> bool.
Variable auth_Timeout : SqliteAuthMetadata -> Z.
Variable ValidIdentifier : string -> bool.
Variable Configuration : Type.

Record sqliteMetadata : Type := mkSqliteMetadata {
  Auth : SqliteAuthMetadata;
  TableName : string;
  MetadataTableName : string;
  UpdateInterval : Z;
  CleanupInterval : Z;
  appID : string;
  hostAddress : string;
  port : Z
}.

Variable DecodeMetadata : Configuration -> sqliteMetadata -> option error * sqliteMetadata.

(** [nameresolution.Metadata], through what its getters return. *)
Record Metadata : Type := mkMetadata {
  GetAppID : string;
  GetHostAddress : string;
  GetDaprPort : Z;
  meta_Configuration : Configuration
}.

Definition defaultTableName : string := "hosts".
Definition defaultMetadataTableName : string := "metadata".
Definition defaultUpdateInterval : Z := 5 * Second.
Definition defaultCleanupInternal : Z := Hour.

(** Reset the object *)
Definition reset (m : sqliteMetadata) : sqliteMetadata :=
  mkSqliteMetadata (auth_Reset (Auth m))
                   defaultTableName defaultMetadataTableName
                   defaultCleanupInternal defaultCleanupInternal
                   "" "" 0.

Definition set_instance (m : sqliteMetadata) (a h : string) (p : Z) : sqliteMetadata :=
  mkSqliteMetadata (Auth m) (TableName m) (MetadataTableName m)
                   (UpdateInterval m) (CleanupInterval m) a h p.

(** [(m *sqliteMetadata) InitWithMetadata]: the error, the new value of the
    receiver, and the warnings logged. *)
Definition InitWithMetadata (meta : Metadata) (m : sqliteMetadata)
  : option error * sqliteMetadata * list string :=
  (* Reset the object *)
  let m := reset m in
  (* Validate the instance properties *)
  let m := set_instance m (GetAppID meta) (hostAddress m) (port m) in
  if String.eqb (appID m) "" then (Some (ErrorsNew "name is missing"), m, [])
  else
    let m := set_instance m (appID m) (GetHostAddress meta) (port m) in
    if String.eqb (hostAddress m) "" then (Some (ErrorsNew "address is missing"), m, [])
    else
      let m := set_instance m (appID m) (hostAddress m) (GetDaprPort meta) in
      if port m =? 0 then (Some (ErrorsNew "port is missing or invalid"), m, [])
      else
        (* Decode the configuration using DecodeMetadata *)
        let '(err, m) := DecodeMetadata (meta_Configuration meta) m in
        match err with
        | Some e => (Some e, m, [])
        | None =>
            (* Validate and sanitize configuration *)
            let '(err, a) := auth_Validate (Auth m) in
            let m := mkSqliteMetadata a (TableName m) (MetadataTableName m)
                                      (UpdateInterval m) (CleanupInterval m)
                                      (appID m) (hostAddress m) (port m) in
            match err with
            | Some e => (Some e, m, [])
            | None =>
                if negb (ValidIdentifier (TableName m))
                then (Some (ErrorsNew ("invalid identifier for table name: "
                                       +:+ TableName m)), m, [])
                else if negb (ValidIdentifier (MetadataTableName m))
                then (Some (ErrorsNew ("invalid identifier for metadata table name: "
                                       +:+ MetadataTableName m)), m, [])
                (* For updateInterval, we do not accept units smaller than seconds *)
                else if negb (UpdateInterval m
                              =? Duration_Truncate (UpdateInterval m) Second)
                then (Some (ErrorsNew "update interval must not contain fractions of seconds"),
                      m, [])
                (* UpdateInterval must also be greater than Timeout *)
                else if wrap64 (UpdateInterval m - auth_Timeout (Auth m)) <? Second
                then (Some (ErrorsNew "update interval must be at least 1s greater than timeout"),
                      m, [])
                else
                  (* Show a warning if SQLite is configured with an in-memory DB *)
                  if auth_IsMemory (Auth m)
                  then (None, m,
                        ["Configuring name resolution with an in-memory SQLite database. Service invocation across differet apps will not work."])
                  else (None, m, [])
            end
        end.

End Metadata.

End Sqlite.

(** * Properties *)

(** ** Metadata *)

Section MetadataFacts.

Context {PostgresAuthMetadata : Type}.
Variable auth_Reset : PostgresAuthMetadata -> PostgresAuthMetadata.
Variable auth_InitWithMetadata :
  gmap string string -> PostgresAuthMetadata -> option error * PostgresAuthMetadata.
Variable parseDuration : string -> option Z.
Variable lookupKey : gmap string string -> string -> option string.

Let init := InitWithMetadata auth_Reset auth_InitWithMetadata parseDuration lookupKey.

Lemma InitWithMetadata_TablePrefix props m :
  TablePrefix (snd (init props m)) = default "" (lookupKey props "tablePrefix").
Proof.
  unfold init, InitWithMetadata, DecodeMetadata; simpl.
  destruct (lookupKey props "timeout") as [v|]; [destruct (parseDuration v)|]; simpl;
    try reflexivity;
    destruct (auth_InitWithMetadata props _) as [[e|] a]; simpl;
    try reflexivity;
    match goal with |- context [if ?b then _ else _] => destruct b end; reflexivity.
Qed.

Lemma InitWithMetadata_MetadataTableName props m :
  MetadataTableName (snd (init props m))
  = default "dapr_metadata" (lookupKey props "metadataTableName").
Proof.
  unfold init, InitWithMetadata, DecodeMetadata; simpl.
  destruct (lookupKey props "timeout") as [v|]; [destruct (parseDuration v)|]; simpl;
    try reflexivity;
    destruct (auth_InitWithMetadata props _) as [[e|] a]; simpl;
    try reflexivity;
    match goal with |- context [if ?b then _ else _] => destruct b end; reflexivity.
Qed.

Lemma InitWithMetadata_Timeout_absent props m :
  lookupKey props "timeout" = None -> Timeout (snd (init props m)) = 20 * Second.
Proof.
  intros Hk. unfold init, InitWithMetadata, DecodeMetadata; simpl. rewrite Hk; simpl.
  destruct (auth_InitWithMetadata props _) as [[e|] a]; simpl; reflexivity.
Qed.

Lemma InitWithMetadata_Timeout_present props m v d :
  lookupKey props "timeout" = Some v -> parseDuration v = Some d ->
  Timeout (snd (init props m)) = d.
Proof.
  intros Hk Hp. unfold init, InitWithMetadata, DecodeMetadata; simpl.
  rewrite Hk, Hp; simpl.
  destruct (auth_InitWithMetadata props _) as [[e|] a]; simpl; try reflexivity.
  destruct (d <? 1 * Second); reflexivity.
Qed.

Lemma InitWithMetadata_ok_Timeout props m :
  fst (init props m) = None -> 1 * Second <= Timeout (snd (init props m)).
Proof.
  unfold init, InitWithMetadata, DecodeMetadata; simpl.
  destruct (lookupKey props "timeout") as [v|]; [destruct (parseDuration v)|]; simpl;
    try discriminate;
    destruct (auth_InitWithMetadata props _) as [[e|] a]; simpl;
    try discriminate;
    match goal with |- context [if ?x <? ?y then _ else _] => destruct (Z.ltb_spec x y) end;
    simpl; try discriminate; intros _; assumption.
Qed.

Lemma InitWithMetadata_accepts props m v d :
  lookupKey props "timeout" = Some v -> parseDuration v = Some d ->
  1 * Second <= d ->
  fst (init props m) = None \/
  fst (init props m)
  = fst (auth_InitWithMetadata props
           (auth_Reset (Auth m))) /\ fst (init props m) <> None.
Proof.
  intros Hk Hp Hd. unfold init, InitWithMetadata, DecodeMetadata; simpl.
  rewrite Hk, Hp; simpl.
  destruct (auth_InitWithMetadata props _) as [[e|] a]; simpl.
  - right. split; [reflexivity | discriminate].
  - left. destruct (Z.ltb_spec d (1 * Second)); [lia | reflexivity].
Qed.

(** A lookup that only returns values stored under a matching key finds
    nothing when no key of the map matches. *)
Lemma lookupKey_absent (MatchName : string -> string -> bool) props field :
  (forall f v, lookupKey props f = Some v ->
               exists k, MatchName k f = true /\ props !! k = Some v) ->
  (forall k, MatchName k field = true -> props !! k = None) ->
  lookupKey props field = None.
Proof.
  intros Hsound Habs.
  destruct (lookupKey props field) as [v|] eqn:Hl; [|reflexivity].
  destruct (Hsound field v Hl) as (k & Hm & Hk).
  rewrite (Habs k Hm) in Hk. discriminate.
Qed.

End MetadataFacts.

Lemma toLower_eqb_refl c : Ascii.eqb (toLower c) (toLower c) = true.
Proof. apply Ascii.eqb_refl. Qed.

Lemma EqualFold_refl s : EqualFold s s = true.
Proof.
  induction s as [|c s IH]; [reflexivity|].
  cbn [EqualFold]. rewrite toLower_eqb_refl, IH. reflexivity.
Qed.

(** The example lookup only returns values stored under a key that equals
    the name of the field up to case. *)
Lemma lookupKey_example_sound props f v :
  lookupKey_example props f = Some v ->
  exists k, EqualFold k f = true /\ props !! k = Some v.
Proof.
  unfold lookupKey_example.
  destruct (props !! f) as [v'|] eqn:Hexact.
  - intros [= <-]. exists f. split; [apply EqualFold_refl | exact Hexact].
  - destruct (List.find _ (map_to_list props)) as [[k v']|] eqn:Hfind;
      cbn [option_map snd]; [|discriminate].
    intros [= <-].
    apply List.find_some in Hfind. destruct Hfind as [Hin Hfold].
    exists k. split; [exact Hfold|].
    apply elem_of_map_to_list. apply list_elem_of_In. exact Hin.
Qed.

(** C8. Configuration parsing applies the defaults: when the decoder finds
    no key for [tablePrefix] the prefix is empty, for [metadataTableName]
    the name is ["dapr_metadata"], for [timeout] the timeout is 20 seconds;
    in particular this is so when no key of the property map matches the
    name of the field, whatever the decoder's matching of keys (a key that
    differs from the name by the case of its letters is not absent). A
    configured timeout strictly below one second makes the parser fail, and
    a timeout of exactly one second or more is accepted (the parser then
    fails only if the authentication sub-parser does). For every
    configuration and every logical table, the physical table name is the
    configured prefix followed by the logical name. *)
Theorem InitWithMetadata_defaults_timeout_and_table_names :
  forall (A : Type) (auth_Reset : A -> A)
         (auth_InitWithMetadata : gmap string string -> A -> option error * A)
         (parseDuration : string -> option Z)
         (lookupKey : gmap string string -> string -> option string)
         (props : gmap string string) (m : pgMetadata A),
    let r := InitWithMetadata auth_Reset auth_InitWithMetadata parseDuration lookupKey
                              props m in
    (lookupKey props "tablePrefix" = None -> TablePrefix (snd r) = "") /\
    (lookupKey props "metadataTableName" = None ->
     MetadataTableName (snd r) = "dapr_metadata") /\
    (lookupKey props "timeout" = None -> Timeout (snd r) = 20 * Second) /\
    (forall MatchName : string -> string -> bool,
        (forall f v, lookupKey props f = Some v ->
                     exists k, MatchName k f = true /\ props !! k = Some v) ->
        ((forall k, MatchName k "tablePrefix" = true -> props !! k = None) ->
         TablePrefix (snd r) = "") /\
        ((forall k, MatchName k "metadataTableName" = true -> props !! k = None) ->
         MetadataTableName (snd r) = "dapr_metadata") /\
        ((forall k, MatchName k "timeout" = true -> props !! k = None) ->
         Timeout (snd r) = 20 * Second)) /\
    (forall v d, lookupKey props "timeout" = Some v -> parseDuration v = Some d ->
                 d < 1 * Second -> fst r <> None) /\
    (forall v d, lookupKey props "timeout" = Some v -> parseDuration v = Some d ->
                 1 * Second <= d ->
                 fst (auth_InitWithMetadata props (auth_Reset (Auth m))) = None ->
                 fst r = None /\ Timeout (snd r) = d) /\
    (fst r = None -> 1 * Second <= Timeout (snd r)) /\
    (forall table : pgTable,
        TableName (snd r) table = default "" (lookupKey props "tablePrefix") +:+ table) /\
    (forall (m' : pgMetadata A) (table : pgTable),
        TableName m' table = TablePrefix m' +:+ table).
Proof.
  intros A reset authInit parse lookup props m r. subst r.
  split; [|split; [|split; [|split; [|split; [|split; [|split; [|split]]]]]]].
  - intros Hk. rewrite InitWithMetadata_TablePrefix, Hk. reflexivity.
  - intros Hk. rewrite InitWithMetadata_MetadataTableName, Hk. reflexivity.
  - apply InitWithMetadata_Timeout_absent.
  - intros MatchName Hsound. split; [|split]; intros Habs.
    + rewrite InitWithMetadata_TablePrefix,
        (lookupKey_absent lookup MatchName props _ Hsound Habs). reflexivity.
    + rewrite InitWithMetadata_MetadataTableName,
        (lookupKey_absent lookup MatchName props _ Hsound Habs). reflexivity.
    + apply InitWithMetadata_Timeout_absent.
      exact (lookupKey_absent lookup MatchName props _ Hsound Habs).
  - intros v d Hk Hp Hd Hok.
    pose proof (InitWithMetadata_ok_Timeout reset authInit parse lookup props m Hok) as Hge.
    rewrite (InitWithMetadata_Timeout_present reset authInit parse lookup props m v d Hk Hp)
      in Hge.
    lia.
  - intros v d Hk Hp Hd Hauth. split.
    + destruct (InitWithMetadata_accepts reset authInit parse lookup props m v d Hk Hp Hd)
        as [Hok | [Heq Hne]]; [exact Hok | congruence].
    + eapply InitWithMetadata_Timeout_present; eassumption.
  - apply InitWithMetadata_ok_Timeout.
  - intros table. unfold TableName. rewrite InitWithMetadata_TablePrefix. reflexivity.
  - reflexivity.
Qed.

Lemma InitWithMetadata_defaults_timeout_and_table_names_witness :
  let absent := InitWithMetadata_example ∅ metadata_zero in
  let one_second := InitWithMetadata_example {[ "timeout" := "1s" ]} metadata_zero in
  let too_short := InitWithMetadata_example {[ "timeout" := "999ms" ]} metadata_zero in
  let other_case :=
    InitWithMetadata_example {[ "Timeout" := "999ms"; "TABLEPREFIX" := "up_" ]}
                             metadata_zero in
  (TablePrefix (snd absent) = "" /\
   MetadataTableName (snd absent) = "dapr_metadata" /\
   Timeout (snd absent) = 20 * Second) /\
  fst too_short <> None /\
  (fst one_second = None /\ Timeout (snd one_second) = 1 * Second) /\
  1 * Second <= Timeout (snd absent) /\
  (fst other_case <> None /\
   TableName (snd other_case) pgTableHosts = "up_hosts" /\
   MetadataTableName (snd other_case) = "dapr_metadata").
Proof.
  pose proof (InitWithMetadata_defaults_timeout_and_table_names
                unit (fun a => a) auth_accept parseDuration_example lookupKey_example
                ∅ metadata_zero)
    as (_ & _ & _ & Habsent & _ & _ & Hok & _).
  pose proof (InitWithMetadata_defaults_timeout_and_table_names
                unit (fun a => a) auth_accept parseDuration_example lookupKey_example
                {[ "timeout" := "999ms" ]} metadata_zero)
    as (_ & _ & _ & _ & Hshort & _).
  pose proof (InitWithMetadata_defaults_timeout_and_table_names
                unit (fun a => a) auth_accept parseDuration_example lookupKey_example
                {[ "timeout" := "1s" ]} metadata_zero)
    as (_ & _ & _ & _ & _ & Hone & _).
  pose proof (InitWithMetadata_defaults_timeout_and_table_names
                unit (fun a => a) auth_accept parseDuration_example lookupKey_example
                {[ "Timeout" := "999ms"; "TABLEPREFIX" := "up_" ]} metadata_zero)
    as (_ & Htable & _ & _ & Hcase & _ & _ & Hname & _).
  cbv zeta. unfold InitWithMetadata_example.
  split; [|split; [|split; [|split]]].
  - destruct (Habsent EqualFold (lookupKey_example_sound ∅)) as (Hp & Ht & Hd).
    split; [|split]; [apply Hp | apply Ht | apply Hd];
      intros k _; apply lookup_empty.
  - apply (Hshort "999ms" (999 * Millisecond)); [reflexivity | reflexivity | reflexivity].
  - apply (Hone "1s" (1 * Second)); [reflexivity | reflexivity | discriminate | reflexivity].
  - apply Hok. reflexivity.
  - split; [|split].
    + apply (Hcase "999ms" (999 * Millisecond)); [reflexivity | reflexivity | reflexivity].
    + exact (Hname pgTableHosts).
    + apply Htable. reflexivity.
Defined.

(** ** How the primitives change the world *)

Lemma sem_error_unchanged s d e : fst (sem s d) = inl e -> snd (sem s d) = d.
Proof.
  destruct s; cbn [sem]; unfold undefined_table;
    repeat match goal with
           | |- context [if ?b then _ else _] => destruct b
           | |- context [match ?x with _ => _ end] => destruct x
           end; cbn [fst snd]; try discriminate; reflexivity.
Qed.

Lemma next_fault_keeps w :
  committed (snd (next_fault w)) = committed w /\
  txlog (snd (next_fault w)) = txlog w /\
  ctxdone (snd (next_fault w)) = ctxdone w /\
  trace (snd (next_fault w)) = trace w.
Proof. unfold next_fault. destruct (faults w); cbn; auto. Qed.

Lemma send_keeps_trace c s w : trace (snd (send c s w)) = trace w.
Proof.
  unfold send, bind, ret, run_stmt.
  pose proof (next_fault_keeps w) as (_ & _ & _ & Htr).
  destruct (next_fault w) as [[e|] w1]; cbn [fst snd] in *; [assumption|].
  destruct c; [destruct (sem s (committed w1)); assumption|].
  destruct (txlog w1); [|assumption].
  destruct (fst (sem s _)); assumption.
Qed.

Lemma send_Pool s w :
  let r := send Pool s w in
  txlog (snd r) = txlog w /\
  (reply_err (fst r) = None ->
   committed (snd r) = snd (sem s (committed w)) /\ fst r = fst (sem s (committed w))) /\
  (reply_err (fst r) <> None -> committed (snd r) = committed w).
Proof.
  unfold send, bind, ret, run_stmt.
  pose proof (next_fault_keeps w) as (Hc & Ht & _ & Htr).
  destruct (next_fault w) as [[e|] w1]; cbn [fst snd] in *.
  - cbn. repeat split; try congruence.
  - rewrite Hc. pose proof (sem_error_unchanged s (committed w)) as Hs.
    destruct (sem s (committed w)) as [[e|r] d]; cbn [fst snd] in *; cbn; rewrite ?Ht.
    + repeat split; try congruence. intros _. apply (Hs e eq_refl).
    + repeat split; congruence.
Qed.

Lemma send_Tx s w :
  let r := send Tx s w in
  committed (snd r) = committed w /\
  (reply_err (fst r) = None ->
   exists log, txlog w = Some log /\ txlog (snd r) = Some (log ++ [s])%list) /\
  (reply_err (fst r) <> None -> txlog (snd r) = txlog w).
Proof.
  unfold send, bind, ret, run_stmt.
  pose proof (next_fault_keeps w) as (Hc & Ht & _ & Htr).
  destruct (next_fault w) as [[e|] w1]; cbn [fst snd] in *.
  - cbn. repeat split; try congruence; try discriminate.
  - rewrite Ht. destruct (txlog w) as [log|]; cbn [fst snd].
    + rewrite Hc. destruct (fst (sem s (replay log (committed w)))) as [e|r];
        cbn; rewrite ?Hc, ?Ht.
      * repeat split; try congruence; try discriminate.
      * repeat split; try congruence. intros _. exists log. split; reflexivity.
    + cbn. repeat split; try congruence; try discriminate.
Qed.

Lemma traced_spec {T} c s (res : T * option error) w :
  fst (traced c s res w) = res /\
  committed (snd (traced c s res w)) = committed w /\
  txlog (snd (traced c s res w)) = txlog w /\
  trace (snd (traced c s res w)) = (trace w ++ [EvStmt c s (snd res)])%list.
Proof. unfold traced, bind, ret, emit. cbn. auto. Qed.

Lemma Exec_reply c s w :
  snd (fst (Exec c s w)) = reply_err (fst (send c s w)) /\
  committed (snd (Exec c s w)) = committed (snd (send c s w)) /\
  txlog (snd (Exec c s w)) = txlog (snd (send c s w)) /\
  trace (snd (Exec c s w)) = (trace w ++ [EvStmt c s (snd (fst (Exec c s w)))])%list.
Proof.
  unfold Exec, bind. pose proof (send_keeps_trace c s w) as Htr.
  destruct (send c s w) as [r w1]; cbn [fst snd] in *.
  match goal with |- context [traced c s ?res w1] =>
    destruct (traced_spec c s res w1) as (-> & -> & -> & ->) end.
  rewrite Htr. destruct r as [e|[n|id|row|]]; cbn; auto.
Qed.

Lemma QueryRow_Scan_lookup_trace c s res w :
  trace (snd (QueryRow_Scan_lookup c s res w))
  = (trace w ++ [EvStmt c s (snd (fst (QueryRow_Scan_lookup c s res w)))])%list.
Proof.
  unfold QueryRow_Scan_lookup, bind. pose proof (send_keeps_trace c s w) as Htr.
  destruct (send c s w) as [r w1]; cbn [fst snd] in *.
  match goal with |- context [traced c s ?r0 w1] =>
    destruct (traced_spec c s r0 w1) as (-> & _ & _ & ->) end.
  rewrite Htr. reflexivity.
Qed.

Lemma Begin_ok w w1 :
  Begin w = (None, w1) ->
  committed w1 = committed w /\ txlog w1 = Some [] /\
  trace w1 = (trace w ++ [EvBegin None])%list.
Proof.
  unfold Begin, bind, ret, emit, put_txlog.
  pose proof (next_fault_keeps w) as (Hc & Ht & _ & Htr).
  destruct (next_fault w) as [[e|] w0]; cbn [fst snd] in *; cbn; intros H; inversion H; subst; clear H.
  cbn. rewrite Hc, Htr. auto.
Qed.

Lemma Begin_trace w :
  trace (snd (Begin w)) = (trace w ++ [EvBegin (fst (Begin w))])%list.
Proof.
  unfold Begin, bind, ret, emit, put_txlog.
  pose proof (next_fault_keeps w) as (Hc & Ht & _ & Htr).
  destruct (next_fault w) as [[e|] w0]; cbn [fst snd] in *; cbn; congruence.
Qed.

Lemma Commit_ok w w' :
  Commit w = (None, w') ->
  exists log, txlog w = Some log /\ committed w' = replay log (committed w) /\
              trace w' = (trace w ++ [EvCommit None])%list.
Proof.
  unfold Commit, bind, ret, emit, put_txlog, get_txlog, get_committed, put_committed.
  pose proof (next_fault_keeps w) as (Hc & Ht & _ & Htr).
  destruct (next_fault w) as [f w0]; cbn [fst snd] in *.
  rewrite Ht, Hc. destruct (txlog w) as [log|]; [destruct f|]; cbn;
    intros H; inversion H; subst; clear H.
  exists log. cbn. rewrite Htr. auto.
Qed.

Lemma Commit_trace w :
  trace (snd (Commit w)) = (trace w ++ [EvCommit (fst (Commit w))])%list /\
  (fst (Commit w) <> None -> committed (snd (Commit w)) = committed w).
Proof.
  unfold Commit, bind, ret, emit, put_txlog, get_txlog, get_committed, put_committed.
  pose proof (next_fault_keeps w) as (Hc & Ht & _ & Htr).
  destruct (next_fault w) as [f w0]; cbn [fst snd] in *.
  rewrite Ht, Hc. destruct (txlog w) as [log|]; [destruct f|]; cbn; rewrite ?Htr, ?Hc;
    split; congruence.
Qed.

Lemma rollback_deferred_keeps w :
  committed (snd (rollback_deferred w)) = committed w /\
  exists evs, trace (snd (rollback_deferred w)) = (trace w ++ evs)%list /\
              forallb (fun ev => negb (touches_actor_types ev)) evs = true /\
              attempts evs = O.
Proof.
  unfold rollback_deferred, Rollback, log_Errorf, bind, ret, emit, put_txlog, get_txlog.
  pose proof (next_fault_keeps w) as (Hc & Ht & _ & Htr).
  destruct (next_fault w) as [f w0]; cbn [fst snd] in *.
  rewrite Ht. destruct (txlog w) as [log|]; [destruct f|]; cbn; rewrite ?Htr, ?Hc;
    (split; [reflexivity|]).
  - eexists [_; _]. rewrite <- app_assoc. repeat split.
  - eexists [_]. repeat split.
  - eexists [_; _]. rewrite <- app_assoc. repeat split.
Qed.

Lemma trace_grows_refl ok w : trace_grows ok w w.
Proof. exists []. rewrite app_nil_r. auto. Qed.

Lemma trace_grows_trans ok w1 w2 w3 :
  trace_grows ok w1 w2 -> trace_grows ok w2 w3 -> trace_grows ok w1 w3.
Proof.
  intros (e1 & H1 & F1) (e2 & H2 & F2). exists (e1 ++ e2)%list.
  rewrite H2, H1, <- app_assoc, forallb_app, F1, F2. auto.
Qed.

Lemma trace_grows_one ok w w' ev :
  trace w' = (trace w ++ [ev])%list -> ok ev = true -> trace_grows ok w w'.
Proof. intros H Hok. exists [ev]. cbn. rewrite Hok. auto. Qed.

Lemma Exec_trace_grows ok c s w :
  (forall err, ok (EvStmt c s err) = true) ->
  trace_grows ok w (snd (Exec c s w)).
Proof.
  intros Hok. destruct (Exec_reply c s w) as (_ & _ & _ & Ht).
  eapply trace_grows_one; eauto.
Qed.

Lemma rollback_deferred_trace_grows ok w :
  (forall err, ok (EvRollback err) = true) ->
  (forall msg err, ok (EvLog msg err) = true) ->
  trace_grows ok w (snd (rollback_deferred w)).
Proof.
  intros Hr Hl.
  unfold rollback_deferred, Rollback, log_Errorf, bind, ret, emit, put_txlog, get_txlog.
  pose proof (next_fault_keeps w) as (Hc & Ht & _ & Htr).
  destruct (next_fault w) as [f w0]; cbn [fst snd] in *.
  rewrite Ht. destruct (txlog w) as [log|]; [destruct f|]; cbn; rewrite ?Htr.
  - eexists [_; _]. rewrite <- app_assoc. cbn. rewrite Hr, Hl. auto.
  - eexists [_]. cbn. rewrite Hr. auto.
  - eexists [_; _]. rewrite <- app_assoc. cbn. rewrite Hr, Hl. auto.
Qed.

Lemma sem_update_actor_types t id ts d :
  db_hosts_actor_types (snd (sem (SqlUpdateHostHealthcheck t id ts) d))
  = db_hosts_actor_types d.
Proof. cbn [sem]. unfold undefined_table. destruct (negb _); reflexivity. Qed.

Lemma sem_delete_actor_types t id d r :
  fst (sem (SqlDeleteHostActorTypes t id) d) = inr r ->
  db_hosts_actor_types (snd (sem (SqlDeleteHostActorTypes t id) d))
  = rows_of_other_hosts id (db_hosts_actor_types d).
Proof.
  cbn [sem]. unfold undefined_table. destruct (negb _); cbn; [discriminate|]. reflexivity.
Qed.


Lemma updateHostsTable_Tx_ok id properties t w w' :
  updateHostsTable Tx id properties t w = (None, w') ->
  txlog w = Some [] ->
  committed w' = committed w /\
  exists log, txlog w' = Some log /\
              forall d, db_hosts_actor_types (replay log d) = db_hosts_actor_types d.
Proof.
  unfold updateHostsTable. destruct (upd_LastHealthCheck properties) as [ts|].
  - unfold bind.
    pose proof (Exec_reply Tx (SqlUpdateHostHealthcheck t id ts) w) as (He & Hw & Hx & _).
    destruct (send_Tx (SqlUpdateHostHealthcheck t id ts) w) as (Hc & Hok & _).
    destruct (Exec Tx _ w) as [[n [e|]] w1]; cbn [fst snd ret] in *; [discriminate|].
    destruct (n =? 0); cbn [ret]; intros H Hlog; inversion H; subst; clear H.
    split; [congruence|].
    destruct (Hok (eq_sym He)) as (log & Hl & Hl'). rewrite Hlog in Hl. inversion Hl; subst.
    eexists; split; [rewrite Hx; exact Hl'|]. intros d. cbn. apply sem_update_actor_types.
  - cbn [ret]. intros H Hlog; inversion H; subst. split; [reflexivity|].
    exists []. split; [assumption | reflexivity].
Qed.

Lemma updateHostsTable_trace_grows ok c id properties t w :
  (forall s err, ok (EvStmt c (SqlUpdateHostHealthcheck t id s) err) = true) ->
  trace_grows ok w (snd (updateHostsTable c id properties t w)).
Proof.
  intros Hok. unfold updateHostsTable.
  destruct (upd_LastHealthCheck properties) as [ts|]; [|apply trace_grows_refl].
  unfold bind.
  pose proof (Exec_trace_grows ok c (SqlUpdateHostHealthcheck t id ts) w (Hok ts)) as Hg.
  destruct (Exec c _ w) as [[n [e|]] w1]; cbn [fst snd ret] in *; [exact Hg|].
  destruct (n =? 0); exact Hg.
Qed.




(** ** Running the store: proof support *)

Ltac red_m := cbn [fst snd bind ret].

Lemma insertHostActorTypes_not_invalid c id ats t w :
  fst (insertHostActorTypes c id ats t w) <> Some ErrInvalidRequestMissingParameters.
Proof.
  unfold insertHostActorTypes, bind, ret.
  destruct (len ats =? 0); cbn [fst]; [discriminate|].
  destruct (CopyFrom c t _ w) as [[n [e|]] w']; cbn [fst]; [discriminate|].
  destruct (negb (n =? len ats)); cbn [fst]; discriminate.
Qed.

Lemma AddActorHost_validation (properties : AddActorHostRequest) :
  String.eqb (add_AppID properties) "" || String.eqb (add_Address properties) ""
  || (add_ApiLevel properties <=? 0) = true <->
  (add_Address properties = "" \/ add_AppID properties = "" \/ add_ApiLevel properties <= 0).
Proof.
  rewrite !orb_true_iff, !String.eqb_eq, Z.leb_le. tauto.
Qed.

Lemma AddActorHost_invalid_iff {A} (p : PostgreSQL A) properties w :
  snd (fst (AddActorHost p properties w)) = Some ErrInvalidRequestMissingParameters <->
  (add_Address properties = "" \/ add_AppID properties = "" \/ add_ApiLevel properties <= 0).
Proof.
  rewrite <- AddActorHost_validation. unfold AddActorHost.
  destruct (_ || _ || _) eqn:Hv.
  - cbn [fst snd ret]. tauto.
  - split; [|discriminate]. intros H. exfalso. revert H.
    unfold executeInTransaction, bind, ret.
    destruct (Begin w) as [[e|] w1]; red_m; [discriminate|].
    destruct (QueryRow_Scan_hostID _ _ w1) as [[hid [e|]] w2]; red_m.
    + destruct (isUniqueViolationError (Some e)); red_m;
        destruct (rollback_deferred w2); red_m; discriminate.
    + pose proof (insertHostActorTypes_not_invalid Tx hid (add_ActorTypes properties)
                    (TableName (metadata p) pgTableHostsActorTypes) w2) as Hn.
      destruct (insertHostActorTypes _ _ _ _ w2) as [[e|] w3]; red_m; cbn [fst snd] in Hn.
      * destruct (rollback_deferred w3); red_m. congruence.
      * destruct (Commit w3) as [[e|] w4]; red_m; [|discriminate].
        destruct (rollback_deferred w4); red_m; discriminate.
Qed.

(** ** Host registration *)

(** C6. [AddActorHost] fails with [ErrInvalidRequestMissingParameters] if and
    only if the address is empty, the application id is empty or the API
    level is not strictly positive; the list of actor types plays no part in
    it. Such a call comes back before any access to the database: the world
    is unchanged, no event is recorded. When the transaction has begun and
    the insert of the host row fails with a uniqueness violation, the call
    fails with [ErrActorHostConflict]. *)
Theorem AddActorHost_validation_and_conflict :
  forall (A : Type) (p : PostgreSQL A) (properties : AddActorHostRequest) (w : World),
    let r := AddActorHost p properties w in
    let invalid := add_Address properties = "" \/ add_AppID properties = ""
                   \/ add_ApiLevel properties <= 0 in
    (snd (fst r) = Some ErrInvalidRequestMissingParameters <-> invalid) /\
    (invalid -> r = ("", Some ErrInvalidRequestMissingParameters, w)) /\
    (forall (w1 w2 : World) (e : error),
        ~ invalid ->
        Begin w = (None, w1) ->
        QueryRow_Scan_hostID Tx (SqlInsertHost (TableName (metadata p) pgTableHosts)
                                               (add_Address properties)
                                               (add_AppID properties)
                                               (add_ApiLevel properties)) w1
        = ("", Some e, w2) ->
        isUniqueViolationError (Some e) = true ->
        fst r = ("", Some ErrActorHostConflict)).
Proof.
  intros A p properties w r invalid. subst r invalid.
  split; [apply AddActorHost_invalid_iff|]. split.
  - intros Hinv. apply AddActorHost_validation in Hinv.
    unfold AddActorHost. rewrite Hinv. reflexivity.
  - intros w1 w2 e Hvalid HB Hrt Huv.
    unfold AddActorHost.
    destruct (_ || _ || _) eqn:Hv; [apply AddActorHost_validation in Hv; tauto|].
    unfold executeInTransaction, bind at 1. rewrite HB.
    unfold bind. rewrite Hrt. rewrite Huv. red_m.
    destruct (rollback_deferred w2). reflexivity.
Qed.

Lemma AddActorHost_validation_and_conflict_witness :
  AddActorHost store_example (mkAddActorHostRequest "a1" "addr1" 0 []) (world_of db_example [] [])
  = ("", Some ErrInvalidRequestMissingParameters, world_of db_example [] []) /\
  snd (fst (AddActorHost store_example (mkAddActorHostRequest "a2" "addr2" 1 [])
                         (world_of db_example [] []))) = None /\
  fst (AddActorHost store_example
                    (mkAddActorHostRequest "a1" "addr1" 1 [mkActorHostType "dog" 5])
                    (world_of db_example [] []))
  = ("", Some ErrActorHostConflict).
Proof.
  split; [|split].
  - apply (AddActorHost_validation_and_conflict unit store_example
             (mkAddActorHostRequest "a1" "addr1" 0 []) (world_of db_example [] [])).
    right; right. cbn. lia.
  - reflexivity.
  - eapply (AddActorHost_validation_and_conflict unit store_example
              (mkAddActorHostRequest "a1" "addr1" 1 [mkActorHostType "dog" 5])
              (world_of db_example [] [])).
    + cbn. intros [H | [H | H]]; [discriminate | discriminate | lia].
    + reflexivity.
    + reflexivity.
    + reflexivity.
Defined.

(** ** Absent rows *)

Lemma updateHostsTable_no_rows c id properties t ts w w' :
  upd_LastHealthCheck properties = Some ts ->
  Exec c (SqlUpdateHostHealthcheck t id ts) w = (0, None, w') ->
  updateHostsTable c id properties t w = (Some ErrActorHostNotFound, w').
Proof.
  intros Hts Hex. unfold updateHostsTable. rewrite Hts.
  unfold bind. rewrite Hex. reflexivity.
Qed.


(** C7. A delete or update keyed to a row that is not there reports it.
    [RemoveActorHost] returns [ErrActorHostNotFound] and [RemoveActor] returns
    [ErrActorNotFound] when their DELETE succeeds and affects zero rows;
    [DeleteReminder] returns [ErrReminderNotFound] likewise; [UpdateActorHost]
    returns [ErrActorHostNotFound] when its update of the host row succeeds
    and affects zero rows, both when it runs on the pool (actor types absent)
    and when it runs in the transaction (actor types present). *)
Theorem absent_rows_are_reported_not_found :
  forall (A : Type) (p : PostgreSQL A) (w : World),
    (forall actorHostID w',
        actorHostID <> "" ->
        Exec Pool (SqlDeleteHost (TableName (metadata p) pgTableHosts) actorHostID) w
        = (0, None, w') ->
        RemoveActorHost p actorHostID w = (Some ErrActorHostNotFound, w')) /\
    (forall ref w',
        ref_ActorType ref <> "" -> ref_ActorID ref <> "" ->
        Exec Pool (SqlDeleteActor (TableName (metadata p) pgTableActors)
                                  (ref_ActorType ref) (ref_ActorID ref)) w
        = (0, None, w') ->
        RemoveActor p ref w = (Some ErrActorNotFound, w')) /\
    (forall ref w',
        rref_ActorType ref <> "" -> rref_ActorID ref <> "" -> rref_Name ref <> "" ->
        Exec Pool (SqlDeleteReminder (TableName (metadata p) pgTableReminders)
                                     (rref_ActorType ref) (rref_ActorID ref) (rref_Name ref)) w
        = (0, None, w') ->
        DeleteReminder p ref w = (Some ErrReminderNotFound, w')) /\
    (forall actorHostID ts w',
        actorHostID <> "" ->
        Exec Pool (SqlUpdateHostHealthcheck (TableName (metadata p) pgTableHosts)
                                            actorHostID ts) w
        = (0, None, w') ->
        UpdateActorHost p actorHostID (mkUpdateActorHostRequest (Some ts) None) w
        = (Some ErrActorHostNotFound, w')) /\
    (forall actorHostID ts actorTypes w1 w2,
        actorHostID <> "" ->
        Begin w = (None, w1) ->
        Exec Tx (SqlUpdateHostHealthcheck (TableName (metadata p) pgTableHosts)
                                          actorHostID ts) w1
        = (0, None, w2) ->
        fst (UpdateActorHost p actorHostID
                             (mkUpdateActorHostRequest (Some ts) (Some actorTypes)) w)
        = Some ErrActorHostNotFound).
Proof.
  intros A p w. repeat split.
  - intros id w' Hid Hex. unfold RemoveActorHost.
    apply String.eqb_neq in Hid. rewrite Hid.
    unfold bind. rewrite Hex. reflexivity.
  - intros ref w' Ht Hi Hex. unfold RemoveActor.
    apply String.eqb_neq in Ht, Hi. rewrite Ht, Hi. cbn [orb].
    unfold bind. rewrite Hex. reflexivity.
  - intros ref w' Ht Hi Hn Hex. unfold DeleteReminder.
    apply String.eqb_neq in Ht, Hi, Hn. rewrite Ht, Hi, Hn. cbn [orb].
    unfold bind. rewrite Hex. reflexivity.
  - intros id ts w' Hid Hex. unfold UpdateActorHost.
    apply String.eqb_neq in Hid. rewrite Hid. cbn [orb andb negb is_Some_b upd_LastHealthCheck upd_ActorTypes].
    unfold bind at 1.
    rewrite (updateHostsTable_no_rows Pool id (mkUpdateActorHostRequest (Some ts) None)
               _ ts w w' eq_refl Hex). reflexivity.
  - intros id ts actorTypes w1 w2 Hid HB Hex. unfold UpdateActorHost.
    apply String.eqb_neq in Hid. rewrite Hid. cbn [orb andb negb is_Some_b upd_LastHealthCheck upd_ActorTypes].
    unfold executeInTransaction, bind. rewrite HB.
    rewrite (updateHostsTable_no_rows Tx id (mkUpdateActorHostRequest (Some ts) (Some actorTypes))
               _ ts w1 w2 eq_refl Hex).
    red_m. destruct (rollback_deferred w2). reflexivity.
Qed.

(** With [LastHealthCheck] nil no update of the host row is sent: replacing
    the actor types of a host that does not exist by the empty list
    succeeds. *)
Example UpdateActorHost_absent_host_without_healthcheck :
  fst (UpdateActorHost store_example "host-7" (mkUpdateActorHostRequest None (Some []))
                       (world_of db_example [] []))
  = None.
Proof. reflexivity. Qed.

Lemma absent_rows_are_reported_not_found_witness :
  let w := world_of db_example [] [] in
  fst (RemoveActorHost store_example "host-7" w) = Some ErrActorHostNotFound /\
  fst (RemoveActor store_example (mkActorRef "cat" "id9") w) = Some ErrActorNotFound /\
  fst (DeleteReminder store_example (mkReminderRef "cat" "id1" "sleep") w)
  = Some ErrReminderNotFound /\
  fst (UpdateActorHost store_example "host-7" (mkUpdateActorHostRequest (Some 200) None) w)
  = Some ErrActorHostNotFound /\
  fst (UpdateActorHost store_example "host-7"
                       (mkUpdateActorHostRequest (Some 200) (Some [mkActorHostType "dog" 5])) w)
  = Some ErrActorHostNotFound.
Proof.
  cbv zeta.
  destruct (absent_rows_are_reported_not_found unit store_example (world_of db_example [] []))
    as (Hhost & Hactor & Hreminder & Hupdate & Hupdate_tx).
  split; [|split; [|split; [|split]]].
  - erewrite (Hhost "host-7"); [reflexivity | discriminate | reflexivity].
  - erewrite (Hactor (mkActorRef "cat" "id9")); [reflexivity | discriminate | discriminate | reflexivity].
  - erewrite (Hreminder (mkReminderRef "cat" "id1" "sleep"));
      [reflexivity | discriminate | discriminate | discriminate | reflexivity].
  - erewrite (Hupdate "host-7" 200); [reflexivity | discriminate | reflexivity].
  - eapply (Hupdate_tx "host-7" 200); [discriminate | reflexivity | reflexivity].
Defined.

(** ** Updating a host: absent and empty actor types *)





(** ** The lookup and its retries *)

Lemma unique_violation_not_no_rows e :
  isUniqueViolationError (Some e) = true -> errors_Is_ErrNoRows e = false.
Proof.
  unfold isUniqueViolationError.
  induction e; cbn [errors_As_PgError errors_Is_ErrNoRows]; try discriminate; auto.
Qed.

Lemma backoff_trace d w :
  trace (snd (backoff d w)) = (trace w ++ [EvBackoff d (fst (backoff d w))])%list.
Proof.
  unfold backoff, bind, ret, emit, next_ctxdone.
  destruct (ctxdone w); reflexivity.
Qed.

Lemma LookupActor_loop_unfold n q res :
  LookupActor_loop (S n) q res
  = (let* (res, err) := QueryRow_Scan_lookup Pool q res in
     match err with
     | None => ret (res, None)
     | Some e =>
         if errors_Is_ErrNoRows e then ret (res, Some ErrNoActorHost)
         else if isUniqueViolationError (Some e) then
           let* done := backoff (50 * Millisecond) in
           match done with
           | Some ctxErr => ret (res, Some ctxErr)
           | None => LookupActor_loop n q res
           end
         else ret (res, Some (Errorf "database error" e))
     end).
Proof. reflexivity. Qed.

Lemma LookupActor_loop_policy n q res w :
  exists evs,
    trace (snd (LookupActor_loop (S n) q res w)) = (trace w ++ evs)%list /\
    retry_policy q (S n) evs (snd (fst (LookupActor_loop (S n) q res w))).
Proof.
  revert res w. induction n as [|n IH]; intros res w.
  - rewrite LookupActor_loop_unfold. unfold bind.
    pose proof (QueryRow_Scan_lookup_trace Pool q res w) as Hq.
    destruct (QueryRow_Scan_lookup Pool q res w) as [[res1 [e|]] w1]; cbn [fst snd] in Hq.
    + destruct (errors_Is_ErrNoRows e) eqn:Hnr.
      { eexists; split; [exact Hq | constructor; assumption]. }
      destruct (isUniqueViolationError (Some e)) eqn:Huv.
      * pose proof (backoff_trace (50 * Millisecond) w1) as Hb.
        destruct (backoff (50 * Millisecond) w1) as [[ctxErr|] w2];
          cbn [fst snd ret LookupActor_loop] in *;
          (eexists; split; [rewrite Hb, Hq, <- app_assoc; reflexivity|]).
        -- apply rp_cancelled; assumption.
        -- apply rp_exhausted; assumption.
      * eexists; split; [exact Hq | constructor; assumption].
    + eexists; split; [exact Hq | constructor].
  - rewrite LookupActor_loop_unfold. unfold bind.
    pose proof (QueryRow_Scan_lookup_trace Pool q res w) as Hq.
    destruct (QueryRow_Scan_lookup Pool q res w) as [[res1 [e|]] w1]; cbn [fst snd] in Hq.
    + destruct (errors_Is_ErrNoRows e) eqn:Hnr.
      { eexists; split; [exact Hq | constructor; assumption]. }
      destruct (isUniqueViolationError (Some e)) eqn:Huv.
      * pose proof (backoff_trace (50 * Millisecond) w1) as Hb.
        destruct (backoff (50 * Millisecond) w1) as [[ctxErr|] w2]; cbn [fst snd ret] in *.
        -- eexists; split; [rewrite Hb, Hq, <- app_assoc; reflexivity|].
           apply rp_cancelled; assumption.
        -- destruct (IH res1 w2) as (evs & Htr & Hpol).
           exists (EvStmt Pool q (Some e) :: EvBackoff (50 * Millisecond) None :: evs).
           split.
           ++ rewrite Htr, Hb, Hq, <- !app_assoc. reflexivity.
           ++ apply rp_retry; assumption.
      * eexists; split; [exact Hq | constructor; assumption].
    + eexists; split; [exact Hq | constructor].
Qed.


Lemma QueryRow_Scan_lookup_ctxdone c s res w :
  ctxdone (snd (QueryRow_Scan_lookup c s res w)) = ctxdone w.
Proof.
  unfold QueryRow_Scan_lookup, traced, send, bind, ret, emit, run_stmt.
  pose proof (next_fault_keeps w) as (_ & _ & Hd & _).
  destruct (next_fault w) as [[e|] w1]; cbn [fst snd] in *; [exact Hd|].
  destruct c.
  - destruct (sem s (committed w1)) as [[e|[n|id|row|]] d]; exact Hd.
  - destruct (txlog w1) as [log|]; [|exact Hd].
    destruct (fst (sem s (replay log (committed w1)))) as [e|[n|id|row|]]; exact Hd.
Qed.





Section LookupScripts.

Variables hostsTable hostsActorTypesTable actorsTable actorType actorID : string.

Let q := SqlLookupActor hostsTable hostsActorTypesTable actorsTable actorType actorID.




End LookupScripts.



(** Two conflicts, then the row: three attempts, two waits. *)
Example LookupActor_succeeds_on_third_attempt :
  let r := LookupActor store_example (mkActorRef "cat" "id1")
                       (world_of db_example [Some unique_violation; Some unique_violation] []) in
  fst r = (mkLookupActorResponse "a1" "addr1" 30, None) /\
  attempts (trace (snd r)) = 3%nat.
Proof. split; reflexivity. Qed.

(** The context is cancelled during the first wait: one attempt only. *)
Example LookupActor_cancelled_during_backoff :
  let r := LookupActor store_example (mkActorRef "cat" "id1")
                       (world_of db_example [Some unique_violation] [Some CtxCanceled]) in
  fst r = (zeroLookupActorResponse, Some CtxCanceled) /\
  attempts (trace (snd r)) = 1%nat.
Proof. split; reflexivity. Qed.

(** No host declares the actor type. *)
Example LookupActor_no_host :
  fst (LookupActor store_example (mkActorRef "dog" "id1") (world_of db_example [] []))
  = (zeroLookupActorResponse, Some ErrNoActorHost).
Proof. reflexivity. Qed.

(** ** The last uniqueness violation of the lookup *)

(** C3. Every attempt of the lookup fails with a uniqueness violation and the
    context is never done: after the third failed attempt [LookupActor]
    returns the zero response with a nil error, although its last query
    failed. *)
Theorem LookupActor_third_unique_violation_returns_nil :
  let w := world_of db_example
                    [Some unique_violation; Some unique_violation; Some unique_violation] [] in
  let r := LookupActor store_example (mkActorRef "cat" "id1") w in
  fst r = (zeroLookupActorResponse, None) /\
  trace (snd r)
  = (let q := SqlLookupActor "hosts" "hosts_actor_types" "actors" "cat" "id1" in
     [EvStmt Pool q (Some unique_violation); EvBackoff (50 * Millisecond) None;
      EvStmt Pool q (Some unique_violation); EvBackoff (50 * Millisecond) None;
      EvStmt Pool q (Some unique_violation); EvBackoff (50 * Millisecond) None]).
Proof. split; reflexivity. Qed.

Lemma QueryRow_Scan_lookup_fault c s res d t e rest cd tr :
  QueryRow_Scan_lookup c s res (mkWorld d t (Some e :: rest) cd tr)
  = (res, Some e, mkWorld d t rest cd (tr ++ [EvStmt c s (Some e)])%list).
Proof. reflexivity. Qed.

Lemma backoff_not_done d0 d t f tr :
  backoff d0 (mkWorld d t f [] tr)
  = (None, mkWorld d t f [] (tr ++ [EvBackoff d0 None])%list).
Proof. reflexivity. Qed.

Lemma LookupActor_loop_conflict n q res d t e rest tr :
  isUniqueViolationError (Some e) = true ->
  LookupActor_loop (S n) q res (mkWorld d t (Some e :: rest) [] tr)
  = LookupActor_loop n q res
      (mkWorld d t rest []
               ((tr ++ [EvStmt Pool q (Some e)]) ++ [EvBackoff (50 * Millisecond) None])%list).
Proof.
  intros Huv. rewrite LookupActor_loop_unfold. unfold bind.
  rewrite QueryRow_Scan_lookup_fault, (unique_violation_not_no_rows e Huv), Huv.
  rewrite backoff_not_done. reflexivity.
Qed.

(** The same holds in every world: three uniqueness violations in a row with
    no cancellation end in a nil error. *)
Lemma LookupActor_swallows_unique_violation {A} (p : PostgreSQL A) ref d t e1 e2 e3 rest tr :
  ref_ActorType ref <> "" -> ref_ActorID ref <> "" ->
  isUniqueViolationError (Some e1) = true ->
  isUniqueViolationError (Some e2) = true ->
  isUniqueViolationError (Some e3) = true ->
  fst (LookupActor p ref (mkWorld d t (Some e1 :: Some e2 :: Some e3 :: rest) [] tr))
  = (zeroLookupActorResponse, None).
Proof.
  intros Ht Hi H1 H2 H3. unfold LookupActor.
  apply String.eqb_neq in Ht, Hi. rewrite Ht, Hi. cbn [orb].
  rewrite !LookupActor_loop_conflict by assumption. reflexivity.
Qed.

(** ** Replacing the actor types of a host *)

(** C1. The host [host-0] declares the actor type [cat]. The update that
    replaces its actor types begins a transaction and updates the host row in
    it, sends the delete of the old actor-type rows on the pool, outside the
    transaction, and then fails to insert the new rows. The transaction is
    rolled back and the update of the host row is undone, but the delete
    stays: the host is left with no actor type at all. *)
Theorem UpdateActorHost_delete_survives_rollback :
  let w := world_of db_example [None; None; None; Some CtxDeadlineExceeded] [] in
  let hostsActorTypesTable := TableName (metadata store_example) pgTableHostsActorTypes in
  let r := UpdateActorHost store_example "host-0"
             (mkUpdateActorHostRequest (Some 200) (Some [mkActorHostType "dog" 5])) w in
  fst r = Some (Errorf "failed to insert supported actor types in hosts actor types table"
                       CtxDeadlineExceeded) /\
  trace (snd r)
  = [EvBegin None;
     EvStmt Tx (SqlUpdateHostHealthcheck "hosts" "host-0" 200) None;
     EvStmt Pool (SqlDeleteHostActorTypes hostsActorTypesTable "host-0") None;
     EvStmt Tx (SqlCopyHostActorTypes hostsActorTypesTable
                                      [mkHostActorTypeRow "host-0" "dog" 5])
            (Some CtxDeadlineExceeded);
     EvRollback None] /\
  db_hosts (committed (snd r)) = db_hosts (committed w) /\
  db_hosts_actor_types (committed w) = [mkHostActorTypeRow "host-0" "cat" 30] /\
  db_hosts_actor_types (committed (snd r)) = [].
Proof. repeat split. Qed.

(** The same loss without any failure of the connection: the new list names
    an actor type twice, the bulk insert violates the key of the table. *)
Example UpdateActorHost_delete_survives_rejected_insert :
  let w := world_of db_example [] [] in
  let r := UpdateActorHost store_example "host-0"
             (mkUpdateActorHostRequest None
                (Some [mkActorHostType "dog" 5; mkActorHostType "dog" 6])) w in
  fst r = Some (Errorf "failed to insert supported actor types in hosts actor types table"
                       unique_violation) /\
  db_hosts_actor_types (committed (snd r)) = [].
Proof. repeat split. Qed.

(** The sibling path: [AddActorHost] sends both of its statements in the
    transaction, and a failed insert of the actor types leaves nothing. *)
Example AddActorHost_rolls_back_everything :
  let w := world_of db_example [None; None; Some CtxDeadlineExceeded] [] in
  let r := AddActorHost store_example
             (mkAddActorHostRequest "a2" "addr2" 1 [mkActorHostType "dog" 5]) w in
  snd (fst r)
  = Some (Errorf "failed to insert supported actor types in hosts actor types table"
                 CtxDeadlineExceeded) /\
  committed (snd r) = committed w.
Proof. repeat split. Qed.

(** ** Closing the store *)

Lemma Close_running_never_returns {A} (p : PostgreSQL A) (pool : pgxpool_Pool) fuel :
  running p = true -> db p = Some pool -> Close fuel p = None.
Proof.
  intros Hr Hd. induction fuel as [|fuel IH]; [reflexivity|].
  cbn [Close]. rewrite Hr, Hd, IH. reflexivity.
Qed.

Lemma Close_not_running {A} (p : PostgreSQL A) fuel :
  running p = false -> Close (S fuel) p = Some None.
Proof. intros Hr. cbn [Close]. rewrite Hr. reflexivity. Qed.

(** C10. On a store that is running and holds a connection pool, [Close]
    calls itself again and again: whatever the number of nested calls
    allowed, it has not returned, and it never reaches the pool. *)
Theorem Close_never_returns_on_running_store :
  forall fuel : nat, Close fuel store_example = None.
Proof.
  intros fuel. apply (Close_running_never_returns store_example ConnectedPool); reflexivity.
Qed.

(** ** The running flag *)

Section LifecycleFacts.

Context {PostgresAuthMetadata : Type}.
Variable auth_Reset : PostgresAuthMetadata -> PostgresAuthMetadata.
Variable auth_InitWithMetadata :
  gmap string string -> PostgresAuthMetadata -> option error * PostgresAuthMetadata.
Variable parseDuration : string -> option Z.
Variable lookupKey : gmap string string -> string -> option string.
Variable GetPgxPoolConfig : pgMetadata PostgresAuthMetadata -> option error.

Let init := Init auth_Reset auth_InitWithMetadata parseDuration lookupKey GetPgxPoolConfig.
Let count := inits_past_guard auth_Reset auth_InitWithMetadata parseDuration lookupKey GetPgxPoolConfig.

Lemma Init_already_running md (p : PostgreSQL PostgresAuthMetadata) w :
  running p = true ->
  init md p w = (Returns (Some (ErrorsNew "already running")), p, w).
Proof.
  intros Hr. unfold init, Init, CompareAndSwap. rewrite Hr. reflexivity.
Qed.

Lemma Init_sets_running md (p : PostgreSQL PostgresAuthMetadata) w :
  running (snd (fst (init md p w))) = true.
Proof.
  unfold init, Init, CompareAndSwap.
  destruct (running p) eqn:Hr; cbn [Bool.eqb negb fst snd ret metadata db running];
    [exact Hr|].
  destruct (InitWithMetadata _ _ _ _ md (metadata p)) as [[e|] m]; unfold bind;
    cbn [log_Errorf emit fst snd ret running]; [reflexivity|].
  destruct (GetPgxPoolConfig _) as [e|]; cbn [log_Error emit fst snd ret running];
    [reflexivity|].
  destruct (NewWithConfig w) as [[pool [e|]] w1]; cbn [log_Error emit fst snd ret running];
    [reflexivity|].
  destruct (Ping _ w1) as [[[e|]|reason] w2]; cbn [log_Error emit fst snd ret running];
    try reflexivity.
  destruct (performMigrations _ w2) as [[e|] w3]; cbn [log_Error emit fst snd ret running];
    reflexivity.
Qed.

Lemma inits_past_guard_running calls (p : PostgreSQL PostgresAuthMetadata) w :
  running p = true -> count calls p w = O.
Proof.
  revert w. induction calls as [|[md| |fuel] calls IH]; intros w Hr;
    cbn [count inits_past_guard].
  - reflexivity.
  - fold count. unfold passes_guard, CompareAndSwap. rewrite Hr. cbn [Bool.eqb fst].
    fold init. rewrite (Init_already_running md p w Hr). cbn [fst snd].
    rewrite Nat.add_0_l. apply IH. exact Hr.
  - apply IH. exact Hr.
  - apply IH. exact Hr.
Qed.

Lemma inits_past_guard_at_most_one calls (p : PostgreSQL PostgresAuthMetadata) w :
  (count calls p w <= 1)%nat.
Proof.
  revert p w. induction calls as [|[md| |fuel] calls IH]; intros p w;
    cbn [count inits_past_guard].
  - lia.
  - fold count init.
    rewrite (inits_past_guard_running calls _ _ (Init_sets_running md p w)).
    destruct (passes_guard p); lia.
  - apply IH.
  - apply IH.
Qed.

Lemma Ping_not_running (p : PostgreSQL PostgresAuthMetadata) w :
  running p = false -> Ping p w = (Returns (Some (ErrorsNew "not running")), w).
Proof. intros Hr. unfold Ping. rewrite Hr. reflexivity. Qed.

End LifecycleFacts.

(** C9. The lifecycle of the store is gated by its running flag. An [Init]
    that finds the flag set returns "already running" and changes neither the
    store nor the world. An [Init] that finds it unset sets it before
    anything else and never unsets it, whether it then succeeds or fails, so
    the [Init] that follows any [Init] is refused; over any sequence of
    lifecycle calls at most one [Init] gets past the guard. [Ping] on a store
    whose flag is unset returns "not running" without reaching the pool. *)
Theorem Init_guard_lets_one_call_through :
  forall (A : Type) (auth_Reset : A -> A)
         (auth_InitWithMetadata : gmap string string -> A -> option error * A)
         (parseDuration : string -> option Z)
         (lookupKey : gmap string string -> string -> option string)
         (GetPgxPoolConfig : pgMetadata A -> option error)
         (p : PostgreSQL A) (w : World),
    let init := Init auth_Reset auth_InitWithMetadata parseDuration lookupKey
                     GetPgxPoolConfig in
    (forall md, running p = true ->
                init md p w = (Returns (Some (ErrorsNew "already running")), p, w)) /\
    (forall md, running (snd (fst (init md p w))) = true) /\
    (forall md md',
        let first := init md p w in
        init md' (snd (fst first)) (snd first)
        = (Returns (Some (ErrorsNew "already running")), snd (fst first), snd first)) /\
    (forall calls,
        (inits_past_guard auth_Reset auth_InitWithMetadata parseDuration lookupKey
                          GetPgxPoolConfig calls p w <= 1)%nat) /\
    (running p = false -> Ping p w = (Returns (Some (ErrorsNew "not running")), w)).
Proof.
  intros A reset authInit parse lookup getCfg p w init. subst init.
  split; [intros md; apply Init_already_running|].
  split; [intros md; apply Init_sets_running|].
  split; [intros md md' first; apply Init_already_running; apply Init_sets_running|].
  split; [intros calls; apply inits_past_guard_at_most_one|].
  apply Ping_not_running.
Qed.

Lemma Init_guard_lets_one_call_through_witness :
  let w := world_of db_example [Some CtxDeadlineExceeded] [] in
  let first := Init_example ∅ store_new w in
  fst (fst first)
  = Returns (Some (Errorf "failed to connect to the database" CtxDeadlineExceeded)) /\
  running (snd (fst first)) = true /\
  fst (fst (Init_example ∅ (snd (fst first)) (snd first)))
  = Returns (Some (ErrorsNew "already running")) /\
  Init_example ∅ store_example w = (Returns (Some (ErrorsNew "already running")), store_example, w) /\
  Ping store_new w = (Returns (Some (ErrorsNew "not running")), w).
Proof.
  cbv zeta.
  destruct (Init_guard_lets_one_call_through
              unit (fun a => a) auth_accept parseDuration_example lookupKey_example (fun _ => None)
              store_new (world_of db_example [Some CtxDeadlineExceeded] []))
    as (_ & Hset & Hnext & _ & Hping).
  destruct (Init_guard_lets_one_call_through
              unit (fun a => a) auth_accept parseDuration_example lookupKey_example (fun _ => None)
              store_example (world_of db_example [Some CtxDeadlineExceeded] []))
    as (Hrunning & _).
  split; [reflexivity|].
  split; [apply (Hset ∅)|].
  split; [unfold Init_example; rewrite (Hnext ∅ ∅); reflexivity|].
  split; [apply (Hrunning ∅); reflexivity|].
  apply Hping. reflexivity.
Defined.

(** ** Reminders: exclusive leases *)

Section FetchAndLease.

Variables (now : Z) (c : FetchCall).

Lemma fetch_and_lease_rows_ids budget table :
  map reminder_id (snd (fetch_and_lease_rows now c budget table)) = map reminder_id table.
Proof.
  revert budget. induction table as [|r rest IH]; intros budget; [reflexivity|].
  cbn [fetch_and_lease_rows]. destruct budget as [|budget]; [reflexivity|].
  destruct (eligible now c r).
  - specialize (IH budget). destruct (fetch_and_lease_rows now c budget rest).
    cbn [snd map with_lease reminder_id] in *. f_equal. exact IH.
  - specialize (IH (S budget)). destruct (fetch_and_lease_rows now c (S budget) rest).
    cbn [snd map] in *. f_equal. exact IH.
Qed.

(** Every id handed out is the id of a reminder that was eligible. *)
Lemma fetch_and_lease_rows_eligible budget table id :
  In id (fst (fetch_and_lease_rows now c budget table)) ->
  exists r, In r table /\ reminder_id r = id /\ eligible now c r = true.
Proof.
  revert budget. induction table as [|r rest IH]; intros budget; [intros []|].
  cbn [fetch_and_lease_rows]. destruct budget as [|budget]; [intros []|].
  destruct (eligible now c r) eqn:He.
  - specialize (IH budget). destruct (fetch_and_lease_rows now c budget rest).
    cbn [fst In] in *. intros [<- | Hin].
    + exists r. auto.
    + destruct (IH Hin) as (r' & Hr' & Hid & Hel). exists r'. auto.
  - specialize (IH (S budget)). destruct (fetch_and_lease_rows now c (S budget) rest).
    cbn [fst In] in *. intros Hin.
    destruct (IH Hin) as (r' & Hr' & Hid & Hel). exists r'. auto.
Qed.

(** A reminder that was handed out carries the lease of the call. *)
Lemma fetch_and_lease_rows_leased budget table id :
  List.NoDup (map reminder_id table) ->
  In id (fst (fetch_and_lease_rows now c budget table)) ->
  lease_in (snd (fetch_and_lease_rows now c budget table)) id = Some (lease_of now c).
Proof.
  revert budget. induction table as [|r rest IH]; intros budget Hnd; [intros []|].
  cbn [fetch_and_lease_rows]. destruct budget as [|budget]; [intros []|].
  inversion Hnd as [|? ? Hfresh Hnd']; subst.
  destruct (eligible now c r) eqn:He.
  - specialize (IH budget Hnd'). destruct (fetch_and_lease_rows now c budget rest).
    cbn [fst snd In] in *. unfold lease_in in *. cbn [find with_lease reminder_id].
    destruct (String.eqb_spec (reminder_id r) id) as [Heq|Hne]; [reflexivity|].
    intros [Heq | Hin]; [contradiction | exact (IH Hin)].
  - pose proof (fetch_and_lease_rows_eligible (S budget) rest id) as Hel.
    specialize (IH (S budget) Hnd').
    destruct (fetch_and_lease_rows now c (S budget) rest).
    cbn [fst snd In] in *. intros Hin. unfold lease_in in *. cbn [find].
    destruct (String.eqb_spec (reminder_id r) id) as [Heq|Hne]; [|exact (IH Hin)].
    exfalso. apply Hfresh. destruct (Hel Hin) as (r' & Hr' & Hid & _).
    rewrite Heq, <- Hid. apply in_map. exact Hr'.
Qed.

(** A reminder that was not handed out keeps the lease it had. *)
Lemma fetch_and_lease_rows_frame budget table id :
  ~ In id (fst (fetch_and_lease_rows now c budget table)) ->
  lease_in (snd (fetch_and_lease_rows now c budget table)) id = lease_in table id.
Proof.
  revert budget. induction table as [|r rest IH]; intros budget; [reflexivity|].
  cbn [fetch_and_lease_rows]. destruct budget as [|budget]; [reflexivity|].
  destruct (eligible now c r) eqn:He.
  - specialize (IH budget). destruct (fetch_and_lease_rows now c budget rest).
    cbn [fst snd In] in *. intros Hnot. unfold lease_in in *.
    cbn [find with_lease reminder_id].
    destruct (String.eqb_spec (reminder_id r) id) as [Heq|Hne]; [tauto|].
    apply IH. tauto.
  - specialize (IH (S budget)). destruct (fetch_and_lease_rows now c (S budget) rest).
    cbn [fst snd In] in *. intros Hnot. unfold lease_in in *. cbn [find].
    destruct (String.eqb_spec (reminder_id r) id) as [Heq|Hne]; [reflexivity|].
    apply IH. exact Hnot.
Qed.

End FetchAndLease.

Lemma lease_in_of_member table r :
  List.NoDup (map reminder_id table) -> In r table ->
  lease_in table (reminder_id r) = reminder_lease r.
Proof.
  unfold lease_in. induction table as [|r0 rest IH]; intros Hnd Hin; [destruct Hin|].
  inversion Hnd as [|? ? Hfresh Hnd']; subst. cbn [find].
  destruct Hin as [-> | Hin].
  - rewrite String.eqb_refl. reflexivity.
  - destruct (String.eqb_spec (reminder_id r0) (reminder_id r)) as [Heq|Hne].
    + exfalso. apply Hfresh. rewrite Heq. apply in_map. exact Hin.
    + apply IH; assumption.
Qed.

Lemma leased_not_eligible now1 now2 c1 c2 r :
  now2 - now1 <= call_stale_after c2 ->
  reminder_lease r = Some (lease_of now1 c1) ->
  eligible now2 c2 r = false.
Proof.
  intros Hfresh Hl. unfold eligible. rewrite Hl.
  unfold lease_is_stale, lease_of. cbn [lease_time].
  destruct (Z.ltb_spec (now1 + call_stale_after c2) now2); [lia|].
  apply andb_false_r.
Qed.

(** C5. Fetch-and-lease is one indivisible step on the reminders table, so
    two concurrent calls are two steps that the server runs in one order or
    the other; [c1] names the call whose step runs first. When the step of
    the second call runs before the leases taken by the first have turned
    stale, no reminder id is returned by both calls, and at every moment of
    the run each reminder carries at most one lease: a reminder returned by
    the first call carries the lease of the first call after the first step
    and still after the second, and a reminder returned by the second call
    carries the lease of the second call. *)
Theorem fetch_and_lease_is_exclusive :
  forall (now1 now2 : Z) (c1 c2 : FetchCall) (table : list Reminder),
    List.NoDup (map reminder_id table) ->
    now2 - now1 <= call_stale_after c2 ->
    let run := two_fetchers now1 now2 c1 c2 table in
    let ids1 := fst (fst run) in
    let table1 := snd (fst run) in
    let ids2 := fst (snd run) in
    let table2 := snd (snd run) in
    (forall id, In id ids1 -> ~ In id ids2) /\
    (forall id, In id ids1 -> lease_in table1 id = Some (lease_of now1 c1)) /\
    (forall id, In id ids1 -> lease_in table2 id = Some (lease_of now1 c1)) /\
    (forall id, In id ids2 -> lease_in table2 id = Some (lease_of now2 c2)).
Proof.
  intros now1 now2 c1 c2 table Hnd Hfresh run ids1 table1 ids2 table2.
  subst run ids1 table1 ids2 table2. unfold two_fetchers, fetch_and_lease. cbn [fst snd].
  set (step1 := fetch_and_lease_rows now1 c1 (call_limit c1) table).
  assert (Hnd1 : List.NoDup (map reminder_id (snd step1))).
  { subst step1. rewrite fetch_and_lease_rows_ids. exact Hnd. }
  assert (Hleased : forall id, In id (fst step1) ->
                               lease_in (snd step1) id = Some (lease_of now1 c1)).
  { intros id. apply fetch_and_lease_rows_leased. exact Hnd. }
  assert (Hdisjoint : forall id,
             In id (fst step1) ->
             ~ In id (fst (fetch_and_lease_rows now2 c2 (call_limit c2) (snd step1)))).
  { intros id H1 H2.
    destruct (fetch_and_lease_rows_eligible now2 c2 _ _ id H2) as (r & Hr & Hid & Hel).
    pose proof (lease_in_of_member (snd step1) r Hnd1 Hr) as Hlease.
    rewrite Hid, (Hleased id H1) in Hlease.
    rewrite (leased_not_eligible now1 now2 c1 c2 r Hfresh (eq_sym Hlease)) in Hel.
    discriminate. }
  split; [exact Hdisjoint|]. split; [exact Hleased|]. split.
  - intros id H1. rewrite fetch_and_lease_rows_frame; [apply Hleased; exact H1|].
    apply Hdisjoint. exact H1.
  - intros id. apply fetch_and_lease_rows_leased. exact Hnd1.
Qed.

Lemma fetch_and_lease_is_exclusive_witness :
  let due := fun id => mkReminder id "cat" id "wake" 900 None in
  let table := [due "r1"; due "r2"; mkReminder "r3" "cat" "r3" "wake" 5000 None] in
  let first := mkFetchCall "pid-a" "lease-a" 1 60 (fun _ => true) in
  let second := mkFetchCall "pid-b" "lease-b" 5 60 (fun _ => true) in
  let run := two_fetchers 1000 1001 first second table in
  fst (fst run) = ["r1"] /\ fst (snd run) = ["r2"] /\
  ~ In "r1" (fst (snd run)) /\
  lease_in (snd (snd run)) "r1" = Some (mkLease "lease-a" 1000 "pid-a") /\
  lease_in (snd (snd run)) "r2" = Some (mkLease "lease-b" 1001 "pid-b") /\
  lease_in (snd (snd run)) "r3" = None.
Proof.
  cbv zeta.
  destruct (fetch_and_lease_is_exclusive 1000 1001
              (mkFetchCall "pid-a" "lease-a" 1 60 (fun _ => true))
              (mkFetchCall "pid-b" "lease-b" 5 60 (fun _ => true))
              [mkReminder "r1" "cat" "r1" "wake" 900 None;
               mkReminder "r2" "cat" "r2" "wake" 900 None;
               mkReminder "r3" "cat" "r3" "wake" 5000 None])
    as (Hdisjoint & _ & Hfirst & Hsecond).
  - repeat constructor; cbn; intuition discriminate.
  - cbn. lia.
  - split; [reflexivity|]. split; [reflexivity|].
    split; [apply Hdisjoint; left; reflexivity|].
    split; [apply Hfirst; left; reflexivity|].
    split; [apply Hsecond; left; reflexivity|].
    reflexivity.
Defined.

(** Once the lease of the first call has turned stale, the second call takes
    the reminder over: stale leases are eligible again. *)
Example stale_lease_is_fetched_again :
  let table := [mkReminder "r1" "cat" "r1" "wake" 900 None] in
  let first := mkFetchCall "pid-a" "lease-a" 1 60 (fun _ => true) in
  let second := mkFetchCall "pid-b" "lease-b" 1 60 (fun _ => true) in
  let run := two_fetchers 1000 1061 first second table in
  fst (fst run) = ["r1"] /\ fst (snd run) = ["r1"] /\
  lease_in (snd (snd run)) "r1" = Some (mkLease "lease-b" 1061 "pid-b").
Proof. repeat split. Qed.

(** * Further properties of the store *)

(** ** Transactions *)

Lemma Begin_keeps_committed w : committed (snd (Begin w)) = committed w.
Proof.
  unfold Begin, bind, ret, emit, put_txlog.
  pose proof (next_fault_keeps w) as (Hc & _).
  destruct (next_fault w) as [[e|] w0]; cbn [fst snd] in *; cbn; exact Hc.
Qed.

Lemma Commit_closes w : txlog (snd (Commit w)) = None.
Proof.
  unfold Commit, bind, ret, emit, put_txlog, get_txlog, get_committed, put_committed.
  destruct (next_fault w) as [f w0]; cbn [fst snd].
  destruct (txlog w0) as [log|]; [destruct f|]; reflexivity.
Qed.

Lemma rollback_deferred_closes w : txlog (snd (rollback_deferred w)) = None.
Proof.
  unfold rollback_deferred, Rollback, log_Errorf, bind, ret, emit, put_txlog, get_txlog.
  destruct (next_fault w) as [f w0]; cbn [fst snd].
  destruct (txlog w0) as [log|]; [destruct f|]; reflexivity.
Qed.

(** X1. Once the transaction has begun, [executeInTransaction] ends it
    whatever the callback does: the transaction is closed on return; only a
    successful commit publishes the statements of the transaction, and on
    every failure the committed state is the one the callback left; an error
    of the callback is returned as it is, with the callback's result, also
    when the rollback fails. *)
Theorem executeInTransaction_commits_or_rolls_back :
  forall (T : Type) (zero : T) (fn : M (T * option error))
         (w w1 w2 : World) (res : T) (err : option error),
    Begin w = (None, w1) ->
    fn w1 = (res, err, w2) ->
    let r := executeInTransaction zero fn w in
    txlog (snd r) = None /\
    (snd (fst r) = None ->
     err = None /\
     exists log, txlog w2 = Some log /\ committed (snd r) = replay log (committed w2)) /\
    (snd (fst r) <> None -> committed (snd r) = committed w2) /\
    (forall e, err = Some e -> fst r = (res, Some e)).
Proof.
  intros T zero fn w w1 w2 res err HB Hfn r. subst r.
  unfold executeInTransaction, bind. rewrite HB, Hfn.
  destruct err as [e|]; cbn [ret].
  - pose proof (rollback_deferred_closes w2) as Hcl.
    destruct (rollback_deferred_keeps w2) as [Hc _].
    destruct (rollback_deferred w2) as [u w3]; cbn [fst snd] in *.
    split; [exact Hcl|]. split; [discriminate|]. split; [intros _; exact Hc|].
    intros e' He. inversion He; subst. reflexivity.
  - pose proof (Commit_closes w2) as Hcl.
    destruct (Commit_trace w2) as [_ Hfail].
    destruct (Commit w2) as [[e|] w3] eqn:HC; cbn [fst snd ret] in *.
    + pose proof (rollback_deferred_closes w3) as Hcl'.
      destruct (rollback_deferred_keeps w3) as [Hc _].
      destruct (rollback_deferred w3) as [u w4]; cbn [fst snd] in *.
      split; [exact Hcl'|]. split; [discriminate|].
      split; [intros _; transitivity (committed w3); [exact Hc | apply Hfail; discriminate]|].
      intros e' He. discriminate.
    + split; [exact Hcl|]. split.
      * intros _. split; [reflexivity|].
        destruct (Commit_ok w2 w3 HC) as (log & Hl & Hc & _). eauto.
      * split; [intros H; contradiction H; reflexivity|]. intros e' He. discriminate.
Qed.

Lemma executeInTransaction_commits_or_rolls_back_witness :
  let w := world_of db_example [None; Some CtxDeadlineExceeded] [] in
  let fn := let* (n, err) := Exec Tx (SqlDeleteHost "hosts" "host-0") in ret (n, err) in
  let r := executeInTransaction 0 fn w in
  fst r = (0, Some CtxDeadlineExceeded) /\ txlog (snd r) = None /\
  committed (snd r) = db_example.
Proof.
  cbv zeta.
  edestruct (executeInTransaction_commits_or_rolls_back
               Z 0 (let* (n, err) := Exec Tx (SqlDeleteHost "hosts" "host-0") in ret (n, err))
               (world_of db_example [None; Some CtxDeadlineExceeded] []))
    as (Hclosed & _ & Hkept & Herr).
  - reflexivity.
  - reflexivity.
  - split; [apply Herr; reflexivity|]. split; [exact Hclosed|].
    rewrite Hkept; [reflexivity|]. rewrite (Herr _ eq_refl). discriminate.
Defined.

(** ** Registering a host *)

Lemma QueryRow_Scan_hostID_Tx s w :
  let r := QueryRow_Scan_hostID Tx s w in
  committed (snd r) = committed w /\
  trace (snd r) = (trace w ++ [EvStmt Tx s (snd (fst r))])%list /\
  (snd (fst r) = None ->
   exists log, txlog w = Some log /\ txlog (snd r) = Some (log ++ [s])%list).
Proof.
  unfold QueryRow_Scan_hostID, bind.
  pose proof (send_keeps_trace Tx s w) as Htr.
  destruct (send_Tx s w) as (Hc & Hok & _).
  destruct (send Tx s w) as [rep w1]; cbn [fst snd ret] in *.
  match goal with |- context [traced Tx s ?res w1] =>
    destruct (traced_spec Tx s res w1) as (-> & -> & -> & ->) end.
  rewrite Htr. split; [exact Hc|]. split; [reflexivity|].
  destruct rep as [e|[n|id|row|]]; cbn [fst snd reply_err] in *; try discriminate.
  intros _. apply Hok. reflexivity.
Qed.

Lemma Exec_Tx s w :
  let r := Exec Tx s w in
  committed (snd r) = committed w /\
  (snd (fst r) = None ->
   exists log, txlog w = Some log /\ txlog (snd r) = Some (log ++ [s])%list).
Proof.
  cbv zeta. destruct (Exec_reply Tx s w) as (He & Hc & Hl & _).
  destruct (send_Tx s w) as (Hc' & Hok & _).
  split; [congruence|]. intros H. rewrite Hl. apply Hok. congruence.
Qed.

Lemma len_eqb_0 {A} (l : list A) : (len l =? 0) = match l with [] => true | _ => false end.
Proof. destruct l; reflexivity. Qed.

Lemma insertHostActorTypes_Tx ok id actorTypes t w :
  (forall s err, ok (EvStmt Tx s err) = true) ->
  let r := insertHostActorTypes Tx id actorTypes t w in
  committed (snd r) = committed w /\
  trace_grows ok w (snd r) /\
  (fst r = None ->
   forall log, txlog w = Some log ->
               txlog (snd r)
               = Some (log ++ match actorTypes with
                              | [] => []
                              | _ => [SqlCopyHostActorTypes t
                                        (map (fun a => mkHostActorTypeRow id (ActorType a)
                                                                          (IdleTimeout a))
                                             actorTypes)]
                              end)%list).
Proof.
  intros Hok. unfold insertHostActorTypes. rewrite len_eqb_0.
  destruct actorTypes as [|a rest].
  - cbn [ret fst snd]. split; [reflexivity|]. split; [apply trace_grows_refl|].
    intros _ log Hl. rewrite app_nil_r. exact Hl.
  - unfold bind, CopyFrom.
    set (s := SqlCopyHostActorTypes t _).
    destruct (Exec_Tx s w) as (Hc & Hlog).
    pose proof (Exec_trace_grows ok Tx s w (Hok s)) as Hg.
    destruct (Exec Tx s w) as [[n [e|]] w1]; cbn [fst snd ret] in *.
    + split; [exact Hc|]. split; [exact Hg|]. discriminate.
    + destruct (negb _); cbn [fst snd ret]; (split; [exact Hc|]); (split; [exact Hg|]);
        [discriminate|].
      intros _ log Hl. destruct (Hlog eq_refl) as (log' & Hl' & Hl'').
      rewrite Hl in Hl'. inversion Hl'; subst. exact Hl''.
Qed.

Lemma AddActorHost_effect {A} (p : PostgreSQL A) (properties : AddActorHostRequest) w :
  let r := AddActorHost p properties w in
  trace_grows no_pool_stmt w (snd r) /\
  (snd (fst r) <> None -> committed (snd r) = committed w) /\
  (snd (fst r) = None ->
   committed (snd r)
   = replay (AddActorHost_statements p properties (fst (fst r))) (committed w)).
Proof.
  intros r. subst r.
  assert (Hroll : forall w0, trace_grows no_pool_stmt w0 (snd (rollback_deferred w0))).
  { intros w0. apply rollback_deferred_trace_grows; reflexivity. }
  unfold AddActorHost.
  destruct (_ || _ || _).
  { cbn [ret fst snd]. split; [apply trace_grows_refl|]. split; [reflexivity|discriminate]. }
  unfold executeInTransaction, bind.
  pose proof (Begin_trace w) as HBt. pose proof (Begin_keeps_committed w) as HBc.
  destruct (Begin w) as [[e|] w1] eqn:HB; cbn [fst snd ret] in *.
  { split; [eapply trace_grows_one; eauto|]. split; [intros _; exact HBc | discriminate]. }
  assert (G1 : trace_grows no_pool_stmt w w1) by (eapply trace_grows_one; eauto).
  destruct (Begin_ok w w1 HB) as (_ & Hl1 & _).
  set (ins := SqlInsertHost _ _ _ _).
  destruct (QueryRow_Scan_hostID_Tx ins w1) as (Hc2 & Ht2 & Hl2).
  destruct (QueryRow_Scan_hostID Tx ins w1) as [[hostID [e|]] w2]; cbn [fst snd ret] in *.
  { assert (G2 : trace_grows no_pool_stmt w1 w2) by (eapply trace_grows_one; eauto).
    destruct (isUniqueViolationError (Some e)); cbn [ret];
      specialize (Hroll w2); destruct (rollback_deferred_keeps w2) as [Hc3 _];
      destruct (rollback_deferred w2) as [u w3]; cbn [fst snd ret] in *;
      (split; [eauto using trace_grows_trans|]);
      (split; [intros _; congruence | discriminate]). }
  assert (G2 : trace_grows no_pool_stmt w1 w2) by (eapply trace_grows_one; eauto).
  destruct (Hl2 eq_refl) as (log1 & Hlog1 & Hlog2).
  rewrite Hl1 in Hlog1. inversion Hlog1; subst log1. cbn [app] in Hlog2.
  destruct (insertHostActorTypes_Tx no_pool_stmt hostID (add_ActorTypes properties)
              (TableName (metadata p) pgTableHostsActorTypes) w2 (fun _ _ => eq_refl))
    as (Hc3 & G3 & Hl3).
  destruct (insertHostActorTypes Tx hostID _ _ w2) as [[e|] w3]; cbn [fst snd ret] in *.
  { specialize (Hroll w3); destruct (rollback_deferred_keeps w3) as [Hc4 _];
      destruct (rollback_deferred w3) as [u w4]; cbn [fst snd ret] in *.
    split; [eauto using trace_grows_trans|].
    split; [intros _; congruence | discriminate]. }
  specialize (Hl3 eq_refl _ Hlog2).
  destruct (Commit_trace w3) as [HCt HCfail].
  destruct (Commit w3) as [[e|] w4] eqn:HC; cbn [fst snd ret] in *.
  { assert (G4 : trace_grows no_pool_stmt w3 w4) by (eapply trace_grows_one; eauto).
    specialize (Hroll w4); destruct (rollback_deferred_keeps w4) as [Hc5 _];
      destruct (rollback_deferred w4) as [u w5]; cbn [fst snd ret] in *.
    split; [eauto using trace_grows_trans|].
    split; [|discriminate]. intros _. rewrite Hc5, HCfail by discriminate. congruence. }
  assert (G4 : trace_grows no_pool_stmt w3 w4) by (eapply trace_grows_one; eauto).
  split; [eauto using trace_grows_trans|].
  split; [intros H; contradiction H; reflexivity|]. intros _.
  destruct (Commit_ok w3 w4 HC) as (log & Hlog & Hc4 & _).
  rewrite Hl3 in Hlog. inversion Hlog; subst log.
  rewrite Hc4, Hc3, Hc2, HBc. reflexivity.
Qed.

(** X2. [AddActorHost] sends every statement inside its transaction, never
    on the pool. When it fails, for whatever reason, the committed database
    is as it was before the call; when it succeeds, the committed database
    is the old one with the insert of the host and, if there are actor types,
    the bulk insert of their rows under the returned host id, applied in this
    order. *)
Theorem AddActorHost_is_all_or_nothing :
  forall (A : Type) (p : PostgreSQL A) (properties : AddActorHostRequest) (w : World),
    let r := AddActorHost p properties w in
    trace_grows no_pool_stmt w (snd r) /\
    (snd (fst r) <> None -> committed (snd r) = committed w) /\
    (snd (fst r) = None ->
     committed (snd r)
     = replay (AddActorHost_statements p properties (fst (fst r))) (committed w)).
Proof. intros A p properties w. apply AddActorHost_effect. Qed.

Lemma AddActorHost_is_all_or_nothing_witness :
  let failed := AddActorHost store_example
                  (mkAddActorHostRequest "a2" "addr2" 1 [mkActorHostType "cat" 1;
                                                          mkActorHostType "cat" 2])
                  (world_of db_example [] []) in
  let added := AddActorHost store_example
                 (mkAddActorHostRequest "a2" "addr2" 1 [mkActorHostType "dog" 5])
                 (world_of db_example [] []) in
  (snd (fst failed) <> None /\ committed (snd failed) = db_example) /\
  (fst added = ("host-1", None) /\
   db_hosts_actor_types (committed (snd added))
   = [mkHostActorTypeRow "host-0" "cat" 30; mkHostActorTypeRow "host-1" "dog" 5]).
Proof.
  cbv zeta. split.
  - destruct (AddActorHost_is_all_or_nothing unit store_example
                (mkAddActorHostRequest "a2" "addr2" 1 [mkActorHostType "cat" 1;
                                                        mkActorHostType "cat" 2])
                (world_of db_example [] [])) as (_ & Hfail & _).
    split; [discriminate|]. apply Hfail. discriminate.
  - destruct (AddActorHost_is_all_or_nothing unit store_example
                (mkAddActorHostRequest "a2" "addr2" 1 [mkActorHostType "dog" 5])
                (world_of db_example [] [])) as (_ & _ & Hok).
    split; [reflexivity|]. rewrite Hok; reflexivity.
Defined.

(** ** Updating a host: when a transaction is opened *)

Lemma Exec_Pool_keeps_txlog s w : txlog (snd (Exec Pool s w)) = txlog w.
Proof.
  destruct (Exec_reply Pool s w) as (_ & _ & Hl & _).
  destruct (send_Pool s w) as (Hl' & _). congruence.
Qed.

Lemma trace_grows_begin w w' :
  trace_grows (fun _ => true) (snd (Begin w)) w' ->
  exists evs, trace w' = (trace w ++ EvBegin (fst (Begin w)) :: evs)%list.
Proof.
  intros (evs' & Ht & _). exists evs'.
  rewrite Ht, Begin_trace, <- app_assoc. reflexivity.
Qed.

Lemma UpdateActorHost_body_trace_grows {A} (p : PostgreSQL A) id properties actorTypes w1 :
  let body :=
    (let* zErr := updateHostsTable Tx id properties (TableName (metadata p) pgTableHosts) in
     match zErr with
     | Some e => ret (tt, Some e)
     | None =>
         let* (_, zErr) :=
           Exec Pool (SqlDeleteHostActorTypes (TableName (metadata p) pgTableHostsActorTypes)
                                              id) in
         match zErr with
         | Some e => ret (tt, Some (Errorf "failed to delete old host actor types" e))
         | None =>
             let* zErr := insertHostActorTypes Tx id actorTypes
                            (TableName (metadata p) pgTableHostsActorTypes) in
             match zErr with
             | Some e => ret (tt, Some e)
             | None => ret (tt, None)
             end
         end
     end) in
  trace_grows (fun _ => true) w1 (snd (body w1)).
Proof.
  cbv zeta. unfold bind.
  pose proof (updateHostsTable_trace_grows (fun _ => true) Tx id properties
                (TableName (metadata p) pgTableHosts) w1 (fun _ _ => eq_refl)) as G1.
  destruct (updateHostsTable Tx id _ _ w1) as [[e|] w2]; cbn [ret fst snd] in *; [exact G1|].
  set (del := SqlDeleteHostActorTypes _ _).
  pose proof (Exec_trace_grows (fun _ => true) Pool del w2 (fun _ => eq_refl)) as G2.
  destruct (Exec Pool del w2) as [[n [e|]] w3]; cbn [ret fst snd] in *;
    [eauto using trace_grows_trans|].
  destruct (insertHostActorTypes_Tx (fun _ => true) id actorTypes
              (TableName (metadata p) pgTableHostsActorTypes) w3 (fun _ _ => eq_refl))
    as (_ & G3 & _).
  destruct (insertHostActorTypes Tx id actorTypes _ w3) as [[e|] w4]; cbn [ret fst snd] in *;
    eauto using trace_grows_trans.
Qed.

Lemma executeInTransaction_trace {T} (zero : T) (fn : M (T * option error)) w :
  (forall w1, trace_grows (fun _ => true) w1 (snd (fn w1))) ->
  (exists evs,
      trace (snd (executeInTransaction zero fn w))
      = (trace w ++ EvBegin (fst (Begin w)) :: evs)%list) /\
  (forall e, fst (Begin w) = Some e ->
             executeInTransaction zero fn w
             = (zero, Some (Errorf "failed to begin transaction" e), snd (Begin w))).
Proof.
  intros Hfn.
  assert (Hroll : forall w0, trace_grows (fun _ => true) w0 (snd (rollback_deferred w0))).
  { intros w0. apply rollback_deferred_trace_grows; reflexivity. }
  unfold executeInTransaction, bind.
  pose proof (trace_grows_begin w) as Hbeg.
  destruct (Begin w) as [[e|] w1]; cbn [fst snd ret] in *.
  - split; [|intros e' He; inversion He; subst; reflexivity].
    apply Hbeg. apply trace_grows_refl.
  - split; [|discriminate].
    apply Hbeg.
    specialize (Hfn w1). destruct (fn w1) as [[res [e|]] w2]; cbn [fst snd ret] in *.
    + specialize (Hroll w2). destruct (rollback_deferred w2) as [u' w3].
      cbn [fst snd ret] in *. eauto using trace_grows_trans.
    + destruct (Commit_trace w2) as [HCt _].
      destruct (Commit w2) as [[e|] w3]; cbn [fst snd ret] in *.
      * assert (G : trace_grows (fun _ => true) w2 w3) by (eapply trace_grows_one; eauto).
        specialize (Hroll w3). destruct (rollback_deferred w3) as [u' w4].
        cbn [fst snd ret] in *. eauto using trace_grows_trans.
      * assert (G : trace_grows (fun _ => true) w2 w3) by (eapply trace_grows_one; eauto).
        eauto using trace_grows_trans.
Qed.

(** X3. [UpdateActorHost] opens a transaction exactly when the actor types
    are to be replaced. With [ActorTypes] nil, no event of the call belongs
    to a transaction (no begin, commit, rollback or statement on a
    transaction) and an open transaction of the world is left as it is. With
    [ActorTypes] present and a host id, the first thing the call does is to
    begin a transaction, and when that fails nothing else is sent. *)
Theorem UpdateActorHost_opens_transaction_only_for_actor_types :
  forall (A : Type) (p : PostgreSQL A) (actorHostID : string)
         (lastHealthCheck : option Z) (w : World),
    (let r := UpdateActorHost p actorHostID
                (mkUpdateActorHostRequest lastHealthCheck None) w in
     trace_grows no_tx w (snd r) /\ txlog (snd r) = txlog w) /\
    (forall actorTypes : list ActorHostType,
        actorHostID <> "" ->
        let r := UpdateActorHost p actorHostID
                   (mkUpdateActorHostRequest lastHealthCheck (Some actorTypes)) w in
        (exists evs, trace (snd r) = (trace w ++ EvBegin (fst (Begin w)) :: evs)%list) /\
        (forall e, fst (Begin w) = Some e ->
                   r = (Some (Errorf "failed to begin transaction" e), snd (Begin w)))).
Proof.
  intros A p id lhc w. split.
  - cbv zeta. unfold UpdateActorHost.
    destruct (_ || _); [split; [apply trace_grows_refl | reflexivity]|].
    cbn [upd_ActorTypes]. unfold bind.
    pose proof (updateHostsTable_trace_grows no_tx Pool id
                  (mkUpdateActorHostRequest lhc None)
                  (TableName (metadata p) pgTableHosts) w (fun _ _ => eq_refl)) as G.
    assert (Hl : txlog (snd (updateHostsTable Pool id (mkUpdateActorHostRequest lhc None)
                               (TableName (metadata p) pgTableHosts) w)) = txlog w).
    { unfold updateHostsTable. cbn [upd_LastHealthCheck].
      destruct lhc as [ts|]; [|reflexivity]. unfold bind.
      pose proof (Exec_Pool_keeps_txlog
                    (SqlUpdateHostHealthcheck (TableName (metadata p) pgTableHosts) id ts) w)
        as Hx.
      destruct (Exec Pool _ w) as [[n [e|]] w']; cbn [fst snd ret] in *; [exact Hx|].
      destruct (n =? 0); exact Hx. }
    destruct (updateHostsTable Pool id _ _ w) as [[e|] w']; cbn [fst snd ret] in *; auto.
  - intros actorTypes Hid r. subst r. unfold UpdateActorHost.
    apply String.eqb_neq in Hid. rewrite Hid.
    cbn [orb andb negb is_Some_b upd_LastHealthCheck upd_ActorTypes].
    rewrite andb_false_r.
    match goal with |- context [executeInTransaction tt ?b] => set (body := b) end.
    assert (Hbody : forall w1, trace_grows (fun _ => true) w1 (snd (body w1))).
    { intros w1. apply UpdateActorHost_body_trace_grows. }
    destruct (executeInTransaction_trace tt body w Hbody) as [Htr Hfail].
    unfold bind.
    destruct (executeInTransaction tt body w) as [[u err] w']; cbn [fst snd ret] in *.
    split.
    + destruct err; exact Htr.
    + intros e He. specialize (Hfail e He). inversion Hfail; subst. reflexivity.
Qed.

Lemma UpdateActorHost_opens_transaction_only_for_actor_types_witness :
  let w := world_of db_example [Some CtxCanceled] [] in
  UpdateActorHost store_example "host-0"
                  (mkUpdateActorHostRequest (Some 200) (Some [mkActorHostType "dog" 5])) w
  = (Some (Errorf "failed to begin transaction" CtxCanceled),
     mkWorld db_example None [] [] [EvBegin (Some CtxCanceled)]).
Proof.
  cbv zeta.
  destruct (UpdateActorHost_opens_transaction_only_for_actor_types
              unit store_example "host-0" (Some 200)
              (world_of db_example [Some CtxCanceled] [])) as [_ Htx].
  destruct (Htx [mkActorHostType "dog" 5]) as [_ Hfail]; [discriminate|].
  rewrite (Hfail CtxCanceled); reflexivity.
Defined.

(** ** Removing hosts and actors *)

Lemma Exec_value c s w :
  fst (Exec c s w)
  = match fst (send c s w) with
    | inl e => (0, Some e)
    | inr (Tag n) => (n, None)
    | inr _ => (0, None)
    end.
Proof.
  unfold Exec, bind. destruct (send c s w) as [r w1]; cbn [fst snd].
  match goal with |- context [traced c s ?res w1] =>
    destruct (traced_spec c s res w1) as (-> & _) end.
  reflexivity.
Qed.

Lemma Exec_Pool_rows s w n w' :
  Exec Pool s w = (n, None, w') -> n <> 0 ->
  fst (sem s (committed w)) = inr (Tag n) /\ committed w' = snd (sem s (committed w)).
Proof.
  intros Hex Hn.
  pose proof (Exec_value Pool s w) as Hv.
  destruct (Exec_reply Pool s w) as (_ & Hc & _).
  destruct (send_Pool s w) as (_ & Hok & _).
  rewrite Hex in Hv, Hc. cbn [fst snd] in *.
  destruct (fst (send Pool s w)) as [e|[m|id|row|]] eqn:Hs; inversion Hv; subst;
    try contradiction.
  destruct (Hok eq_refl) as [Hc' Hr]. split; congruence.
Qed.

Lemma send_Pool_no_fault s w :
  fst (next_fault w) = None ->
  fst (send Pool s w) = fst (sem s (committed w)).
Proof.
  intros Hf. unfold send, bind, run_stmt.
  pose proof (next_fault_keeps w) as (Hc & _).
  destruct (next_fault w) as [f w1]; cbn [fst snd] in *. subst f. rewrite Hc.
  destruct (sem s (committed w)); reflexivity.
Qed.

Lemma len_filter_nonzero {A} (f : A -> bool) (l : list A) :
  len (List.filter f l) <> 0 -> existsb f l = true.
Proof.
  induction l as [|a l IH]; cbn [List.filter existsb]; [intros H; contradiction H; reflexivity|].
  destruct (f a); [reflexivity|]. exact IH.
Qed.

Lemma filter_filter_negb {A} (f : A -> bool) (l : list A) :
  List.filter f (List.filter (fun a => negb (f a)) l) = [].
Proof.
  induction l as [|a l IH]; [reflexivity|]. cbn [List.filter].
  destruct (f a) eqn:E; cbn [negb List.filter]; [exact IH|]. rewrite E. exact IH.
Qed.

Lemma existsb_filter_negb {A} (f : A -> bool) (l : list A) :
  existsb f (List.filter (fun a => negb (f a)) l) = false.
Proof.
  induction l as [|a l IH]; [reflexivity|]. cbn [List.filter].
  destruct (f a) eqn:E; cbn [negb existsb]; [exact IH|]. rewrite E. exact IH.
Qed.

Lemma RemoveActorHost_ok_effect {A} (p : PostgreSQL A) (id : string) (w w' : World) :
  RemoveActorHost p id w = (None, w') ->
  host_exists (committed w) id = true /\
  host_exists (committed w') id = false /\
  rows_of_host id (db_hosts_actor_types (committed w')) = [] /\
  List.filter (fun a => String.eqb (act_host_id a) id) (db_actors (committed w')) = [] /\
  (fst (next_fault w') = None ->
   fst (RemoveActorHost p id w') = Some ErrActorHostNotFound).
Proof.
  unfold RemoveActorHost.
  destruct (String.eqb id ""); [discriminate|]. unfold bind.
  set (q := SqlDeleteHost (TableName (metadata p) pgTableHosts) id).
  destruct (Exec Pool q w) as [[n [e|]] w1] eqn:Hex; cbn [ret]; [discriminate|].
  destruct (Z.eqb_spec n 0) as [|Hn]; [discriminate|].
  intros H; inversion H; subst w1; clear H.
  destruct (Exec_Pool_rows q w n w' Hex Hn) as [Hr Hc].
  subst q. cbn [sem] in Hr, Hc. unfold undefined_table in Hr, Hc.
  destruct (negb (is_table (committed w) (TableName (metadata p) pgTableHosts) pgTableHosts))
    eqn:Htab; cbn [fst snd] in Hr, Hc; [discriminate|].
  inversion Hr as [Hlen].
  split. { apply len_filter_nonzero. unfold host_exists. rewrite Hlen. exact Hn. }
  rewrite Hc. unfold host_exists, rows_of_host. cbn [db_hosts db_hosts_actor_types db_actors].
  split; [apply existsb_filter_negb|].
  split; [apply (filter_filter_negb (fun r => String.eqb (hat_host_id r) id))|].
  split; [apply (filter_filter_negb (fun a => String.eqb (act_host_id a) id))|].
  intros Hf.
  pose proof (Exec_value Pool (SqlDeleteHost (TableName (metadata p) pgTableHosts) id) w')
    as Hv.
  rewrite (send_Pool_no_fault _ w' Hf), Hc in Hv. cbn [sem] in Hv.
  unfold is_table in *. cbn [db_prefix db_hosts] in Hv. rewrite Htab in Hv.
  cbn [fst] in Hv.
  rewrite (filter_filter_negb (fun h => String.eqb (host_id h) id)) in Hv.
  destruct (Exec Pool _ w') as [[n' err'] w2]; cbn [fst] in Hv. inversion Hv; subst.
  reflexivity.
Qed.

(** X4. When [RemoveActorHost] returns nil, the host was in the hosts table
    before the call and is not in it afterwards, and with it went its
    actor-type rows and the actors assigned to it (the foreign keys the
    source relies on). Removing the same host again, when the statement
    reaches the server, reports [ErrActorHostNotFound]. *)
Theorem RemoveActorHost_removes_an_existing_host :
  forall (A : Type) (p : PostgreSQL A) (actorHostID : string) (w w' : World),
    RemoveActorHost p actorHostID w = (None, w') ->
    host_exists (committed w) actorHostID = true /\
    host_exists (committed w') actorHostID = false /\
    rows_of_host actorHostID (db_hosts_actor_types (committed w')) = [] /\
    List.filter (fun a => String.eqb (act_host_id a) actorHostID) (db_actors (committed w'))
    = [] /\
    (fst (next_fault w') = None ->
     fst (RemoveActorHost p actorHostID w') = Some ErrActorHostNotFound).
Proof. intros A p actorHostID w w'. apply RemoveActorHost_ok_effect. Qed.

Lemma RemoveActorHost_removes_an_existing_host_witness :
  let first := RemoveActorHost store_example "host-0" (world_of db_example [] []) in
  fst first = None /\
  db_hosts (committed (snd first)) = [] /\
  db_hosts_actor_types (committed (snd first)) = [] /\
  fst (RemoveActorHost store_example "host-0" (snd first)) = Some ErrActorHostNotFound.
Proof.
  cbv zeta.
  destruct (RemoveActorHost_removes_an_existing_host
              unit store_example "host-0" (world_of db_example [] [])
              (snd (RemoveActorHost store_example "host-0" (world_of db_example [] []))))
    as (_ & _ & _ & _ & Hagain).
  - reflexivity.
  - split; [reflexivity|]. split; [reflexivity|]. split; [reflexivity|].
    apply Hagain. reflexivity.
Defined.

(** X5. When [RemoveActor] returns nil, the actor had an assignment before
    the call and has none afterwards, and the hosts and their actor types
    are untouched. Removing the same actor again, when the statement reaches
    the server, reports [ErrActorNotFound]. *)
Theorem RemoveActor_removes_an_existing_assignment :
  forall (A : Type) (p : PostgreSQL A) (ref : ActorRef) (w w' : World),
    RemoveActor p ref w = (None, w') ->
    let assigned (a : ActorRow) :=
      String.eqb (act_actor_type a) (ref_ActorType ref)
      && String.eqb (act_actor_id a) (ref_ActorID ref) in
    existsb assigned (db_actors (committed w)) = true /\
    existsb assigned (db_actors (committed w')) = false /\
    db_hosts (committed w') = db_hosts (committed w) /\
    db_hosts_actor_types (committed w') = db_hosts_actor_types (committed w) /\
    (fst (next_fault w') = None -> fst (RemoveActor p ref w') = Some ErrActorNotFound).
Proof.
  intros A p ref w w' Hrun assigned. revert Hrun. unfold RemoveActor.
  destruct (_ || _); [discriminate|]. unfold bind.
  set (q := SqlDeleteActor (TableName (metadata p) pgTableActors)
                           (ref_ActorType ref) (ref_ActorID ref)).
  destruct (Exec Pool q w) as [[n [e|]] w1] eqn:Hex; cbn [ret]; [discriminate|].
  destruct (Z.eqb_spec n 0) as [|Hn]; [discriminate|].
  intros H; inversion H; subst w1; clear H.
  destruct (Exec_Pool_rows q w n w' Hex Hn) as [Hr Hc].
  subst q. cbn [sem] in Hr, Hc. unfold undefined_table in Hr, Hc.
  destruct (negb (is_table (committed w) (TableName (metadata p) pgTableActors) pgTableActors))
    eqn:Htab; cbn [fst snd] in Hr, Hc; [discriminate|].
  inversion Hr as [Hlen].
  split. { apply (len_filter_nonzero assigned). subst assigned. rewrite Hlen. exact Hn. }
  rewrite Hc. cbn [db_hosts db_hosts_actor_types db_actors].
  split; [apply (existsb_filter_negb assigned)|].
  split; [reflexivity|]. split; [reflexivity|].
  intros Hf.
  pose proof (Exec_value Pool (SqlDeleteActor (TableName (metadata p) pgTableActors)
                                              (ref_ActorType ref) (ref_ActorID ref)) w')
    as Hv.
  rewrite (send_Pool_no_fault _ w' Hf), Hc in Hv. cbn [sem] in Hv.
  unfold is_table in *. cbn [db_prefix db_actors] in Hv. rewrite Htab in Hv.
  cbn [fst] in Hv.
  rewrite (filter_filter_negb assigned) in Hv.
  destruct (Exec Pool _ w') as [[n' err'] w2]; cbn [fst] in Hv. inversion Hv; subst.
  reflexivity.
Qed.

Lemma RemoveActor_removes_an_existing_assignment_witness :
  let ref := mkActorRef "cat" "id1" in
  let placed := snd (LookupActor store_example ref (world_of db_example [] [])) in
  let removed := RemoveActor store_example ref placed in
  db_actors (committed placed) = [mkActorRow "cat" "id1" "host-0" 30] /\
  fst removed = None /\
  db_actors (committed (snd removed)) = [] /\
  fst (RemoveActor store_example ref (snd removed)) = Some ErrActorNotFound.
Proof.
  cbv zeta.
  set (ref := mkActorRef "cat" "id1").
  set (placed := snd (LookupActor store_example ref (world_of db_example [] []))).
  destruct (RemoveActor_removes_an_existing_assignment
              unit store_example ref placed (snd (RemoveActor store_example ref placed)))
    as (_ & _ & _ & _ & Hagain).
  - reflexivity.
  - split; [reflexivity|]. split; [reflexivity|]. split; [reflexivity|].
    apply Hagain. reflexivity.
Defined.

(** ** What the lookup lets through *)

Lemma backoff_ctxdone (ok : option error -> bool) d w :
  forallb ok (ctxdone w) = true ->
  forallb ok (ctxdone (snd (backoff d w))) = true /\
  (forall e, fst (backoff d w) = Some e -> ok (Some e) = true).
Proof.
  unfold backoff, bind, ret, emit, next_ctxdone.
  destruct (ctxdone w) as [|c rest] eqn:Hc; cbn [fst snd ctxdone forallb].
  - rewrite Hc. split; [reflexivity | discriminate].
  - intros H. apply andb_true_iff in H as [Hc0 Hrest].
    split; [exact Hrest|]. intros e ->. exact Hc0.
Qed.

Lemma isUniqueViolationError_Errorf msg e :
  isUniqueViolationError (Some (Errorf msg e)) = isUniqueViolationError (Some e).
Proof. reflexivity. Qed.

Lemma LookupActor_loop_no_unique_violation n q res w :
  forallb (fun c => negb (isUniqueViolationError c)) (ctxdone w) = true ->
  isUniqueViolationError (snd (fst (LookupActor_loop n q res w))) = false.
Proof.
  revert res w. induction n as [|n IH]; intros res w Hctx; [reflexivity|].
  rewrite LookupActor_loop_unfold. unfold bind.
  pose proof (QueryRow_Scan_lookup_ctxdone Pool q res w) as Hd.
  destruct (QueryRow_Scan_lookup Pool q res w) as [[res1 [e|]] w1]; cbn [fst snd] in *;
    [|reflexivity].
  destruct (errors_Is_ErrNoRows e); [reflexivity|].
  destruct (isUniqueViolationError (Some e)) eqn:Huv.
  - rewrite <- Hd in Hctx.
    destruct (backoff_ctxdone _ (50 * Millisecond) w1 Hctx) as [Hrest Hdone].
    destruct (backoff (50 * Millisecond) w1) as [[ctxErr|] w2]; cbn [fst snd ret] in *.
    + apply negb_true_iff. apply Hdone. reflexivity.
    + apply IH. exact Hrest.
  - cbn [fst snd ret]. rewrite isUniqueViolationError_Errorf. exact Huv.
Qed.

(** X6. No uniqueness violation escapes [LookupActor]: when the error of the
    caller's context is never itself a uniqueness violation (it is
    [context.Canceled] or [context.DeadlineExceeded]), the error that
    [LookupActor] returns is not recognised by [isUniqueViolationError],
    whatever the database answers. *)
Theorem LookupActor_returns_no_unique_violation :
  forall (A : Type) (p : PostgreSQL A) (ref : ActorRef) (w : World),
    forallb (fun c => negb (isUniqueViolationError c)) (ctxdone w) = true ->
    isUniqueViolationError (snd (fst (LookupActor p ref w))) = false.
Proof.
  intros A p ref w Hctx. unfold LookupActor.
  destruct (_ || _); [reflexivity|].
  apply LookupActor_loop_no_unique_violation. exact Hctx.
Qed.

Lemma LookupActor_returns_no_unique_violation_witness :
  let w := world_of db_example
             [Some unique_violation; Some (Errorf "write failed" unique_violation);
              Some CtxDeadlineExceeded]
             [None; Some CtxCanceled] in
  isUniqueViolationError (snd (fst (LookupActor store_example (mkActorRef "cat" "id1") w)))
  = false /\
  snd (fst (LookupActor store_example (mkActorRef "cat" "id1") w)) = Some CtxCanceled.
Proof.
  cbv zeta. split; [|reflexivity].
  apply (LookupActor_returns_no_unique_violation unit store_example). reflexivity.
Defined.

Lemma retry_policy_waits q n evs err :
  retry_policy q n evs err ->
  0 <= total_backoff evs <= Z.of_nat n * (50 * Millisecond) /\
  forallb no_tx evs = true.
Proof.
  induction 1; unfold total_backoff in *;
    cbn [fold_right backoff_time forallb no_tx is_tx_event negb andb] in *;
    unfold Millisecond in *; try (split; [lia | reflexivity]).
  destruct IHretry_policy as [Hb Hf]. split; [lia | exact Hf].
Qed.

(** X7. [LookupActor] waits for at most 150 milliseconds in all, and nothing
    it does belongs to a transaction: it only sends its query on the pool
    and waits. *)
Theorem LookupActor_waits_at_most_150ms :
  forall (A : Type) (p : PostgreSQL A) (ref : ActorRef) (w : World),
    exists evs,
      trace (snd (LookupActor p ref w)) = (trace w ++ evs)%list /\
      0 <= total_backoff evs <= 150 * Millisecond /\
      forallb no_tx evs = true.
Proof.
  intros A p ref w. unfold LookupActor.
  destruct (_ || _).
  - exists []. cbn [ret snd]. rewrite app_nil_r. unfold Millisecond. cbn. repeat split; lia.
  - match goal with |- context [LookupActor_loop 3 ?q ?res w] =>
      destruct (LookupActor_loop_policy 2 q res w) as (evs & Htr & Hpol) end.
    exists evs. split; [exact Htr|].
    destruct (retry_policy_waits _ _ _ _ Hpol) as [Hb Hf].
    split; [|exact Hf]. unfold Millisecond in *. lia.
Qed.

(** ** Initialising and closing *)

Section InitFacts.

Context {PostgresAuthMetadata : Type}.
Variable auth_Reset : PostgresAuthMetadata -> PostgresAuthMetadata.
Variable auth_InitWithMetadata :
  gmap string string -> PostgresAuthMetadata -> option error * PostgresAuthMetadata.
Variable parseDuration : string -> option Z.
Variable lookupKey : gmap string string -> string -> option string.
Variable GetPgxPoolConfig : pgMetadata PostgresAuthMetadata -> option error.

Let init := Init auth_Reset auth_InitWithMetadata parseDuration lookupKey GetPgxPoolConfig.
Let parse := InitWithMetadata auth_Reset auth_InitWithMetadata parseDuration lookupKey.

Lemma Init_returns md (p : PostgreSQL PostgresAuthMetadata) w :
  exists err, fst (fst (init md p w)) = Returns err.
Proof.
  unfold init, Init, CompareAndSwap.
  destruct (running p); cbn [Bool.eqb negb fst snd ret metadata db running]; [eauto|].
  destruct (InitWithMetadata _ _ _ _ md (metadata p)) as [[e|] m]; unfold bind;
    cbn [log_Errorf emit fst snd ret]; [eauto|].
  destruct (GetPgxPoolConfig _) as [e|]; cbn [log_Error emit fst snd ret metadata]; [eauto|].
  unfold NewWithConfig, bind.
  destruct (next_fault w) as [[e|] w1]; cbn [emit fst snd ret log_Error]; [eauto|].
  unfold Ping. cbn [running db negb]. unfold PoolPing, bind.
  destruct (next_fault _) as [[e|] w2]; cbn [emit fst snd ret log_Error]; [eauto|].
  destruct (performMigrations _ _) as [[e|] w3]; cbn [emit fst snd ret log_Error]; eauto.
Qed.

Lemma Init_success md (p : PostgreSQL PostgresAuthMetadata) w :
  fst (fst (init md p w)) = Returns None ->
  let p' := snd (fst (init md p w)) in
  running p = false /\
  fst (parse md (metadata p)) = None /\
  p' = mkPostgreSQL (snd (parse md (metadata p))) (Some ConnectedPool) true /\
  trace (snd (init md p w))
  = (trace w ++ [EvConnect None; EvPing None;
                 EvMigrate (MetadataTableName (metadata p'))
                           (TableName (metadata p') pgTableHosts)
                           (TableName (metadata p') pgTableHostsActorTypes)
                           (TableName (metadata p') pgTableActors) None])%list.
Proof.
  unfold init, parse, Init, CompareAndSwap.
  destruct (running p); cbn [Bool.eqb negb fst snd ret metadata db running]; [discriminate|].
  destruct (InitWithMetadata _ _ _ _ md (metadata p)) as [[e|] m]; unfold bind;
    cbn [log_Errorf emit fst snd ret]; [discriminate|].
  destruct (GetPgxPoolConfig _) as [e|]; cbn [log_Error emit fst snd ret metadata];
    [discriminate|].
  unfold NewWithConfig, bind.
  pose proof (next_fault_keeps w) as (_ & _ & _ & Htr1).
  destruct (next_fault w) as [[e|] w1]; cbn [emit fst snd ret log_Error] in *; [discriminate|].
  unfold Ping. cbn [running db negb]. unfold PoolPing, bind.
  match goal with |- context [next_fault ?w0] =>
    pose proof (next_fault_keeps w0) as (_ & _ & _ & Htr2);
    destruct (next_fault w0) as [[e|] w2] end;
    cbn [emit fst snd ret log_Error trace] in *; [discriminate|].
  unfold performMigrations, Migrations_Perform, bind. cbn [metadata].
  match goal with |- context [next_fault ?w0] =>
    pose proof (next_fault_keeps w0) as (_ & _ & _ & Htr3);
    destruct (next_fault w0) as [[e|] w3] end;
    cbn [emit fst snd ret log_Error trace metadata] in *; [discriminate|].
  intros _. repeat split.
  rewrite Htr3, Htr2, Htr1, <- !app_assoc. reflexivity.
Qed.

End InitFacts.

(** X8. When [Init] returns nil, the store was not running before, it is
    running now, its pool is connected, its metadata are the parsed ones with
    a timeout of at least one second, and [Init] has done exactly three
    things in this order: connect, ping, and run the migrations with the
    configured metadata table and the three prefixed table names. *)
Theorem Init_success_leaves_a_usable_store :
  forall (A : Type) (auth_Reset : A -> A)
         (auth_InitWithMetadata : gmap string string -> A -> option error * A)
         (parseDuration : string -> option Z)
         (lookupKey : gmap string string -> string -> option string)
         (GetPgxPoolConfig : pgMetadata A -> option error)
         (md : gmap string string) (p : PostgreSQL A) (w : World),
    let r := Init auth_Reset auth_InitWithMetadata parseDuration lookupKey GetPgxPoolConfig md p w in
    let p' := snd (fst r) in
    fst (fst r) = Returns None ->
    running p = false /\
    running p' = true /\
    db p' = Some ConnectedPool /\
    metadata p'
    = snd (InitWithMetadata auth_Reset auth_InitWithMetadata parseDuration lookupKey md (metadata p)) /\
    1 * Second <= Timeout (metadata p') /\
    trace (snd r)
    = (trace w ++ [EvConnect None; EvPing None;
                   EvMigrate (MetadataTableName (metadata p'))
                             (TableName (metadata p') pgTableHosts)
                             (TableName (metadata p') pgTableHostsActorTypes)
                             (TableName (metadata p') pgTableActors) None])%list.
Proof.
  intros A reset authInit parse lookup getCfg md p w r p' Hok. subst r p'.
  destruct (Init_success reset authInit parse lookup getCfg md p w Hok) as (Hr & Hparse & Hp & Htr).
  cbv zeta in Hp. split; [exact Hr|].
  rewrite Hp in *. cbn [running db metadata] in *.
  split; [reflexivity|]. split; [reflexivity|]. split; [reflexivity|].
  split; [apply InitWithMetadata_ok_Timeout; exact Hparse | exact Htr].
Qed.

Lemma Init_success_leaves_a_usable_store_witness :
  let r := Init_example {[ "tablePrefix" := "dapr_" ]} store_new (world_of db_example [] []) in
  fst (fst r) = Returns None /\
  db (snd (fst r)) = Some ConnectedPool /\
  trace (snd r)
  = [EvConnect None; EvPing None;
     EvMigrate "dapr_metadata" "dapr_hosts" "dapr_hosts_actor_types" "dapr_actors" None].
Proof.
  cbv zeta. unfold Init_example.
  destruct (Init_success_leaves_a_usable_store
              unit (fun a => a) auth_accept parseDuration_example lookupKey_example (fun _ => None)
              {[ "tablePrefix" := "dapr_" ]} store_new (world_of db_example [] []))
    as (_ & _ & Hdb & _ & _ & Htr).
  - reflexivity.
  - split; [reflexivity|]. split; [exact Hdb|]. rewrite Htr. reflexivity.
Defined.

(** X9. [Init] never panics: whatever the metadata, the state of the store
    and the answers of the server, it returns. The ping it sends comes after
    the pool has been set. *)
Theorem Init_never_panics :
  forall (A : Type) (auth_Reset : A -> A)
         (auth_InitWithMetadata : gmap string string -> A -> option error * A)
         (parseDuration : string -> option Z)
         (lookupKey : gmap string string -> string -> option string)
         (GetPgxPoolConfig : pgMetadata A -> option error)
         (md : gmap string string) (p : PostgreSQL A) (w : World),
    exists err,
      fst (fst (Init auth_Reset auth_InitWithMetadata parseDuration lookupKey GetPgxPoolConfig md p w))
      = Returns err.
Proof. intros. apply Init_returns. Qed.

(** X10. [Close] comes back exactly when there is nothing to close: some
    number of nested calls suffices if and only if the store is not running
    or has no pool; and whenever [Close] returns, it returns nil. *)
Theorem Close_returns_iff_nothing_to_close :
  forall (A : Type) (p : PostgreSQL A),
    ((exists fuel, Close fuel p <> None) <-> running p = false \/ db p = None) /\
    (forall fuel err, Close fuel p = Some err -> err = None).
Proof.
  intros A p. split; [split|].
  - intros [fuel Hret].
    destruct (running p) eqn:Hr; [|left; reflexivity].
    destruct (db p) as [pool|] eqn:Hd; [|right; reflexivity].
    contradiction Hret. apply (Close_running_never_returns p pool); assumption.
  - intros [Hr | Hd]; exists 1%nat; cbn [Close].
    + rewrite Hr. discriminate.
    + rewrite Hd. destruct (running p); discriminate.
  - intros fuel. induction fuel as [|fuel IH]; intros err; cbn [Close]; [discriminate|].
    destruct (running p); cbn [negb].
    + destruct (db p).
      * destruct (Close fuel p) as [err'|]; [|discriminate].
        intros H. inversion H; subst. apply IH. reflexivity.
      * intros H. inversion H. reflexivity.
    + intros H. inversion H. reflexivity.
Qed.

Lemma Close_returns_iff_nothing_to_close_witness :
  Close 1 store_new = Some None /\
  Close 1 (mkPostgreSQL metadata_zero None true) = Some None.
Proof.
  destruct (Close_returns_iff_nothing_to_close unit store_new) as [_ Hnil].
  destruct (Close_returns_iff_nothing_to_close unit (mkPostgreSQL metadata_zero None true))
    as [_ Hnil'].
  split.
  - destruct (Close 1 store_new) as [err|] eqn:E; [|discriminate E].
    rewrite (Hnil 1%nat err E). reflexivity.
  - destruct (Close 1 (mkPostgreSQL metadata_zero None true)) as [err|] eqn:E;
      [|discriminate E].
    rewrite (Hnil' 1%nat err E). reflexivity.
Defined.

(** ** Table names *)

Lemma append_injective (prefix a b : string) : prefix +:+ a = prefix +:+ b -> a = b.
Proof.
  induction prefix as [|ch prefix IH]; cbn; [auto|].
  intros H. injection H as H. apply IH. exact H.
Qed.

(** X11. Under one configuration two logical tables never share a physical
    name: [TableName] is injective in the table, so the hosts, actor-types
    and actors tables of a store are three different tables whatever the
    prefix. *)
Theorem TableName_is_injective :
  forall (A : Type) (m : pgMetadata A),
    (forall t1 t2 : pgTable, TableName m t1 = TableName m t2 -> t1 = t2) /\
    TableName m pgTableHosts <> TableName m pgTableHostsActorTypes /\
    TableName m pgTableHosts <> TableName m pgTableActors /\
    TableName m pgTableHostsActorTypes <> TableName m pgTableActors.
Proof.
  intros A m.
  assert (Hinj : forall t1 t2 : pgTable, TableName m t1 = TableName m t2 -> t1 = t2).
  { intros t1 t2. unfold TableName. apply append_injective. }
  split; [exact Hinj|].
  repeat split; intros H; apply Hinj in H; discriminate H.
Qed.

Lemma TableName_is_injective_witness :
  TableName (mkMetadata tt "dapr_" "dapr_metadata" (20 * Second)) "hosts"
  = TableName (mkMetadata tt "dapr_" "dapr_metadata" (20 * Second)) pgTableHosts /\
  "hosts" = pgTableHosts.
Proof.
  destruct (TableName_is_injective unit (mkMetadata tt "dapr_" "dapr_metadata" (20 * Second)))
    as [Hinj _].
  split; [reflexivity|]. apply Hinj. reflexivity.
Defined.

(** ** Cleaning up after the conformance tests *)

Section ConftestsFacts.

Context {PostgresAuthMetadata : Type}.
Variable FunctionName : pgMetadata PostgresAuthMetadata -> string -> string.
Variable pgFunctionFetchReminders : string.

Lemma test_sent_app tr1 tr2 : test_sent (tr1 ++ tr2) = (test_sent tr1 ++ test_sent tr2)%list.
Proof. unfold test_sent. apply flat_map_app. Qed.

Lemma failures_app l1 l2 : failures (l1 ++ l2) = (failures l1 ++ failures l2)%list.
Proof. unfold failures. apply flat_map_app. Qed.

Lemma test_Exec_spec sql w :
  fst (test_Exec sql w) = hd None (test_faults w) /\
  test_faults (snd (test_Exec sql w)) = tl (test_faults w) /\
  test_trace (snd (test_Exec sql w))
  = (test_trace w ++ [TestExec sql (hd None (test_faults w))])%list.
Proof. unfold test_Exec. destruct w as [[|f fs] tr]; cbn; auto. Qed.

Lemma Cleanup_loop_spec (p : PostgreSQL PostgresAuthMetadata) tables errs w :
  let r := Cleanup_loop p tables errs w in
  fst r = (errs ++ failures (firstn (length tables) (test_faults w)))%list /\
  test_faults (snd r) = skipn (length tables) (test_faults w) /\
  test_sent (test_trace (snd r))
  = (test_sent (test_trace w)
     ++ map (fun table => "DROP TABLE IF EXISTS " +:+ TableName (metadata p) table) tables)%list.
Proof.
  revert errs w. induction tables as [|table rest IH]; intros errs w.
  - cbn. rewrite !app_nil_r. auto.
  - cbn [Cleanup_loop].
    set (w0 := test_emit _ w).
    destruct (test_Exec_spec ("DROP TABLE IF EXISTS " +:+ TableName (metadata p) table) w0)
      as (Hf & Hrest & Htr).
    destruct (test_Exec _ w0) as [err w1]; cbn [fst snd] in *.
    assert (Hsent : test_sent (test_trace w1)
                    = (test_sent (test_trace w)
                       ++ ["DROP TABLE IF EXISTS " +:+ TableName (metadata p) table])%list).
    { rewrite Htr. subst w0. cbn [test_emit test_trace].
      rewrite !test_sent_app. cbn. rewrite app_nil_r. reflexivity. }
    subst w0. cbn [test_emit test_faults] in *.
    destruct (test_faults w) as [|f fs] eqn:Hfs; cbn [hd tl] in *; subst err.
    + specialize (IH errs w1). cbv zeta in IH. destruct IH as (H1 & H2 & H3).
      rewrite Hrest in H1, H2. rewrite firstn_nil in *. rewrite skipn_nil in *.
      cbn [length firstn skipn failures flat_map].
      rewrite H1, H2, H3, Hsent, <- app_assoc. auto.
    + destruct f as [e|].
      * specialize (IH (errs ++ [e])%list (test_emit (TestErrorf "Failed to remove table %s: %v"
                                                              table e) w1)).
        cbv zeta in IH. destruct IH as (H1 & H2 & H3).
        cbn [test_emit test_faults test_trace] in *. rewrite Hrest in H1, H2.
        rewrite test_sent_app in H3. cbn [test_sent flat_map app] in H3.
        rewrite app_nil_r in H3.
        cbn [length firstn skipn]. rewrite H1, H2, H3, Hsent, <- !app_assoc. auto.
      * specialize (IH errs w1). cbv zeta in IH. destruct IH as (H1 & H2 & H3).
        rewrite Hrest in H1, H2.
        cbn [length firstn skipn]. rewrite H1, H2, H3, Hsent, <- !app_assoc. auto.
Qed.

Lemma Cleanup_spec (p : PostgreSQL PostgresAuthMetadata) w :
  let r := Cleanup FunctionName pgFunctionFetchReminders p w in
  fst r = errors_Join (failures (firstn 6 (test_faults w))) /\
  test_faults (snd r) = skipn 6 (test_faults w) /\
  test_sent (test_trace (snd r))
  = (test_sent (test_trace w)
     ++ Cleanup_statements FunctionName pgFunctionFetchReminders p)%list.
Proof.
  cbv zeta. unfold Cleanup, Cleanup_statements.
  destruct (Cleanup_loop_spec p Cleanup_tables [] w) as (H1 & H2 & H3).
  change (length Cleanup_tables) with 5%nat in *.
  destruct (Cleanup_loop p Cleanup_tables [] w) as [errs w1]; cbn [fst snd app] in *.
  set (sql := "DROP FUNCTION IF EXISTS " +:+ _ +:+ _).
  set (w2 := test_emit _ w1).
  destruct (test_Exec_spec sql w2) as (Hf & Hrest & Htr).
  assert (Hsent : test_sent (test_trace (snd (test_Exec sql w2)))
                  = (test_sent (test_trace w1) ++ [sql])%list).
  { rewrite Htr. subst w2. cbn [test_emit test_trace].
    rewrite !test_sent_app. cbn. rewrite app_nil_r. reflexivity. }
  destruct (test_Exec sql w2) as [err w3]; cbn [fst snd] in *.
  subst w2. cbn [test_emit test_faults] in *. rewrite H2 in Hf, Hrest.
  assert (Hsix : firstn 6 (test_faults w)
                 = (firstn 5 (test_faults w)
                    ++ match hd None (skipn 5 (test_faults w)) with
                       | Some e => [Some e]
                       | None => firstn 1 (skipn 5 (test_faults w))
                       end)%list).
  { destruct (test_faults w) as [|a [|b [|c [|d [|e0 [|[g|] l]]]]]]; reflexivity. }
  assert (Hskip : tl (skipn 5 (test_faults w)) = skipn 6 (test_faults w)).
  { destruct (test_faults w) as [|a [|b [|c [|d [|e0 [|g l]]]]]]; reflexivity. }
  assert (Hnone : hd None (skipn 5 (test_faults w)) = None ->
                  failures (firstn 1 (skipn 5 (test_faults w))) = []).
  { destruct (skipn 5 (test_faults w)) as [|[g|] l]; cbn; [reflexivity | discriminate | reflexivity]. }
  rewrite Hsix, failures_app. subst err.
  destruct (hd None (skipn 5 (test_faults w))) as [e|] eqn:Hh.
  - cbn [test_emit test_faults test_trace fst snd].
    rewrite test_sent_app. cbn [test_sent flat_map app]. rewrite app_nil_r.
    rewrite Hrest, Hskip, Hsent, H3, H1, <- !app_assoc. cbn [failures flat_map app].
    repeat split.
  - cbn [fst snd]. rewrite Hrest, Hskip, Hsent, H3, H1, (Hnone eq_refl), app_nil_r,
      <- !app_assoc.
    repeat split.
Qed.

End ConftestsFacts.

(** X12. [Cleanup] does not stop at the first failure: whatever fails, it
    sends its six statements, in the same order (the reminders, actors,
    actor-types and hosts tables, the table named by the prefix followed by
    "metadata", then the function), one round trip each. It returns nil
    exactly when none of the six failed, and otherwise the join of the
    failures in the order they happened. *)
Theorem Cleanup_sends_all_statements_and_joins_failures :
  forall (A : Type) (FunctionName : pgMetadata A -> string -> string)
         (pgFunctionFetchReminders : string) (p : PostgreSQL A) (w : TestWorld),
    let r := Cleanup FunctionName pgFunctionFetchReminders p w in
    let outcomes := firstn 6 (test_faults w) in
    test_sent (test_trace (snd r))
    = (test_sent (test_trace w)
       ++ Cleanup_statements FunctionName pgFunctionFetchReminders p)%list /\
    test_faults (snd r) = skipn 6 (test_faults w) /\
    (fst r = None <-> failures outcomes = []) /\
    (forall errs, fst r = Some errs -> errs = failures outcomes).
Proof.
  intros A FunctionName fetch p w r outcomes. subst r outcomes.
  destruct (Cleanup_spec FunctionName fetch p w) as (Hres & Hfaults & Hsent).
  split; [exact Hsent|]. split; [exact Hfaults|].
  rewrite Hres. unfold errors_Join.
  destruct (failures (firstn 6 (test_faults w))) as [|e errs].
  - split; [tauto | discriminate].
  - split; [split; discriminate|]. intros errs' H. inversion H. reflexivity.
Qed.

Lemma Cleanup_sends_all_statements_and_joins_failures_witness :
  let w := mkTestWorld [None; Some CtxCanceled; None; None; None; Some CtxDeadlineExceeded] [] in
  let r := Cleanup (fun m name => TablePrefix m +:+ name) "fetch_reminders" store_example w in
  fst r = Some [CtxCanceled; CtxDeadlineExceeded] /\
  test_sent (test_trace (snd r))
  = ["DROP TABLE IF EXISTS reminders"; "DROP TABLE IF EXISTS actors";
     "DROP TABLE IF EXISTS hosts_actor_types"; "DROP TABLE IF EXISTS hosts";
     "DROP TABLE IF EXISTS metadata";
     "DROP FUNCTION IF EXISTS fetch_reminders(interval,interval,uuid[],text[],interval,integer);"].
Proof.
  cbv zeta.
  destruct (Cleanup_sends_all_statements_and_joins_failures
              unit (fun m name => TablePrefix m +:+ name) "fetch_reminders" store_example
              (mkTestWorld [None; Some CtxCanceled; None; None; None;
                            Some CtxDeadlineExceeded] []))
    as (Hsent & _ & _ & Herrs).
  split; [|rewrite Hsent; reflexivity].
  destruct (fst (Cleanup _ _ _ _)) as [errs|] eqn:E; [|discriminate E].
  rewrite (Herrs errs eq_refl). reflexivity.
Defined.

(** ** Key references of the Kubernetes secrets provider *)

(** X13. [parseKeyString] never succeeds: it splits its own, still empty,
    result [key] instead of its parameter, so for every default namespace and
    every key reference it returns empty results and the error that the key
    has no namespace. *)
Theorem parseKeyString_always_fails :
  forall defaultNamespace param : string,
    parseKeyString defaultNamespace param
    = ("", "", "",
       Some (ErrorsNew "key doesn't have a namespace and the default namespace isn't set")).
Proof. intros defaultNamespace param. reflexivity. Qed.

(** ** The metadata of the SQLite name resolver *)

(** X14. When the metadata parser of the SQLite name resolver returns nil,
    the instance properties are set (a name, an address, a port other than
    zero, as the runtime passed them), both table names are valid
    identifiers, the update interval is a whole number of seconds, and the
    difference between update interval and timeout, computed on 64 bits, is
    at least one second; when that difference does not overflow, the update
    interval is at least one second longer than the timeout. *)
Theorem Sqlite_InitWithMetadata_success_is_validated :
  forall (AuthMeta Configuration : Type)
         (auth_Reset : AuthMeta -> AuthMeta)
         (auth_Validate : AuthMeta -> option error * AuthMeta)
         (auth_IsMemory : AuthMeta -> bool)
         (auth_Timeout : AuthMeta -> Z)
         (ValidIdentifier : string -> bool)
         (DecodeMetadata : Configuration -> Sqlite.sqliteMetadata AuthMeta
                           -> option error * Sqlite.sqliteMetadata AuthMeta)
         (meta : Sqlite.Metadata Configuration) (m : Sqlite.sqliteMetadata AuthMeta),
    let r := Sqlite.InitWithMetadata AuthMeta auth_Reset auth_Validate auth_IsMemory
                                     auth_Timeout ValidIdentifier Configuration
                                     DecodeMetadata meta m in
    let m' := snd (fst r) in
    fst (fst r) = None ->
    Sqlite.GetAppID Configuration meta <> "" /\
    Sqlite.GetHostAddress Configuration meta <> "" /\
    Sqlite.GetDaprPort Configuration meta <> 0 /\
    ValidIdentifier (Sqlite.TableName AuthMeta m') = true /\
    ValidIdentifier (Sqlite.MetadataTableName AuthMeta m') = true /\
    Z.rem (Sqlite.UpdateInterval AuthMeta m') Second = 0 /\
    Second <= wrap64 (Sqlite.UpdateInterval AuthMeta m'
                      - auth_Timeout (Sqlite.Auth AuthMeta m')) /\
    (- 2 ^ 63 <= Sqlite.UpdateInterval AuthMeta m' - auth_Timeout (Sqlite.Auth AuthMeta m')
     < 2 ^ 63 ->
     auth_Timeout (Sqlite.Auth AuthMeta m') + Second <= Sqlite.UpdateInterval AuthMeta m').
Proof.
  intros AuthMeta Configuration reset validate isMemory timeout validId decode meta m r m'.
  subst r m'. unfold Sqlite.InitWithMetadata.
  cbn [Sqlite.set_instance Sqlite.appID Sqlite.hostAddress Sqlite.port].
  destruct (String.eqb_spec (Sqlite.GetAppID Configuration meta) "") as [|Hname];
    [discriminate|].
  destruct (String.eqb_spec (Sqlite.GetHostAddress Configuration meta) "") as [|Haddr];
    [discriminate|].
  destruct (Z.eqb_spec (Sqlite.GetDaprPort Configuration meta) 0) as [|Hport];
    [discriminate|].
  destruct (decode _ _) as [[e|] m1]; cbn [fst snd]; [discriminate|].
  destruct (validate _) as [[e|] a]; cbn [fst snd]; [discriminate|].
  cbn [Sqlite.TableName Sqlite.MetadataTableName Sqlite.UpdateInterval Sqlite.Auth].
  destruct (validId (Sqlite.TableName AuthMeta m1)) eqn:Ht; cbn [negb fst snd];
    [|discriminate].
  destruct (validId (Sqlite.MetadataTableName AuthMeta m1)) eqn:Hm; cbn [negb fst snd];
    [|discriminate].
  unfold Duration_Truncate. change (Second <=? 0) with false. cbn match.
  destruct (Z.eqb_spec (Sqlite.UpdateInterval AuthMeta m1)
                       (Sqlite.UpdateInterval AuthMeta m1
                        - Z.rem (Sqlite.UpdateInterval AuthMeta m1) Second)) as [Hrem|];
    cbn [negb fst snd]; [|discriminate].
  destruct (Z.ltb_spec (wrap64 (Sqlite.UpdateInterval AuthMeta m1 - timeout a)) Second)
    as [|Hdiff]; cbn [fst snd]; [discriminate|].
  assert (Hgoal : Z.rem (Sqlite.UpdateInterval AuthMeta m1) Second = 0) by lia.
  assert (Hwrap : - 2 ^ 63 <= Sqlite.UpdateInterval AuthMeta m1 - timeout a < 2 ^ 63 ->
                  timeout a + Second <= Sqlite.UpdateInterval AuthMeta m1).
  { intros Hrange. unfold wrap64 in Hdiff.
    rewrite Z.mod_small in Hdiff by lia. lia. }
  destruct (isMemory a); cbn [fst snd Sqlite.TableName Sqlite.MetadataTableName
                               Sqlite.UpdateInterval Sqlite.Auth];
    intros _; repeat split; assumption.
Qed.

Lemma Sqlite_InitWithMetadata_success_is_validated_witness :
  let decode := fun (c : Z) (m : Sqlite.sqliteMetadata Z) =>
                  (None : option error,
                   Sqlite.mkSqliteMetadata Z (Sqlite.Auth Z m) (Sqlite.TableName Z m)
                     (Sqlite.MetadataTableName Z m) c (Sqlite.CleanupInterval Z m)
                     (Sqlite.appID Z m) (Sqlite.hostAddress Z m) (Sqlite.port Z m)) in
  let init := Sqlite.InitWithMetadata Z (fun _ => 20 * Second) (fun a => (None, a))
                                      (fun _ => false) (fun a => a) (fun _ => true) Z decode in
  let ok := init (Sqlite.mkMetadata Z "app" "10.0.0.1" 3500 (30 * Second))
                 (Sqlite.mkSqliteMetadata Z 0 "" "" 0 0 "" "" 0) in
  fst (fst ok) = None /\
  20 * Second + Second <= Sqlite.UpdateInterval Z (snd (fst ok)) /\
  fst (fst (init (Sqlite.mkMetadata Z "app" "10.0.0.1" 3500 (20 * Second + 1))
                 (Sqlite.mkSqliteMetadata Z 0 "" "" 0 0 "" "" 0)))
  = Some (ErrorsNew "update interval must not contain fractions of seconds").
Proof.
  cbv zeta. split; [reflexivity|]. split; [|reflexivity].
  edestruct (Sqlite_InitWithMetadata_success_is_validated
               Z Z (fun _ => 20 * Second) (fun a => (None, a)) (fun _ => false) (fun a => a)
               (fun _ => true)
               (fun (c : Z) (m : Sqlite.sqliteMetadata Z) =>
                  (None : option error,
                   Sqlite.mkSqliteMetadata Z (Sqlite.Auth Z m) (Sqlite.TableName Z m)
                     (Sqlite.MetadataTableName Z m) c (Sqlite.CleanupInterval Z m)
                     (Sqlite.appID Z m) (Sqlite.hostAddress Z m) (Sqlite.port Z m)))
               (Sqlite.mkMetadata Z "app" "10.0.0.1" 3500 (30 * Second))
               (Sqlite.mkSqliteMetadata Z 0 "" "" 0 0 "" "" 0))
    as (_ & _ & _ & _ & _ & _ & _ & Hbound).
  - reflexivity.
  - apply Hbound. vm_compute. split; [discriminate | reflexivity].
Defined.

(** ** Replacing actor types; registering and removing *)

Lemma replay_app l1 l2 d : replay (l1 ++ l2) d = replay l2 (replay l1 d).
Proof. unfold replay. apply fold_left_app. Qed.

Lemma send_Tx_ok s w :
  reply_err (fst (send Tx s w)) = None ->
  exists log, txlog w = Some log /\
              fst (send Tx s w) = fst (sem s (replay log (committed w))).
Proof.
  unfold send, bind, ret, run_stmt.
  pose proof (next_fault_keeps w) as (Hc & Ht & _).
  destruct (next_fault w) as [[e|] w1]; cbn [fst snd] in *; [discriminate|].
  rewrite Ht, Hc. destruct (txlog w) as [log|]; cbn [fst snd reply_err]; [|discriminate].
  destruct (fst (sem s (replay log (committed w)))) as [e|r] eqn:Hs; cbn [fst reply_err];
    [discriminate|].
  intros _. exists log. split; [reflexivity | symmetry; exact Hs].
Qed.

Lemma sem_copy_ok t rows d r :
  fst (sem (SqlCopyHostActorTypes t rows) d) = inr r ->
  db_hosts_actor_types (snd (sem (SqlCopyHostActorTypes t rows) d))
  = (db_hosts_actor_types d ++ rows)%list.
Proof.
  cbn [sem]. unfold undefined_table.
  repeat (destruct (negb _); cbn [fst snd]; [discriminate|]). reflexivity.
Qed.

Lemma insertHostActorTypes_Tx_ok id actorTypes t w w' log :
  insertHostActorTypes Tx id actorTypes t w = (None, w') ->
  txlog w = Some log ->
  committed w' = committed w /\
  exists log', txlog w' = Some (log ++ log')%list /\
               db_hosts_actor_types (replay log' (replay log (committed w)))
               = (db_hosts_actor_types (replay log (committed w))
                  ++ map (fun a => mkHostActorTypeRow id (ActorType a) (IdleTimeout a))
                         actorTypes)%list.
Proof.
  unfold insertHostActorTypes. rewrite len_eqb_0.
  destruct actorTypes as [|a rest].
  - cbn [ret]. intros H Hl. inversion H; subst. split; [reflexivity|].
    exists []. rewrite !app_nil_r. split; [exact Hl | reflexivity].
  - unfold bind, CopyFrom. set (s := SqlCopyHostActorTypes t _).
    pose proof (Exec_value Tx s w) as Hv.
    destruct (Exec_reply Tx s w) as (He & Hc & Hx & _).
    destruct (send_Tx s w) as (Hc' & Hok & _).
    pose proof (send_Tx_ok s w) as Hsem.
    destruct (Exec Tx s w) as [[n [e|]] w1]; cbn [fst snd ret] in *; [discriminate|].
    destruct (negb _); cbn [ret]; [discriminate|].
    intros H Hl. inversion H; subst w1; clear H.
    split; [congruence|].
    destruct (Hok (eq_sym He)) as (log0 & Hl0 & Hl1).
    destruct (Hsem (eq_sym He)) as (log1 & Hl2 & Hr).
    rewrite Hl in Hl0, Hl2. inversion Hl0; inversion Hl2; subst log0 log1.
    exists [s]. split; [congruence|].
    destruct (fst (send Tx s w)) as [e|r] eqn:Hs; [discriminate|].
    subst s. cbn [replay fold_left]. apply (sem_copy_ok t _ _ r). symmetry. exact Hr.
Qed.

(** X15. A successful [UpdateActorHost] with actor types replaces the actor
    types of the host wholesale: afterwards the actor-types table holds the
    rows of the other hosts as before, followed by one row per actor type of
    the request, in the order of the request, under the host id. *)
Theorem UpdateActorHost_replaces_actor_types :
  forall (A : Type) (p : PostgreSQL A) (actorHostID : string) (lastHealthCheck : option Z)
         (actorTypes : list ActorHostType) (w w' : World),
    UpdateActorHost p actorHostID
                    (mkUpdateActorHostRequest lastHealthCheck (Some actorTypes)) w
    = (None, w') ->
    db_hosts_actor_types (committed w')
    = (rows_of_other_hosts actorHostID (db_hosts_actor_types (committed w))
       ++ map (fun a => mkHostActorTypeRow actorHostID (ActorType a) (IdleTimeout a))
              actorTypes)%list.
Proof.
  intros A p id lhc actorTypes w w'. unfold UpdateActorHost.
  destruct (_ || _); [discriminate|].
  cbn [upd_ActorTypes]. unfold executeInTransaction, bind.
  destruct (Begin w) as [[e|] w1] eqn:HB; cbn [ret]; [discriminate|].
  destruct (Begin_ok w w1 HB) as (Hc1 & Hl1 & _).
  destruct (updateHostsTable Tx id _ _ w1) as [[e|] w2] eqn:HU; cbn [ret].
  { destruct (rollback_deferred w2); discriminate. }
  destruct (updateHostsTable_Tx_ok _ _ _ _ _ HU Hl1) as (Hc2 & log & Hl2 & Hrep).
  set (del := SqlDeleteHostActorTypes (TableName (metadata p) pgTableHostsActorTypes) id).
  pose proof (Exec_reply Pool del w2) as (He & Hw & Hx & _).
  destruct (send_Pool del w2) as (Hl3 & Hok & _).
  destruct (Exec Pool del w2) as [[n [e|]] w3]; cbn [fst snd ret] in *.
  { destruct (rollback_deferred w3); discriminate. }
  destruct (Hok (eq_sym He)) as [Hc3 Hr].
  rewrite <- Hw in Hc3. rewrite <- Hx in Hl3.
  destruct (insertHostActorTypes Tx id actorTypes _ w3) as [[e|] w4] eqn:HI; cbn [ret].
  { destruct (rollback_deferred w4); discriminate. }
  assert (Hl3' : txlog w3 = Some log) by congruence.
  destruct (insertHostActorTypes_Tx_ok _ _ _ _ _ _ HI Hl3') as (Hc4 & log' & Hl4 & Hrows).
  destruct (Commit w4) as [[e|] w5] eqn:HC.
  { destruct (rollback_deferred w5); discriminate. }
  intros H; inversion H; subst; clear H.
  destruct (Commit_ok _ _ HC) as (log5 & Hl5 & Hc5 & _).
  rewrite Hl4 in Hl5. inversion Hl5; subst log5.
  destruct (fst (send Pool del w2)) as [e|r] eqn:Hrt; [discriminate|].
  subst del.
  rewrite Hc5, replay_app, Hc4, Hrows, Hrep, Hc3,
    (sem_delete_actor_types _ _ _ r (eq_sym Hr)), Hc2, Hc1.
  reflexivity.
Qed.

Lemma UpdateActorHost_replaces_actor_types_witness :
  let r := UpdateActorHost store_example "host-0"
             (mkUpdateActorHostRequest (Some 200)
                (Some [mkActorHostType "dog" 5; mkActorHostType "bird" 7]))
             (world_of db_example [] []) in
  fst r = None /\
  db_hosts_actor_types (committed (snd r))
  = [mkHostActorTypeRow "host-0" "dog" 5; mkHostActorTypeRow "host-0" "bird" 7].
Proof.
  cbv zeta. split; [reflexivity|].
  rewrite (UpdateActorHost_replaces_actor_types
             unit store_example "host-0" (Some 200)
             [mkActorHostType "dog" 5; mkActorHostType "bird" 7]
             (world_of db_example [] [])
             (snd (UpdateActorHost store_example "host-0"
                     (mkUpdateActorHostRequest (Some 200)
                        (Some [mkActorHostType "dog" 5; mkActorHostType "bird" 7]))
                     (world_of db_example [] [])))); reflexivity.
Defined.

(** ** Registering a host, then removing it *)

Lemma QueryRow_Scan_hostID_Tx_ok s w id w' :
  QueryRow_Scan_hostID Tx s w = (id, None, w') ->
  exists log, txlog w = Some log /\
              fst (sem s (replay log (committed w))) = inr (RowHostID id).
Proof.
  unfold QueryRow_Scan_hostID, bind. pose proof (send_Tx_ok s w) as Hsem.
  destruct (send Tx s w) as [rep w1]; cbn [fst snd] in *.
  match goal with |- context [traced Tx s ?res w1] =>
    pose proof (traced_spec Tx s res w1) as (Hres & _);
    destruct (traced Tx s res w1) as [res' w2] end.
  cbn [fst] in Hres. subst res'.
  destruct rep as [e|[n|id0|row|]]; cbn [reply_err] in *; intros H; inversion H; subst.
  destruct (Hsem eq_refl) as (log & Hl & Hr). exists log. split; [exact Hl | congruence].
Qed.

Lemma sem_insert_ok t address appID apiLevel d id :
  fst (sem (SqlInsertHost t address appID apiLevel) d) = inr (RowHostID id) ->
  id <> "" /\
  is_table d t pgTableHosts = true /\
  db_prefix (snd (sem (SqlInsertHost t address appID apiLevel) d)) = db_prefix d /\
  db_hosts (snd (sem (SqlInsertHost t address appID apiLevel) d))
  = (db_hosts d ++ [mkHostRow id address appID apiLevel (db_clock d)])%list.
Proof.
  cbn [sem]. unfold undefined_table.
  destruct (is_table d t pgTableHosts); cbn [negb fst snd]; [|discriminate].
  destruct (existsb _ (db_hosts d)); cbn [fst snd]; [discriminate|].
  intros H. inversion H; subst. cbn [db_prefix db_hosts].
  split; [discriminate|]. auto.
Qed.

Lemma sem_copy_keeps_hosts t rows d :
  db_hosts (snd (sem (SqlCopyHostActorTypes t rows) d)) = db_hosts d /\
  db_prefix (snd (sem (SqlCopyHostActorTypes t rows) d)) = db_prefix d.
Proof.
  cbn [sem]. unfold undefined_table.
  repeat (destruct (negb _); cbn [fst snd]; [auto|]). auto.
Qed.

Lemma existsb_len_filter {A} (f : A -> bool) (l : list A) :
  existsb f l = true -> len (List.filter f l) <> 0.
Proof.
  induction l as [|a l IH]; cbn [existsb List.filter]; [discriminate|].
  destruct (f a); cbn [orb]; [intros _; unfold len; cbn [length]; lia | exact IH].
Qed.

Lemma AddActorHost_ok_host {A} (p : PostgreSQL A) properties w hostID w' :
  AddActorHost p properties w = (hostID, None, w') ->
  hostID <> "" /\
  host_exists (committed w') hostID = true /\
  is_table (committed w') (TableName (metadata p) pgTableHosts) pgTableHosts = true.
Proof.
  intros Hrun.
  destruct (AddActorHost_effect p properties w) as (_ & _ & Hok).
  rewrite Hrun in Hok. cbn [fst snd] in Hok. specialize (Hok eq_refl).
  revert Hrun. unfold AddActorHost.
  destruct (_ || _ || _); [discriminate|].
  unfold executeInTransaction, bind.
  destruct (Begin w) as [[e|] w1] eqn:HB; cbn [ret]; [discriminate|].
  destruct (Begin_ok w w1 HB) as (Hc1 & Hl1 & _).
  set (ins := SqlInsertHost _ _ _ _) in *.
  destruct (QueryRow_Scan_hostID Tx ins w1) as [[id [e|]] w2] eqn:HQ.
  { destruct (isUniqueViolationError (Some e)); cbn [ret];
      destruct (rollback_deferred w2); discriminate. }
  destruct (QueryRow_Scan_hostID_Tx_ok ins w1 id w2 HQ) as (log & Hl & Hsem).
  rewrite Hl1 in Hl. inversion Hl; subst log. cbn [replay fold_left] in Hsem.
  rewrite Hc1 in Hsem.
  destruct (insertHostActorTypes Tx id _ _ w2) as [[e|] w3]; cbn [ret].
  { destruct (rollback_deferred w3); discriminate. }
  destruct (Commit w3) as [[e|] w4]; cbn [ret].
  { destruct (rollback_deferred w4); discriminate. }
  intros H; inversion H; subst; clear H.
  subst ins. destruct (sem_insert_ok _ _ _ _ _ _ Hsem) as (Hne & Htab & Hpre & Hhosts).
  split; [exact Hne|].
  rewrite Hok. unfold AddActorHost_statements, host_exists, is_table in *.
  destruct (add_ActorTypes properties) as [|a rest]; cbn [replay fold_left].
  - rewrite Hhosts, Hpre, existsb_app. cbn [existsb host_id].
    rewrite String.eqb_refl, orb_true_r. auto.
  - match goal with |- context [sem (SqlCopyHostActorTypes ?t ?rows) ?d] =>
      destruct (sem_copy_keeps_hosts t rows d) as [-> ->] end.
    rewrite Hhosts, Hpre, existsb_app. cbn [existsb host_id].
    rewrite String.eqb_refl, orb_true_r. auto.
Qed.

(** X16. Registering and removing compose: after a successful
    [AddActorHost], [RemoveActorHost] of the host id it returned, when its
    statement reaches the server, returns nil, and afterwards neither the
    host nor any of its actor types is left. *)
Theorem RemoveActorHost_undoes_AddActorHost :
  forall (A : Type) (p : PostgreSQL A) (properties : AddActorHostRequest)
         (hostID : string) (w w' : World),
    AddActorHost p properties w = (hostID, None, w') ->
    fst (next_fault w') = None ->
    let r := RemoveActorHost p hostID w' in
    fst r = None /\
    host_exists (committed (snd r)) hostID = false /\
    rows_of_host hostID (db_hosts_actor_types (committed (snd r))) = [].
Proof.
  intros A p properties hostID w w' Hadd Hfault r.
  destruct (AddActorHost_ok_host p properties w hostID w' Hadd) as (Hne & Hex & Htab).
  assert (Hnil : fst r = None).
  { subst r. unfold RemoveActorHost.
    apply String.eqb_neq in Hne. rewrite Hne. unfold bind.
    pose proof (Exec_value Pool (SqlDeleteHost (TableName (metadata p) pgTableHosts) hostID) w')
      as Hv.
    rewrite (send_Pool_no_fault _ w' Hfault) in Hv. cbn [sem] in Hv.
    rewrite Htab in Hv. cbn [negb fst] in Hv.
    destruct (Exec Pool _ w') as [[n err] w2]; cbn [fst] in Hv. inversion Hv; subst.
    cbn [ret fst].
    pose proof (existsb_len_filter _ _ Hex) as Hlen.
    destruct (Z.eqb_spec (len (List.filter (fun h => String.eqb (host_id h) hostID)
                                           (db_hosts (committed w')))) 0);
      [contradiction | reflexivity]. }
  split; [exact Hnil|].
  destruct (RemoveActorHost_ok_effect p hostID w' (snd r)) as (_ & Hgone & Hrows & _).
  - subst r. destruct (RemoveActorHost p hostID w') as [err w2]; cbn [fst snd] in *.
    subst err. reflexivity.
  - auto.
Qed.

Lemma run_with_result {R : Type} (run : R * World) (res : R) :
  fst run = res -> run = (res, snd run).
Proof. destruct run as [r w]. cbn [fst snd]. intros ->. reflexivity. Qed.

Lemma RemoveActorHost_undoes_AddActorHost_witness :
  let added := AddActorHost store_example
                 (mkAddActorHostRequest "a2" "addr2" 1 [mkActorHostType "dog" 5])
                 (world_of db_example [] []) in
  let removed := RemoveActorHost store_example "host-1" (snd added) in
  fst added = ("host-1", None) /\
  fst removed = None /\
  db_hosts (committed (snd removed)) = db_hosts db_example /\
  db_hosts_actor_types (committed (snd removed)) = db_hosts_actor_types db_example.
Proof.
  cbv zeta.
  destruct (RemoveActorHost_undoes_AddActorHost
              unit store_example
              (mkAddActorHostRequest "a2" "addr2" 1 [mkActorHostType "dog" 5])
              "host-1" (world_of db_example [] [])
              (snd (AddActorHost store_example
                      (mkAddActorHostRequest "a2" "addr2" 1 [mkActorHostType "dog" 5])
                      (world_of db_example [] [])))) as (Hnil & _).
  - apply run_with_result. reflexivity.
  - reflexivity.
  - split; [reflexivity|]. split; [exact Hnil|]. split; reflexivity.
Defined.

(** ** Reporting a health check *)

Lemma map_healthcheck_rows id ts (hosts : list HostRow) :
  let hit (h : HostRow) := String.eqb (host_id h) id in
  let hosts' := map (fun h => if hit h
                              then mkHostRow (host_id h) (host_address h) (host_app_id h)
                                             (host_actors_api_level h) ts
                              else h) hosts in
  (forall h, In h hosts' -> host_id h = id -> host_last_healthcheck h = ts) /\
  List.filter (fun h => negb (hit h)) hosts' = List.filter (fun h => negb (hit h)) hosts /\
  map host_id hosts' = map host_id hosts.
Proof.
  cbv zeta. induction hosts as [|h0 hosts (IH1 & IH2 & IH3)]; cbn [map List.filter In].
  - repeat split. intros h [].
  - destruct (String.eqb (host_id h0) id) eqn:E; cbn [host_id negb List.filter].
    + rewrite E. cbn [negb]. split; [|split; [exact IH2 | f_equal; exact IH3]].
      intros h [<- | Hin] Hid; [reflexivity | apply IH1; assumption].
    + rewrite E. cbn [negb]. split; [|split; [f_equal; exact IH2 | f_equal; exact IH3]].
      intros h [<- | Hin] Hid; [|apply IH1; assumption].
      apply String.eqb_neq in E. contradiction.
Qed.

(** X17. When [UpdateActorHost] with a health check and no actor types
    returns nil, the host was in the hosts table, every row of that host now
    carries the reported time, the rows of the other hosts and the order of
    the table are as before, and the actor types and the actors are
    untouched. *)
Theorem UpdateActorHost_records_the_health_check :
  forall (A : Type) (p : PostgreSQL A) (actorHostID : string) (lastHealthCheck : Z)
         (w w' : World),
    UpdateActorHost p actorHostID (mkUpdateActorHostRequest (Some lastHealthCheck) None) w
    = (None, w') ->
    host_exists (committed w) actorHostID = true /\
    (forall h, In h (db_hosts (committed w')) -> host_id h = actorHostID ->
               host_last_healthcheck h = lastHealthCheck) /\
    List.filter (fun h => negb (String.eqb (host_id h) actorHostID)) (db_hosts (committed w'))
    = List.filter (fun h => negb (String.eqb (host_id h) actorHostID))
                  (db_hosts (committed w)) /\
    map host_id (db_hosts (committed w')) = map host_id (db_hosts (committed w)) /\
    db_hosts_actor_types (committed w') = db_hosts_actor_types (committed w) /\
    db_actors (committed w') = db_actors (committed w).
Proof.
  intros A p id ts w w'. unfold UpdateActorHost.
  destruct (_ || _); [discriminate|].
  cbn [upd_ActorTypes]. unfold bind, updateHostsTable. cbn [upd_LastHealthCheck].
  unfold bind.
  set (q := SqlUpdateHostHealthcheck (TableName (metadata p) pgTableHosts) id ts).
  destruct (Exec Pool q w) as [[n [e|]] w1] eqn:Hex; cbn [ret]; [discriminate|].
  destruct (Z.eqb_spec n 0) as [|Hn]; cbn [ret]; [discriminate|].
  intros H; inversion H; subst w1; clear H.
  destruct (Exec_Pool_rows q w n w' Hex Hn) as [Hr Hc].
  subst q. cbn [sem] in Hr, Hc. unfold undefined_table in Hr, Hc.
  destruct (negb (is_table (committed w) (TableName (metadata p) pgTableHosts) pgTableHosts));
    cbn [fst snd] in Hr, Hc; [discriminate|].
  inversion Hr as [Hlen].
  split. { apply len_filter_nonzero. unfold host_exists. rewrite Hlen. exact Hn. }
  rewrite Hc. cbn [db_hosts db_hosts_actor_types db_actors].
  destruct (map_healthcheck_rows id ts (db_hosts (committed w))) as (H1 & H2 & H3).
  auto.
Qed.

Lemma UpdateActorHost_records_the_health_check_witness :
  let r := UpdateActorHost store_example "host-0" (mkUpdateActorHostRequest (Some 200) None)
                           (world_of db_example [] []) in
  fst r = None /\
  db_hosts (committed (snd r)) = [mkHostRow "host-0" "addr1" "a1" 1 200] /\
  db_hosts_actor_types (committed (snd r)) = db_hosts_actor_types db_example.
Proof.
  cbv zeta.
  destruct (UpdateActorHost_records_the_health_check
              unit store_example "host-0" 200 (world_of db_example [] [])
              (snd (UpdateActorHost store_example "host-0"
                      (mkUpdateActorHostRequest (Some 200) None)
                      (world_of db_example [] []))))
    as (_ & _ & _ & _ & Htypes & _).
  - apply run_with_result. reflexivity.
  - split; [reflexivity|]. split; [reflexivity | exact Htypes].
Defined.
